(** * Werewolf session coordinator: a shallow embedding

    The Go packages [models] and [services] of qianlnk/werewolf, embedded as
    pure functions with explicit state passing.  Go strings are [string],
    Go [int] is [Z] with its 64-bit wrap-around written where the code
    increments, slices are lists, the vote tally [map[string]int] is a
    [gmap string nat], and a Go [error] result is [option error]
    ([None] is [nil]). *)

From Stdlib Require Import ZArith String List Bool Lia Permutation.
From stdpp Require Import gmap strings list fin_maps.
Local Open Scope string_scope.

(** ** Package models *)

(** [type Role string] and its constants. *)
Definition Werewolf : string := "werewolf".
Definition Seer : string := "seer".
Definition Witch : string := "witch".
Definition Villager : string := "villager".
Definition Hunter : string := "hunter".
Definition Guard : string := "guard".
Definition Cupid : string := "cupid".
Definition Thief : string := "thief".
Definition WhiteWolf : string := "whitewolf".

(** [type PlayerType string]. *)
Definition HumanPlayer : string := "human".
Definition AIPlayer : string := "ai".

(** [models.Player]; the Go field [Type] is [PlayerType] here. *)
Record Player := mkPlayer {
  ID : string;
  Name : string;
  PlayerType : string;
  Role : string;
  Personality : string;
  Alive : bool;
  IsLover : bool
}.

(** The zero value of [models.Player] ([var player models.Player]). *)
Definition zeroPlayer : Player := mkPlayer "" "" "" "" "" false false.

Definition set_Alive (b : bool) (p : Player) : Player :=
  mkPlayer (ID p) (Name p) (PlayerType p) (Role p) (Personality p) b (IsLover p).

(** [models.GameAction]; the Go field [Type] is [Type_] here. *)
Record GameAction := mkAction {
  Type_ : string;
  PlayerID : string;
  TargetID : string;
  Timestamp : Z;
  RoomID : string;
  Content : string
}.

Definition set_Timestamp (t : Z) (a : GameAction) : GameAction :=
  mkAction (Type_ a) (PlayerID a) (TargetID a) t (RoomID a) (Content a).

(** ** Package services: errors and constants *)

Definition error := string.

Definition ErrGameNotStarted : error := "游戏尚未开始".
Definition ErrGameInProgress : error := "游戏正在进行中".
Definition ErrInvalidAction : error := "无效的游戏动作".
Definition ErrInvalidPhase : error := "当前阶段无法执行该动作".

(** The messages of the [errors.New] calls made in place. *)
Definition errInvalidActionMsg : error := "无效的动作".
Definition errInvalidTargetMsg : error := "无效的目标玩家".
Definition errPhaseIncompleteMsg : error := "当前阶段尚未完成所有必要动作".
Definition errLoversWinMsg : error := "情侣阵营胜利：只剩下情侣存活".
Definition errWhiteWolfWinMsg : error := "白狼王觉醒胜利：白狼王成为最后的胜利者".
Definition errVillagerWinMsg : error := "好人阵营胜利：所有狼人都已被清除".
Definition errWerewolfWinMsg : error := "狼人阵营胜利：狼人数量已经超过或等于好人数量".
Definition errNotWitchMsg : error := "非女巫角色".
Definition errNoTargetMsg : error := "目标玩家不存在".
Definition errSaveUsedMsg : error := "救人技能已使用".
Definition errPoisonUsedMsg : error := "毒药已使用".
Definition errInvalidSkillMsg : error := "无效的技能类型".

Definition PhaseNight : string := "night".
Definition PhaseDay : string := "day".
Definition PhaseVote : string := "vote".

Definition GameOngoing : string := "ongoing".
Definition WerewolfWin : string := "werewolf_win".
Definition VillagerWin : string := "villager_win".
Definition LoversWin : string := "lovers_win".
Definition WhiteWolfWin : string := "white_wolf_win".

(** Go's [int] on the 64-bit targets: [x++] wraps at [MaxInt]. *)
Definition MaxInt : Z := 2 ^ 63 - 1.
Definition MinInt : Z := (- 2 ^ 63)%Z.
Definition wrap_int (z : Z) : Z := ((z + 2 ^ 63) mod 2 ^ 64 - 2 ^ 63)%Z.

(** ** Skill ledger types (skill manager file) *)

Record SkillStatus := mkSkillStatus {
  Used : bool;
  Target : string
}.

Record WitchSkills := mkWitchSkills {
  SavePotion : SkillStatus;
  PoisonPotion : SkillStatus
}.

(** [WitchSkills{}]: both flags false, both targets empty. *)
Definition zeroWitchSkills : WitchSkills :=
  mkWitchSkills (mkSkillStatus false "") (mkSkillStatus false "").

(** ** GameState (services/game_state.go)

    The [Room] copy and the mutex are left out: no function below reads
    them.  [Skills] is the ledger [map[string]*WitchSkills]; its values are
    reachable through the map only, so the map of values models it. *)
Record GameState := mkGameState {
  StateRoomID : string;
  Players : list Player;
  Phase : string;
  Round : Z;
  Actions : list GameAction;
  TimeLeft : Z;
  IsStarted : bool;
  Skills : gmap string WitchSkills
}.

Definition set_Players (ps : list Player) (g : GameState) : GameState :=
  mkGameState (StateRoomID g) ps (Phase g) (Round g) (Actions g) (TimeLeft g)
    (IsStarted g) (Skills g).
Definition set_Phase (ph : string) (g : GameState) : GameState :=
  mkGameState (StateRoomID g) (Players g) ph (Round g) (Actions g) (TimeLeft g)
    (IsStarted g) (Skills g).
Definition set_Round (r : Z) (g : GameState) : GameState :=
  mkGameState (StateRoomID g) (Players g) (Phase g) r (Actions g) (TimeLeft g)
    (IsStarted g) (Skills g).
Definition set_Actions (acts : list GameAction) (g : GameState) : GameState :=
  mkGameState (StateRoomID g) (Players g) (Phase g) (Round g) acts (TimeLeft g)
    (IsStarted g) (Skills g).
Definition set_TimeLeft (t : Z) (g : GameState) : GameState :=
  mkGameState (StateRoomID g) (Players g) (Phase g) (Round g) (Actions g) t
    (IsStarted g) (Skills g).
Definition set_IsStarted (b : bool) (g : GameState) : GameState :=
  mkGameState (StateRoomID g) (Players g) (Phase g) (Round g) (Actions g)
    (TimeLeft g) b (Skills g).


(** ** Free functions of services/room.go *)

(** [for i := range players { if players[i].ID == id { ...; break } }]:
    the first roster entry with that identifier. *)
Definition findPlayer (players : list Player) (id : string) : option Player :=
  find (fun p => ID p =? id) players.

(** The same loop writing [Alive] in place. *)
Fixpoint setAlive (id : string) (b : bool) (players : list Player) : list Player :=
  match players with
  | [] => []
  | p :: rest =>
      if ID p =? id then set_Alive b p :: rest else p :: setAlive id b rest
  end.

(** [isValidAction]: the actor is the first roster entry with the action's
    [PlayerID], or the zero player (not alive) when there is none. *)
Definition isValidAction (game : GameState) (action : GameAction) : bool :=
  let player := default zeroPlayer (findPlayer (Players game) (PlayerID action)) in
  if negb (Alive player) then false
  else if Phase game =? PhaseNight then
    if Type_ action =? "kill" then
      (Role player =? Werewolf) || (Role player =? WhiteWolf)
    else if Type_ action =? "check" then Role player =? Seer
    else if (Type_ action =? "save") || (Type_ action =? "poison") then
      Role player =? Witch
    else if Type_ action =? "protect" then Role player =? Guard
    else false
  else if Phase game =? PhaseDay then Type_ action =? "discuss"
  else if Phase game =? PhaseVote then Type_ action =? "vote"
  else false.

(** [processActionResult]. *)
Definition processActionResult (game : GameState) (action : GameAction) : GameState :=
  if Type_ action =? "kill" then
    set_Players (setAlive (TargetID action) false (Players game)) game
  else if (Type_ action =? "save") || (Type_ action =? "poison") then
    set_Players
      (setAlive (TargetID action) (Type_ action =? "save") (Players game)) game
  else if Type_ action =? "vote" then
    set_Players (setAlive (TargetID action) false (Players game)) game
  else game.

(** [checkAndUpdatePhase]. *)
Definition checkAndUpdatePhase (game : GameState) : GameState :=
  let game1 :=
    if Phase game =? PhaseNight then set_Phase PhaseDay game
    else if Phase game =? PhaseDay then set_Phase PhaseVote game
    else if Phase game =? PhaseVote then
      set_Round (wrap_int (Round game + 1)) (set_Phase PhaseNight game)
    else game in
  set_TimeLeft 120 game1.

(** ** GameState.AddAction (services/game_state.go) *)

(** The target loop of [AddAction]: it stops at the first living roster
    entry with the target's identifier. *)
Definition livingTarget (players : list Player) (id : string) : option Player :=
  find (fun p => (ID p =? id) && Alive p) players.

Definition targetValid (gs : GameState) (action : GameAction) : bool :=
  match livingTarget (Players gs) (TargetID action) with
  | None => false
  | Some player =>
      if Phase gs =? PhaseNight then
        if Type_ action =? "kill" then
          negb (Role player =? Werewolf) && negb (Role player =? WhiteWolf)
        else true
      else if Phase gs =? PhaseVote then true
      else false
  end.

(** [now] is the value of [time.Now().Unix()]. *)
Definition AddAction (now : Z) (gs : GameState) (action : GameAction)
  : GameState * option error :=
  if negb (IsStarted gs) then (gs, Some ErrGameNotStarted)
  else if negb (isValidAction gs action) then (gs, Some errInvalidActionMsg)
  else if negb (TargetID action =? "") && negb (targetValid gs action) then
    (gs, Some errInvalidTargetMsg)
  else (set_Actions (Actions gs ++ [set_Timestamp now action]) gs, None).

(** ** The phase state machine *)

Record StateMachine := mkStateMachine {
  game : GameState;
  status : string
}.

(** [NewStateMachine]: [status] starts as the empty string. *)
Definition NewStateMachine (g : GameState) : StateMachine := mkStateMachine g "".

Definition hasActionOfType (sm : StateMachine) (playerID actionType : string) : bool :=
  existsb (fun action => (PlayerID action =? playerID) && (Type_ action =? actionType))
    (Actions (game sm)).

Definition checkNightActionsComplete (sm : StateMachine) : bool :=
  forallb
    (fun player =>
       if negb (Alive player) then true
       else if (Role player =? Werewolf) || (Role player =? WhiteWolf) then
         hasActionOfType sm (ID player) "kill"
       else if Role player =? Seer then hasActionOfType sm (ID player) "check"
       else if Role player =? Witch then true
       else if Role player =? Guard then hasActionOfType sm (ID player) "protect"
       else true)
    (Players (game sm)).

(** The two counters of [checkVoteComplete]; both are bounded by the
    roster length, so they are plain naturals. *)
Definition checkVoteComplete (sm : StateMachine) : bool :=
  let '(voteCount, aliveCount) :=
    foldl
      (fun '(v, a) player =>
         if Alive player then
           (if hasActionOfType sm (ID player) "vote" then S v else v, S a)
         else (v, a))
      (0, 0) (Players (game sm)) in
  (voteCount =? aliveCount)%nat.

Definition isPhaseComplete (sm : StateMachine) : bool :=
  if Phase (game sm) =? PhaseNight then checkNightActionsComplete sm
  else if Phase (game sm) =? PhaseDay then (TimeLeft (game sm) <=? 0)%Z
  else if Phase (game sm) =? PhaseVote then checkVoteComplete sm
  else false.

(** [processNightResults]: two passes over the same log, then a fresh log. *)
Definition processNightResults (g : GameState) : GameState :=
  let g1 :=
    foldl (fun acc action =>
             if Type_ action =? "kill" then processActionResult acc action else acc)
      g (Actions g) in
  let g2 :=
    foldl (fun acc action =>
             if (Type_ action =? "save") || (Type_ action =? "poison") then
               processActionResult acc action
             else acc)
      g1 (Actions g) in
  set_Actions [] g2.

(** [votes[action.TargetID]++] over the log; a count is at most the log's
    length. *)
Definition countVotes (actions : list GameAction) : gmap string nat :=
  foldl
    (fun votes action =>
       if Type_ action =? "vote" then
         <[TargetID action := S (default 0 (votes !! TargetID action))]> votes
       else votes)
    ∅ actions.

(** One iteration of [for playerID, count := range votes]. *)
Definition pickMax (acc : nat * string) (entry : string * nat) : nat * string :=
  let '(maxVotes, eliminatedID) := acc in
  let '(playerID, count) := entry in
  if (maxVotes <? count)%nat then (count, playerID) else (maxVotes, eliminatedID).

(** Go leaves the iteration order of a map unspecified: [range_order] gives
    the order in which [range votes] visits the entries, and is a legal
    order when it is a permutation of the map's entries. *)
Definition legal_range_order (range_order : gmap string nat → list (string * nat)) : Prop :=
  ∀ m, range_order m ≡ₚ map_to_list m.

Definition processVoteResults
    (range_order : gmap string nat → list (string * nat)) (g : GameState)
  : GameState :=
  let votes := countVotes (Actions g) in
  let '(maxVotes, eliminatedID) := foldl pickMax (0, "") (range_order votes) in
  let g1 :=
    if negb (eliminatedID =? "") then
      processActionResult g (mkAction "vote" "" eliminatedID 0 "" "")
    else g in
  set_Actions [] g1.

(** The six counters of [checkGameEnd], each bounded by the roster length. *)
Record endCounts := mkEndCounts {
  werewolfCount : nat;
  villagerCount : nat;
  whiteWolfCount : nat;
  loversAlive : nat;
  loversWolfCount : nat;
  loversVillagerCount : nat
}.

Definition countPlayer (c : endCounts) (player : Player) : endCounts :=
  if negb (Alive player) then c
  else
    let c1 :=
      if IsLover player then
        if (Role player =? Werewolf) || (Role player =? WhiteWolf) then
          mkEndCounts (werewolfCount c) (villagerCount c) (whiteWolfCount c)
            (S (loversAlive c)) (S (loversWolfCount c)) (loversVillagerCount c)
        else
          mkEndCounts (werewolfCount c) (villagerCount c) (whiteWolfCount c)
            (S (loversAlive c)) (loversWolfCount c) (S (loversVillagerCount c))
      else c in
    if Role player =? WhiteWolf then
      mkEndCounts (S (werewolfCount c1)) (villagerCount c1) (S (whiteWolfCount c1))
        (loversAlive c1) (loversWolfCount c1) (loversVillagerCount c1)
    else if Role player =? Werewolf then
      mkEndCounts (S (werewolfCount c1)) (villagerCount c1) (whiteWolfCount c1)
        (loversAlive c1) (loversWolfCount c1) (loversVillagerCount c1)
    else
      mkEndCounts (werewolfCount c1) (S (villagerCount c1)) (whiteWolfCount c1)
        (loversAlive c1) (loversWolfCount c1) (loversVillagerCount c1).

Definition countLiving (players : list Player) : endCounts :=
  foldl countPlayer (mkEndCounts 0 0 0 0 0 0) players.

Definition set_status (s : string) (sm : StateMachine) : StateMachine :=
  mkStateMachine (game sm) s.

(** [checkGameEnd]: a win is reported as a non-nil error. *)
Definition checkGameEnd (sm : StateMachine) : StateMachine * option error :=
  let c := countLiving (Players (game sm)) in
  if (loversAlive c =? 2)%nat
     && (loversAlive c =? villagerCount c + werewolfCount c)%nat then
    (set_status LoversWin sm, Some errLoversWinMsg)
  else if (whiteWolfCount c =? 1)%nat && (werewolfCount c =? 1)%nat
          && (villagerCount c =? 0)%nat then
    (set_status WhiteWolfWin sm, Some errWhiteWolfWinMsg)
  else if (werewolfCount c =? 0)%nat then
    (set_status VillagerWin sm, Some errVillagerWinMsg)
  else if (villagerCount c <=? werewolfCount c)%nat then
    (set_status WerewolfWin sm, Some errWerewolfWinMsg)
  else (set_status GameOngoing sm, None).

(** [TransitionPhase]. *)
Definition TransitionPhase
    (range_order : gmap string nat → list (string * nat)) (sm : StateMachine)
  : StateMachine * option error :=
  if negb (IsStarted (game sm)) then (sm, Some ErrGameNotStarted)
  else if negb (isPhaseComplete sm) then (sm, Some errPhaseIncompleteMsg)
  else
    let g := game sm in
    let g1 :=
      if Phase g =? PhaseNight then set_Phase PhaseDay (processNightResults g)
      else if Phase g =? PhaseDay then set_Phase PhaseVote g
      else if Phase g =? PhaseVote then
        let g' := set_Phase PhaseNight (processVoteResults range_order g) in
        set_Round (wrap_int (Round g' + 1)) g'
      else g in
    checkGameEnd (mkStateMachine (set_TimeLeft 120 g1) (status sm)).

(** ** The skill manager *)

(** [getWitchSkills] returns a new instance at every call. *)
Definition getWitchSkills (gs : GameState) (witchID : string) : WitchSkills :=
  zeroWitchSkills.

(** [UseWitchSkill], with the [WitchSkills] object it wrote to: that object
    is the one [getWitchSkills] made, and nothing keeps it after the call. *)
Definition UseWitchSkill_local (gs : GameState) (witchID targetID skillType : string)
  : GameState * WitchSkills * option error :=
  let skills := getWitchSkills gs witchID in
  match findPlayer (Players gs) witchID with
  | None => (gs, skills, Some errNotWitchMsg)
  | Some witch =>
      if negb (Role witch =? Witch) then (gs, skills, Some errNotWitchMsg)
      else
        match findPlayer (Players gs) targetID with
        | None => (gs, skills, Some errNoTargetMsg)
        | Some _ =>
            let record :=
              set_Actions (Actions gs ++ [mkAction skillType witchID targetID 0 "" ""]) gs in
            if skillType =? "save" then
              if Used (SavePotion skills) then (gs, skills, Some errSaveUsedMsg)
              else
                (record,
                 mkWitchSkills (mkSkillStatus true targetID) (PoisonPotion skills),
                 None)
            else if skillType =? "poison" then
              if Used (PoisonPotion skills) then (gs, skills, Some errPoisonUsedMsg)
              else
                (record,
                 mkWitchSkills (SavePotion skills) (mkSkillStatus true targetID),
                 None)
            else (gs, skills, Some errInvalidSkillMsg)
        end
  end.

Definition UseWitchSkill (gs : GameState) (witchID targetID skillType : string)
  : GameState * option error :=
  let '(gs', _, err) := UseWitchSkill_local gs witchID targetID skillType in
  (gs', err).

(** ** GameController (the room's controller)

    The controller's session state is its state machine, which holds the
    game.  Broadcasts and the timer handle carry no session state. *)

(** How a controller call ends: it returns an error value, or the phase
    was advanced and the controller goes on to restart the phase timer
    and run the synthetic actors ([startPhaseTimer]), which is not part of
    this model. *)
Inductive outcome :=
| Returned (err : option error)
| Advanced.

Module GameController.

Definition endCurrentPhase
    (range_order : gmap string nat → list (string * nat)) (sm : StateMachine)
  : StateMachine * outcome :=
  match TransitionPhase range_order sm with
  | (sm', Some err) =>
      if (err =? VillagerWin) || (err =? WerewolfWin) then (sm', Returned None)
      else (sm', Returned (Some err))
  | (sm', None) => (sm', Advanced)
  end.

Definition ProcessAction
    (range_order : gmap string nat → list (string * nat)) (now : Z)
    (sm : StateMachine) (action : GameAction)
  : StateMachine * outcome :=
  if negb (existsb (fun player => ID player =? TargetID action) (Players (game sm)))
  then (sm, Returned (Some errInvalidTargetMsg))
  else
    match AddAction now (game sm) action with
    | (g1, Some err) => (mkStateMachine g1 (status sm), Returned (Some err))
    | (g1, None) =>
        let sm2 := mkStateMachine (processActionResult g1 action) (status sm) in
        if isPhaseComplete sm2 then endCurrentPhase range_order sm2
        else (sm2, Returned None)
    end.

End GameController.

(** ** GameManager (services/room.go) *)

Module GameManager.

Definition ProcessAction
    (range_order : gmap string nat → list (string * nat))
    (games : gmap string GameState) (roomID : string) (action : GameAction)
  : gmap string GameState * option error :=
  match games !! roomID with
  | None => (games, Some ErrGameNotStarted)
  | Some g =>
      if negb (IsStarted g) then (games, Some ErrGameNotStarted)
      else if negb (isValidAction g action) then (games, Some ErrInvalidAction)
      else
        let g1 := set_Actions (Actions g ++ [action]) g in
        match TransitionPhase range_order (NewStateMachine g1) with
        | (sm, Some err) =>
            let g2 :=
              if (err =? WerewolfWin) || (err =? VillagerWin) then
                set_IsStarted false (game sm)
              else game sm in
            (<[roomID := g2]> games, Some err)
        | (sm, None) =>
            let g2 := set_Actions (Actions (game sm) ++ [action]) (game sm) in
            let g3 := processActionResult g2 action in
            (<[roomID := checkAndUpdatePhase g3]> games, None)
        end
  end.

End GameManager.

(** ** Role assignment and game start (services/room.go, game_state.go) *)

(** [type GameMode string] and its constants. *)
Definition ClassicMode : string := "classic".
Definition StandardMode : string := "standard".
Definition ExtendedMode : string := "extended".

(** [models.Room]; the Go fields [ID], [Name] and [Players] are [RoomKey],
    [RoomName] and [Members] here. *)
Record Room := mkRoom {
  RoomKey : string;
  RoomName : string;
  Mode : string;
  Members : list Player;
  MaxPlayers : Z;
  MinPlayers : Z;
  GameStarted : bool;
  CreatedAt : Z
}.

Definition set_Members (ps : list Player) (r : Room) : Room :=
  mkRoom (RoomKey r) (RoomName r) (Mode r) ps (MaxPlayers r) (MinPlayers r)
    (GameStarted r) (CreatedAt r).

Definition set_Role (r : string) (p : Player) : Player :=
  mkPlayer (ID p) (Name p) (PlayerType p) r (Personality p) (Alive p) (IsLover p).

Definition set_Skills (m : gmap string WitchSkills) (g : GameState) : GameState :=
  mkGameState (StateRoomID g) (Players g) (Phase g) (Round g) (Actions g)
    (TimeLeft g) (IsStarted g) m.

(** The [switch mode] of [generateRoles]. *)
Definition modeRoles (mode : string) : list string :=
  if mode =? ClassicMode then [Werewolf; Werewolf; Seer; Witch]
  else if mode =? StandardMode then [Werewolf; Werewolf; Seer; Witch; Hunter; Guard]
  else if mode =? ExtendedMode then
    [Werewolf; WhiteWolf; Seer; Witch; Hunter; Guard; Cupid]
  else [].

(** [generateRoles]: the loop [for i := 0; i < villagerCount; i++] runs
    [villagerCount] times, and not at all when that is negative. *)
Definition generateRoles (playerCount : Z) (mode : string) : list string :=
  let roles := modeRoles mode in
  let villagerCount := (playerCount - Z.of_nat (length roles))%Z in
  roles ++ replicate (Z.to_nat villagerCount) Villager.

(** [rand.Shuffle] reorders the slice: [shuffle] gives the outcome, and is
    a legal one when it is a permutation of its argument. *)
Definition legal_shuffle (shuffle : list string → list string) : Prop :=
  ∀ l, shuffle l ≡ₚ l.

(** The loop [for i := range game.Players] of [assignRoles]; [None] is the
    run-time panic of [roles[i]] with [i] out of range. *)
Fixpoint assignFrom (roles : list string) (players : list Player)
  {struct players} : option (list Player) :=
  match players with
  | [] => Some []
  | p :: rest =>
      match roles with
      | [] => None
      | r :: roles' =>
          match assignFrom roles' rest with
          | None => None
          | Some rest' => Some (set_Alive true (set_Role r p) :: rest')
          end
      end
  end.

(** [assignRoles]; [mode] is [game.Room.Mode]. *)
Definition assignRoles (shuffle : list string → list string) (mode : string)
    (g : GameState) : option GameState :=
  let roles := shuffle (generateRoles (Z.of_nat (length (Players g))) mode) in
  match assignFrom roles (Players g) with
  | None => None
  | Some players => Some (set_Players players g)
  end.

(** [initializeSkills]. *)
Definition initializeSkills (gs : GameState) : GameState :=
  set_Skills
    (foldl (fun skills p =>
              if Role p =? Witch then <[ID p := zeroWitchSkills]> skills else skills)
       (Skills gs) (Players gs))
    gs.

Definition errTooFewPlayersMsg : error := "玩家人数不足".
Definition errNoPlayerMsg : error := "玩家不存在".
Definition errNotSeerMsg : error := "非预言家角色".
Definition errNotHunterMsg : error := "非猎人角色".
Definition errNotGuardMsg : error := "非守卫角色".

(** [GameState.StartGame]; [room] is the [Room] copy the game state holds.
    [None] is a panic inside [assignRoles]. *)
Definition StartGame (shuffle : list string → list string) (room : Room)
    (gs : GameState) : option (GameState * option error) :=
  if (Z.of_nat (length (Players gs)) <? MinPlayers room)%Z then
    Some (gs, Some errTooFewPlayersMsg)
  else
    match assignRoles shuffle (Mode room) gs with
    | None => None
    | Some g1 =>
        let g2 := initializeSkills g1 in
        Some (set_Actions []
                (set_IsStarted true
                   (set_TimeLeft 120 (set_Round 1 (set_Phase PhaseNight g2)))),
              None)
    end.

(** [NewGameState]. *)
Definition NewGameState (room : Room) : GameState :=
  mkGameState "" (Members room) PhaseNight 1 [] 120 false ∅.

(** [GetPlayerStatus]. *)
Definition GetPlayerStatus (gs : GameState) (playerID : string)
  : option Player * option error :=
  match findPlayer (Players gs) playerID with
  | Some p => (Some p, None)
  | None => (None, Some errNoPlayerMsg)
  end.

(** [getAvailableActions]. *)
Definition getAvailableActions (g : GameState) : list string :=
  if Phase g =? PhaseNight then
    foldl
      (fun (actions : list string) player =>
         if negb (Alive player) then actions
         else if (Role player =? Werewolf) || (Role player =? WhiteWolf) then
           (actions ++ ["kill"])%list
         else if Role player =? Seer then (actions ++ ["check"])%list
         else if Role player =? Witch then (actions ++ ["save"; "poison"])%list
         else if Role player =? Guard then (actions ++ ["protect"])%list
         else actions)
      [] (Players g)
  else if Phase g =? PhaseDay then ["discuss"]
  else if Phase g =? PhaseVote then ["vote"]
  else [].

(** [GameState.GetAvailableActions]; [None] is the [nil] slice. *)
Definition GetAvailableActions (gs : GameState) (playerID : string)
  : option (list string) :=
  match findPlayer (Players gs) playerID with
  | None => None
  | Some player =>
      if negb (Alive player) then None else Some (getAvailableActions gs)
  end.

(** [countAlivePlayers] of the controller file. *)
Definition countAlivePlayers (players : list Player) : nat :=
  foldl (fun count player => if Alive player then S count else count) 0 players.

(** ** The other skills of the skill manager *)

(** [UseSeerSkill]: the revealed role and the error. *)
Definition UseSeerSkill (gs : GameState) (seerID targetID : string)
  : GameState * string * option error :=
  match findPlayer (Players gs) seerID with
  | None => (gs, "", Some errNotSeerMsg)
  | Some seer =>
      if negb (Role seer =? Seer) then (gs, "", Some errNotSeerMsg)
      else
        match findPlayer (Players gs) targetID with
        | None => (gs, "", Some errNoTargetMsg)
        | Some target =>
            (set_Actions (Actions gs ++ [mkAction "check" seerID targetID 0 "" ""]) gs,
             Role target, None)
        end
  end.

(** [UseHunterSkill]: [target] points into the roster, so
    [target.Alive = false] writes the first entry of that identifier. *)
Definition UseHunterSkill (gs : GameState) (hunterID targetID : string)
  : GameState * option error :=
  match findPlayer (Players gs) hunterID with
  | None => (gs, Some errNotHunterMsg)
  | Some hunter =>
      if negb (Role hunter =? Hunter) then (gs, Some errNotHunterMsg)
      else
        match findPlayer (Players gs) targetID with
        | None => (gs, Some errNoTargetMsg)
        | Some _ =>
            (set_Players (setAlive targetID false (Players gs))
               (set_Actions
                  (Actions gs ++ [mkAction "shoot" hunterID targetID 0 "" ""]) gs),
             None)
        end
  end.

(** [UseGuardSkill]. *)
Definition UseGuardSkill (gs : GameState) (guardID targetID : string)
  : GameState * option error :=
  match findPlayer (Players gs) guardID with
  | None => (gs, Some errNotGuardMsg)
  | Some guard =>
      if negb (Role guard =? Guard) then (gs, Some errNotGuardMsg)
      else
        match findPlayer (Players gs) targetID with
        | None => (gs, Some errNoTargetMsg)
        | Some _ =>
            (set_Actions
               (Actions gs ++ [mkAction "protect" guardID targetID 0 "" ""]) gs,
             None)
        end
  end.

(** ** The rest of GameManager (services/room.go) *)

(** [models.GameStatus]. *)
Record GameStatus := mkGameStatus {
  StatusPhase : string;
  StatusRound : Z;
  StatusPlayers : list Player;
  StatusActions : list string;
  StatusTimeLeft : Z
}.

(** [GameManager.StartGame]: the new state has no [Room], so the mode read
    by [assignRoles] is the empty string, and no skill ledger. *)
Definition GameManager_StartGame (shuffle : list string → list string)
    (games : gmap string GameState) (roomID : string) (players : list Player)
  : option (gmap string GameState * option error) :=
  match games !! roomID with
  | Some _ => Some (games, Some ErrGameInProgress)
  | None =>
      match assignRoles shuffle ""
              (mkGameState roomID players PhaseNight 1 [] 120 true ∅) with
      | None => None
      | Some g => Some (<[roomID := g]> games, None)
      end
  end.

(** [GameManager.GetGameStatus]. *)
Definition GameManager_GetGameStatus (games : gmap string GameState) (roomID : string)
  : option GameStatus * option error :=
  match games !! roomID with
  | None => (None, Some ErrGameNotStarted)
  | Some g =>
      if negb (IsStarted g) then (None, Some ErrGameNotStarted)
      else
        (Some (mkGameStatus (Phase g) (Round g) (Players g)
                 (getAvailableActions g) (TimeLeft g)),
         None)
  end.

(** ** RoomManager (services/room.go) *)

Definition ErrRoomNotFound : error := "房间不存在".
Definition ErrRoomFull : error := "房间已满".

(** The two maps of the room manager; a controller is its state machine.
    The roster a controller gets in [JoinRoom] is the room's own slice; the
    functions below only read it. *)
Record RoomManager := mkRoomManager {
  rooms : gmap string Room;
  games : gmap string StateMachine
}.

Module RoomManager.

(** [CreateRoom]; [id] is the value of [generateID()] and [now] that of
    [time.Now().Unix()]. *)
Definition CreateRoom (id : string) (now : Z) (rm : RoomManager)
    (name mode : string) (maxPlayers : Z) : RoomManager * Room :=
  let room := mkRoom id name mode [] maxPlayers 1 false now in
  (mkRoomManager (<[id := room]> (rooms rm))
     (<[id := NewStateMachine (NewGameState room)]> (games rm)),
   room).

Definition GetRoom (rm : RoomManager) (roomID : string) : option Room * option error :=
  match rooms rm !! roomID with
  | Some room => (Some room, None)
  | None => (None, Some ErrRoomNotFound)
  end.

(** [JoinRoom]: [p.Name = player.Name] writes the loop's copy of the
    entry, so a participant already in the room leaves it as it is. *)
Definition JoinRoom (rm : RoomManager) (roomID : string) (player : Player)
  : RoomManager * option error :=
  match rooms rm !! roomID with
  | None => (rm, Some ErrRoomNotFound)
  | Some room =>
      if (MaxPlayers room <=? Z.of_nat (length (Members room)))%Z then
        (rm, Some ErrRoomFull)
      else if existsb (fun p => ID p =? ID player) (Members room) then (rm, None)
      else
        let room' := set_Members (Members room ++ [player]) room in
        let games' :=
          match games rm !! roomID with
          | Some gc =>
              <[roomID := mkStateMachine (set_Players (Members room') (game gc))
                            (status gc)]> (games rm)
          | None => games rm
          end in
        (mkRoomManager (<[roomID := room']> (rooms rm)) games', None)
  end.

Definition GetGameController (rm : RoomManager) (roomID : string)
  : option StateMachine :=
  games rm !! roomID.

Definition GetPlayer (rm : RoomManager) (roomID playerID : string)
  : option Player * option error :=
  match rooms rm !! roomID with
  | None => (None, Some ErrRoomNotFound)
  | Some room =>
      match findPlayer (Members room) playerID with
      | Some p => (Some p, None)
      | None => (None, Some errNoPlayerMsg)
      end
  end.

End RoomManager.

(** ** The broadcast groups of the WebSocket manager

    [rooms map[string][]string], room identifier to participant
    identifiers; the connections and the sends are left out. *)
Module WebSocketManager.

Definition JoinRoom (groups : gmap string (list string)) (roomID playerID : string)
  : gmap string (list string) :=
  let groups1 :=
    match groups !! roomID with
    | None => <[roomID := []]> groups
    | Some _ => groups
    end in
  let members := default [] (groups1 !! roomID) in
  if existsb (fun pid => pid =? playerID) members then groups1
  else <[roomID := (members ++ [playerID])%list]> groups1.

Definition isPlayerInRoom (groups : gmap string (list string))
    (roomID playerID : string) : bool :=
  match groups !! roomID with
  | None => false
  | Some players => existsb (fun pid => pid =? playerID) players
  end.

End WebSocketManager.

(** ** Synthetic participants (services/ai_player.go) *)

Definition PersonalityAggressive : string := "aggressive".
Definition PersonalityCautious : string := "cautious".
Definition PersonalityStrategic : string := "strategic".
Definition PersonalityRandom : string := "random".

Module AI.

(** [AIPlayer]; its [GameState] pointer is the game passed to each
    method. *)
Record t := mk {
  aiID : string;
  aiPersonality : string;
  aiRole : string;
  KnownPlayers : gmap string string
}.

Definition personalities : list string :=
  [PersonalityAggressive; PersonalityCautious; PersonalityStrategic;
   PersonalityRandom].

(** [NewAIPlayer]; [r] is the value of [rand.Intn(len(personalities))]. *)
Definition NewAIPlayer (r : nat) (id role : string) : t :=
  mk id (default "" (personalities !! r)) role ∅.

(** [potentialTargets[rand.Intn(len(potentialTargets))]], [pick n] being
    the value of [rand.Intn(n)], which is below [n]. *)
Definition choose (pick : nat → nat) (potentialTargets : list string) : string :=
  default "" (potentialTargets !! pick (length potentialTargets)).

(** What the body of a selection loop does with one roster entry: return
    its identifier at once, append it to [potentialTargets], or go on. *)
Inductive verdict := TakeNow | Candidate | Pass.

Fixpoint scan (judge : Player → verdict) (players : list Player)
    (potentialTargets : list string) : string + list string :=
  match players with
  | [] => inr potentialTargets
  | player :: rest =>
      match judge player with
      | TakeNow => inl (ID player)
      | Candidate => scan judge rest (potentialTargets ++ [ID player])%list
      | Pass => scan judge rest potentialTargets
      end
  end.

(** [isActive]: the product [Round * 2] is a Go [int]. *)
Definition isActive (gs : GameState) (playerID : string) : bool :=
  let speakCount :=
    foldl (fun n action =>
             if (Type_ action =? "discuss") && (PlayerID action =? playerID)
             then S n else n) 0 (Actions gs) in
  (wrap_int (Round gs * 2) <=? Z.of_nat speakCount)%Z.

Definition isWolfRole (role : string) : bool :=
  (role =? Werewolf) || (role =? WhiteWolf).

Definition isSuspicious (ai : t) (gs : GameState) (playerID : string) : bool :=
  let score1 :=
    foldl (fun n action =>
             if (Type_ action =? "vote") && (PlayerID action =? playerID) then
               match KnownPlayers ai !! TargetID action with
               | Some role => if negb (isWolfRole role) then S n else n
               | None => n
               end
             else n) 0 (Actions gs) in
  let score2 := if negb (isActive gs playerID) then S score1 else score1 in
  if (aiRole ai =? Seer)
     && match KnownPlayers ai !! playerID with
        | Some role => isWolfRole role
        | None => false
        end
  then true
  else (2 <=? score2)%nat.

Definition countAlivePlayers (gs : GameState) : nat :=
  foldl (fun count player => if Alive player then S count else count) 0 (Players gs).

Definition isPopularVoteTarget (gs : GameState) (playerID : string) : bool :=
  let votes :=
    foldl (fun n action =>
             if (Type_ action =? "vote") && (TargetID action =? playerID)
             then S n else n) 0 (Actions gs) in
  (countAlivePlayers gs / 3 <=? votes)%nat.

Definition getLastKilledPlayer (gs : GameState) : string :=
  match find (fun action => Type_ action =? "kill") (Actions gs) with
  | Some action => TargetID action
  | None => ""
  end.

Definition isImportantPlayer (ai : t) (playerID : string) : bool :=
  match KnownPlayers ai !! playerID with
  | Some role => (role =? Seer) || (role =? Witch) || (role =? Guard)
  | None => false
  end.

Definition countSuspiciousPlayers (ai : t) (gs : GameState) : nat :=
  foldl (fun count player =>
           if Alive player && isSuspicious ai gs (ID player) then S count else count)
    0 (Players gs).

Definition shouldSavePlayer (ai : t) (gs : GameState) (playerID : string) : bool :=
  if negb (isImportantPlayer ai playerID) then false
  else (Round gs <=? 3)%Z || (countAlivePlayers gs <=? 6)%nat.

Definition shouldPoisonPlayer (ai : t) (gs : GameState) : bool :=
  (2 <? Round gs)%Z && (0 <? countSuspiciousPlayers ai gs)%nat.

Definition hasSavePotion (ai : t) (gs : GameState) : bool :=
  match Skills gs !! aiID ai with
  | Some skills => negb (Used (SavePotion skills))
  | None => false
  end.

Definition hasPoison (ai : t) (gs : GameState) : bool :=
  match Skills gs !! aiID ai with
  | Some skills => negb (Used (PoisonPotion skills))
  | None => false
  end.

(** The target of a selection: the identifier returned inside the loop,
    or a random one of [potentialTargets], or the empty string. *)
Definition selected (pick : nat → nat) (r : string + list string) : string :=
  match r with
  | inl id => id
  | inr potentialTargets =>
      if (0 <? length potentialTargets)%nat then choose pick potentialTargets
      else ""
  end.

Definition selectKillTarget (pick : nat → nat) (ai : t) (gs : GameState) : string :=
  let judge player :=
    if negb (Alive player) || (Role player =? Werewolf) || (Role player =? WhiteWolf)
    then Pass
    else if aiPersonality ai =? PersonalityAggressive then
      match KnownPlayers ai !! ID player with
      | Some role => if (role =? Seer) || (role =? Witch) then TakeNow else Pass
      | None => Pass
      end
    else if aiPersonality ai =? PersonalityCautious then
      match KnownPlayers ai !! ID player with
      | Some _ => Pass
      | None => Candidate
      end
    else if aiPersonality ai =? PersonalityStrategic then
      match KnownPlayers ai !! ID player with
      | Some role => if role =? Villager then Candidate else Pass
      | None => Pass
      end
    else if aiPersonality ai =? PersonalityRandom then Candidate
    else Pass in
  match scan judge (Players gs) [] with
  | inl id => id
  | inr potentialTargets =>
      if (0 <? length potentialTargets)%nat then choose pick potentialTargets
      else
        match find (fun player =>
                      Alive player && negb (Role player =? Werewolf)
                      && negb (Role player =? WhiteWolf)) (Players gs) with
        | Some player => ID player
        | None => ""
        end
  end.

Definition selectCheckTarget (pick : nat → nat) (ai : t) (gs : GameState) : string :=
  let judge player :=
    if negb (Alive player) || (ID player =? aiID ai)
       || negb (default "" (KnownPlayers ai !! ID player) =? "")
    then Pass
    else if aiPersonality ai =? PersonalityAggressive then
      if isSuspicious ai gs (ID player) then TakeNow else Pass
    else if aiPersonality ai =? PersonalityCautious then
      if negb (isActive gs (ID player)) then Candidate else Pass
    else Candidate in
  selected pick (scan judge (Players gs) []).

Definition selectPoisonTarget (pick : nat → nat) (ai : t) (gs : GameState) : string :=
  let judge player :=
    if negb (Alive player) || (ID player =? aiID ai) then Pass
    else if isSuspicious ai gs (ID player) then Candidate
    else Pass in
  selected pick (scan judge (Players gs) []).

Definition selectProtectTarget (pick : nat → nat) (ai : t) (gs : GameState) : string :=
  let judge player :=
    if negb (Alive player) || (ID player =? aiID ai) then Pass
    else if aiPersonality ai =? PersonalityStrategic then
      match KnownPlayers ai !! ID player with
      | Some role => if (role =? Seer) || (role =? Witch) then TakeNow else Pass
      | None => Pass
      end
    else Candidate in
  selected pick (scan judge (Players gs) []).

Definition selectVoteTarget (pick : nat → nat) (ai : t) (gs : GameState) : string :=
  let judge player :=
    if negb (Alive player) || (ID player =? aiID ai) then Pass
    else if aiPersonality ai =? PersonalityAggressive then
      if isSuspicious ai gs (ID player) then TakeNow else Pass
    else if aiPersonality ai =? PersonalityCautious then
      if isPopularVoteTarget gs (ID player) then TakeNow else Pass
    else Candidate in
  selected pick (scan judge (Players gs) []).

(** [decideWitchAction]; [coin] is the value of [rand.Float64() < 0.5]. *)
Definition decideWitchAction (pick : nat → nat) (coin : bool) (ai : t)
    (gs : GameState) : GameAction :=
  let action := mkAction "" (aiID ai) "" 0 "" "" in
  let killedPlayer := getLastKilledPlayer gs in
  let save := mkAction "save" (aiID ai) killedPlayer 0 "" "" in
  let poison := mkAction "poison" (aiID ai) (selectPoisonTarget pick ai gs) 0 "" "" in
  if aiPersonality ai =? PersonalityAggressive then
    if hasPoison ai gs && isSuspicious ai gs killedPlayer then poison
    else if hasSavePotion ai gs && isImportantPlayer ai killedPlayer then save
    else action
  else if aiPersonality ai =? PersonalityCautious then
    if hasSavePotion ai gs && isImportantPlayer ai killedPlayer then save
    else action
  else if aiPersonality ai =? PersonalityStrategic then
    if hasSavePotion ai gs && shouldSavePlayer ai gs killedPlayer then save
    else if hasPoison ai gs && shouldPoisonPlayer ai gs then poison
    else action
  else
    if coin && hasSavePotion ai gs && negb (killedPlayer =? "") then save
    else if hasPoison ai gs then poison
    else action.

(** The canned discussion lines, by role and personality. *)
Definition byPersonality (ai : t) (aggressive cautious strategic other : string)
  : string :=
  if aiPersonality ai =? PersonalityAggressive then aggressive
  else if aiPersonality ai =? PersonalityCautious then cautious
  else if aiPersonality ai =? PersonalityStrategic then strategic
  else other.

Definition generateWerewolfDiscussion (ai : t) : string :=
  byPersonality ai "我觉得有人在伪装预言家，我们应该投他"
    "大家要冷静分析，不要轻易相信任何人的发言"
    "我们应该先听听预言家的发言，再做判断" "昨晚的情况大家怎么看？".

Definition generateSeerDiscussion (ai : t) : string :=
  byPersonality ai "我是预言家，昨晚我查验了一个人，发现是狼人"
    "作为预言家，我建议大家要谨慎行动"
    "我有重要信息要分享，但现在说可能为时过早" "让我们一起分析一下目前的局势".

Definition generateWitchDiscussion (ai : t) : string :=
  byPersonality ai "我知道一些重要的信息，但需要大家配合"
    "我们要小心行事，不要轻易相信任何人"
    "让我们先听听大家的想法，再做决定" "昨晚发生了什么有趣的事情吗？".

Definition generateGuardDiscussion (ai : t) : string :=
  byPersonality ai "我们必须保护好重要的角色"
    "大家要注意安全，狼人可能会有突然袭击"
    "我觉得我们应该制定一个保护策略" "大家有什么需要帮助的吗？".

Definition generateVillagerDiscussion (ai : t) : string :=
  byPersonality ai "我觉得有人行为很可疑，应该仔细观察"
    "我们要相信预言家，但也要防止有人冒充"
    "让我们分析一下每个人的发言，找出线索" "大家对昨晚的情况有什么看法？".

Definition generateDiscussion (ai : t) : string :=
  if (aiRole ai =? Werewolf) || (aiRole ai =? WhiteWolf) then
    generateWerewolfDiscussion ai
  else if aiRole ai =? Seer then generateSeerDiscussion ai
  else if aiRole ai =? Witch then generateWitchDiscussion ai
  else if aiRole ai =? Guard then generateGuardDiscussion ai
  else generateVillagerDiscussion ai.

Definition decideNightAction (pick : nat → nat) (coin : bool) (ai : t)
    (gs : GameState) : GameAction :=
  if (aiRole ai =? Werewolf) || (aiRole ai =? WhiteWolf) then
    mkAction "kill" (aiID ai) (selectKillTarget pick ai gs) 0 "" ""
  else if aiRole ai =? Seer then
    mkAction "check" (aiID ai) (selectCheckTarget pick ai gs) 0 "" ""
  else if aiRole ai =? Witch then decideWitchAction pick coin ai gs
  else if aiRole ai =? Guard then
    mkAction "protect" (aiID ai) (selectProtectTarget pick ai gs) 0 "" ""
  else mkAction "" (aiID ai) "" 0 "" "".

Definition decideDayAction (ai : t) : GameAction :=
  mkAction "discuss" (aiID ai) "" 0 "" (generateDiscussion ai).

Definition decideVoteAction (pick : nat → nat) (ai : t) (gs : GameState) : GameAction :=
  mkAction "vote" (aiID ai) (selectVoteTarget pick ai gs) 0 "" "".

Definition DecideAction (pick : nat → nat) (coin : bool) (ai : t) (gs : GameState)
  : GameAction :=
  if Phase gs =? PhaseNight then decideNightAction pick coin ai gs
  else if Phase gs =? PhaseDay then decideDayAction ai
  else if Phase gs =? PhaseVote then decideVoteAction pick ai gs
  else mkAction "" "" "" 0 "" "".

End AI.

(** ** Specification-side vocabulary *)

(** Number of votes the log holds for target [t]. *)
Definition voteCount (t : string) (log : list GameAction) : nat :=
  length (List.filter (fun a => (Type_ a =? "vote") && (TargetID a =? t)) log).

(** Alive flag of the participant [id] (the first roster entry of that
    identifier), if there is one. *)
Definition aliveOf (players : list Player) (id : string) : option bool :=
  Alive <$> findPlayer players id.

(** Night resolution, in the words of its description: the effect of one
    logged action on the roster, the two kinds of action the two passes
    select, and the alive flag a participant ends the night with. *)
Definition applyEffect (players : list Player) (a : GameAction) : list Player :=
  setAlive (TargetID a) (Type_ a =? "save") players.

Definition isKill (a : GameAction) : bool := Type_ a =? "kill".

Definition isPotion (a : GameAction) : bool :=
  (Type_ a =? "save") || (Type_ a =? "poison").

Definition nightOutcome (log : list GameAction) (p : string) (before : bool) : bool :=
  match last (List.filter (fun a => isPotion a && (TargetID a =? p)) log) with
  | Some a => Type_ a =? "save"
  | None =>
      if existsb (fun a => isKill a && (TargetID a =? p)) log then false else before
  end.

(** Faction counts over the living roster. *)
Definition isWolf (p : Player) : bool :=
  (Role p =? Werewolf) || (Role p =? WhiteWolf).

Definition living (sel : Player → bool) (players : list Player) : nat :=
  length (List.filter (fun p => Alive p && sel p) players).

Definition livingAll : list Player → nat := living (fun _ => true).
Definition livingWolves : list Player → nat := living isWolf.
Definition livingVillage : list Player → nat := living (fun p => negb (isWolf p)).
Definition livingWhiteWolves : list Player → nat :=
  living (fun p => Role p =? WhiteWolf).
Definition livingLovers : list Player → nat := living IsLover.

Definition addCounts (c d : endCounts) : endCounts :=
  mkEndCounts (werewolfCount c + werewolfCount d) (villagerCount c + villagerCount d)
    (whiteWolfCount c + whiteWolfCount d) (loversAlive c + loversAlive d)
    (loversWolfCount c + loversWolfCount d)
    (loversVillagerCount c + loversVillagerCount d).

Definition livingCounts (players : list Player) : endCounts :=
  mkEndCounts (livingWolves players) (livingVillage players)
    (livingWhiteWolves players) (livingLovers players)
    (living (fun p => IsLover p && isWolf p) players)
    (living (fun p => IsLover p && negb (isWolf p)) players).

(** The phase cycle, and the calls that move a session along it: a call
    of [TransitionPhase] (with any traversal order of the tally and any
    status) or of [checkAndUpdatePhase]. *)
Definition phaseCycle : list (string * string) :=
  [(PhaseNight, PhaseDay); (PhaseDay, PhaseVote); (PhaseVote, PhaseNight)].

Inductive phase_step : GameState → GameState → Prop :=
| step_TransitionPhase f sm :
    phase_step (game sm) (game (TransitionPhase f sm).1)
| step_checkAndUpdatePhase g :
    phase_step g (checkAndUpdatePhase g).

Inductive phase_steps : nat → GameState → GameState → Prop :=
| steps_done g : phase_steps 0 g g
| steps_next n g1 g2 g3 :
    phase_step g1 g2 → phase_steps n g2 g3 → phase_steps (S n) g1 g3.

(** What one call does to the phase and the round: nothing, or one move
    along the cycle, the round going up by one on the move from vote to
    night and on no other. *)
Definition cycle_move (g g' : GameState) : Prop :=
  (Phase g' = Phase g ∧ Round g' = Round g) ∨
  (Phase g = PhaseNight ∧ Phase g' = PhaseDay ∧ Round g' = Round g) ∨
  (Phase g = PhaseDay ∧ Phase g' = PhaseVote ∧ Round g' = Round g) ∨
  (Phase g = PhaseVote ∧ Phase g' = PhaseNight ∧ Round g' = wrap_int (Round g + 1)).

(** The tally entry of a target after [n] more votes for it. *)
Definition bump (o : option nat) (n : nat) : option nat :=
  match n with
  | O => o
  | S _ => Some (default 0 o + n)
  end.

(** ** Sample sessions *)

Definition player (id role : string) (alive lover : bool) : Player :=
  mkPlayer id id HumanPlayer role "" alive lover.

Definition act (kind actor target : string) : GameAction :=
  mkAction kind actor target 0 "" "".

Definition session (players : list Player) (phase : string) (log : list GameAction)
  : GameState :=
  mkGameState "room" players phase 1 log 120 true ∅.

(** Seven living participants; votes A:3, B:2, C:2. *)
Definition seven : list Player :=
  [player "A" Villager true false; player "B" Werewolf true false;
   player "C" Seer true false; player "D" Villager true false;
   player "E" Villager true false; player "F" Witch true false;
   player "G" Werewolf true false].

Definition plurality_game : GameState :=
  session seven PhaseVote
    [act "vote" "B" "A"; act "vote" "A" "B"; act "vote" "C" "A";
     act "vote" "D" "C"; act "vote" "E" "B"; act "vote" "F" "C";
     act "vote" "G" "A"].

(** Four living participants; votes A:2, B:2 and no other vote. *)
Definition four : list Player :=
  [player "A" Villager true false; player "B" Werewolf true false;
   player "C" Seer true false; player "D" Villager true false].

Definition tie_game : GameState :=
  session four PhaseVote
    [act "vote" "B" "A"; act "vote" "A" "B"; act "vote" "C" "A";
     act "vote" "D" "B"].

(** A witch, a wolf, a living villager and a villager who died in an
    earlier round; the log holds the witch's save on the dead one. *)
Definition graveyard : list Player :=
  [player "W" Witch true false; player "V" Werewolf true false;
   player "Y" Villager true false; player "X" Villager false false].

Definition revive_game : GameState :=
  session graveyard PhaseNight [act "save" "W" "X"].

(** Two living lovers, a wolf and a villager, and nobody else alive. *)
Definition lovers_game : GameState :=
  session
    [player "R" Werewolf true true; player "J" Villager true true;
     player "S" Seer false false; player "V" Villager false false]
    PhaseNight [].

(** A night with two wolves, a seer who has not checked yet, and two
    villagers. *)
Definition pack : list Player :=
  [player "V" Werewolf true false; player "U" WhiteWolf true false;
   player "S" Seer true false; player "Y" Villager true false;
   player "Z" Villager true false].

Definition night_game : GameState := session pack PhaseNight [].


(** One wolf and two villagers, all votes cast: in [wolf_vote] a villager
    is voted out and the wolf reaches parity, in [village_vote] the wolf is
    voted out. *)
Definition trio : list Player :=
  [player "W" Werewolf true false; player "A" Villager true false;
   player "B" Villager true false].

Definition wolf_vote : GameState :=
  session trio PhaseVote
    [act "vote" "W" "A"; act "vote" "B" "A"; act "vote" "A" "W"].

Definition village_vote : GameState :=
  session trio PhaseVote
    [act "vote" "W" "A"; act "vote" "B" "W"; act "vote" "A" "W"].

(** A witch with the ledger entry [initializeSkills] makes, and one whose
    entry has both potions marked used. *)
Definition fresh_ledger : GameState :=
  mkGameState "room" graveyard PhaseNight 1 [] 120 true
    {[ "W" := mkWitchSkills (mkSkillStatus false "") (mkSkillStatus false "") ]}.

Definition spent_ledger : GameState :=
  mkGameState "room" graveyard PhaseNight 1 [] 120 true
    {[ "W" := mkWitchSkills (mkSkillStatus true "Y") (mkSkillStatus true "V") ]}.

(** A wolf's kill on a villager, submitted to the controller while the
    seer has not acted, and a discussion line without target. *)
Definition kill_submission : StateMachine * outcome :=
  GameController.ProcessAction map_to_list 7 (NewStateMachine night_game)
    (act "kill" "V" "Y").

Definition discuss_submission : StateMachine * outcome :=
  GameController.ProcessAction map_to_list 7
    (NewStateMachine (session seven PhaseDay [])) (act "discuss" "A" "").

(** The seven with an eighth participant whose identifier is empty, and
    the same discussion line sent to the controller of their day. *)
Definition seven_and_blank : list Player :=
  (seven ++ [player "" Villager true false])%list.

Definition blank_submission : StateMachine * outcome :=
  GameController.ProcessAction map_to_list 7
    (NewStateMachine (session seven_and_blank PhaseDay [])) (act "discuss" "A" "").

(** The witch uses the save potion twice in a row, and once with a ledger
    that says it is used. *)
Definition first_save : GameState * option error :=
  UseWitchSkill fresh_ledger "W" "Y" "save".

Definition second_save : GameState * option error :=
  UseWitchSkill first_save.1 "W" "Y" "save".

Definition spent_save : GameState * option error :=
  UseWitchSkill spent_ledger "W" "Y" "save".






(** The votes of [village_vote] and [wolf_vote] are resolved and a win is
    declared; then the machine is asked to move again, directly and by an
    action sent to the controller. *)
Definition village_won : StateMachine * option error :=
  TransitionPhase map_to_list (NewStateMachine village_vote).

Definition village_after : StateMachine * option error :=
  TransitionPhase map_to_list village_won.1.

Definition wolf_won : StateMachine * option error :=
  TransitionPhase map_to_list (NewStateMachine wolf_vote).

Definition wolf_after : StateMachine * outcome :=
  GameController.ProcessAction map_to_list 7 wolf_won.1 (act "kill" "W" "B").

(** The modes [generateRoles] knows, and how many roles of a list a
    predicate selects. *)
Definition knownMode (mode : string) : bool :=
  (mode =? ClassicMode) || (mode =? StandardMode) || (mode =? ExtendedMode).

Definition countRoles (sel : string → bool) (roles : list string) : nat :=
  length (List.filter sel roles).

(** What a participant keeps through role assignment: everything but the
    role and the alive flag. *)
Definition seat (p : Player) : string * string * string * string * bool :=
  (ID p, Name p, PlayerType p, Personality p, IsLover p).

(** Five participants to be dealt the classic roles, and the room they sit
    in. *)
Definition five : list Player :=
  [player "A" "" false false; player "B" "" false true;
   player "C" "" false false; player "D" "" true false;
   player "E" "" false false].

Definition classic_room : Room := mkRoom "room" "den" ClassicMode five 8 5 false 0.

Definition lobby : GameState := NewGameState classic_room.

(** The night actions one roster entry contributes to
    [getAvailableActions]. *)
Definition nightActionsOf (player : Player) : list string :=
  if negb (Alive player) then []
  else if (Role player =? Werewolf) || (Role player =? WhiteWolf) then ["kill"]
  else if Role player =? Seer then ["check"]
  else if Role player =? Witch then ["save"; "poison"]
  else if Role player =? Guard then ["protect"]
  else [].

(** Two rosters with the same participants in the same seats, alive flags
    apart. *)
Definition sameRoster (players players' : list Player) : Prop :=
  map (set_Alive true) players' = map (set_Alive true) players.

(** The first roster entry of identifier [id] holds role [role]. *)
Definition holdsRole (gs : GameState) (id role : string) : bool :=
  match findPlayer (Players gs) id with
  | Some p => Role p =? role
  | None => false
  end.

(** A dead seer, a hunter and a guard among living villagers. *)
Definition specialists : list Player :=
  [player "S" Seer false false; player "H" Hunter true false;
   player "G" Guard true false; player "Y" Villager true false;
   player "V" Werewolf true false].

(** Every room of the manager has pairwise distinct participant
    identifiers and no more participants than its maximum. *)
Definition rooms_in_order (rm : RoomManager) : Prop :=
  ∀ id room, rooms rm !! id = Some room →
    NoDup (map ID (Members room)) ∧
    (Z.of_nat (length (Members room)) ≤ MaxPlayers room)%Z.

(** A manager with one room of two seats, one of them taken. *)
Definition den : Room :=
  mkRoom "den" "den" ClassicMode [player "A" Villager true false] 2 1 false 0.

Definition one_room : RoomManager :=
  mkRoomManager {[ "den" := den ]}
    {[ "den" := NewStateMachine (NewGameState den) ]}.

(** [rand.Intn(n)] is below [n] for a positive [n]. *)
Definition legal_pick (pick : nat → nat) : Prop :=
  ∀ n, (0 < n)%nat → (pick n < n)%nat.

(** A synthetic wolf, seer and villager of [pack] with no knowledge. *)
Definition robot (id role personality : string) : AI.t := AI.mk id personality role ∅.

(** * Basic facts *)

(** Closed statements about the sample sessions are settled by running the
    embedded code. *)
Ltac by_running := repeat split; vm_compute; reflexivity.


Lemma setAlive_length id b ps : length (setAlive id b ps) = length ps.
Proof.
  induction ps as [|p ps IH]; simpl; [done|].
  destruct (ID p =? id); simpl; congruence.
Qed.

Lemma setAlive_IDs id b ps : map ID (setAlive id b ps) = map ID ps.
Proof.
  induction ps as [|p ps IH]; simpl; [done|].
  destruct (ID p =? id); simpl; congruence.
Qed.

Lemma findPlayer_setAlive id b ps q :
  findPlayer (setAlive id b ps) q =
  if id =? q then set_Alive b <$> findPlayer ps q else findPlayer ps q.
Proof.
  unfold findPlayer. induction ps as [|p ps IH]; simpl.
  - by destruct (id =? q).
  - destruct (String.eqb_spec (ID p) id) as [Hid|Hid]; simpl.
    + destruct (String.eqb_spec id q) as [Hq|Hq]; simpl.
      * rewrite Hid, Hq, String.eqb_refl. done.
      * rewrite Hid. apply String.eqb_neq in Hq. rewrite Hq. done.
    + destruct (String.eqb_spec (ID p) q) as [Hp|Hp]; simpl.
      * destruct (String.eqb_spec id q) as [Hq|Hq]; [congruence|done].
      * exact IH.
Qed.

Lemma aliveOf_setAlive id b ps q :
  aliveOf (setAlive id b ps) q =
  if id =? q then (fun _ => b) <$> aliveOf ps q else aliveOf ps q.
Proof.
  unfold aliveOf. rewrite findPlayer_setAlive.
  destruct (id =? q); [|done]. by destruct (findPlayer ps q).
Qed.

(** * Vote resolution *)

Lemma countVotes_acc log : ∀ (m : gmap string nat) t,
  foldl
    (fun votes action =>
       if Type_ action =? "vote" then
         <[TargetID action := S (default 0 (votes !! TargetID action))]> votes
       else votes) m log !! t
  = bump (m !! t) (voteCount t log).
Proof.
  unfold voteCount.
  induction log as [|a log IH]; intros m t; simpl; [done|].
  rewrite IH. destruct (Type_ a =? "vote"); simpl; [|done].
  destruct (String.eqb_spec (TargetID a) t) as [->|Hne]; simpl.
  - rewrite lookup_insert_eq. simpl.
    destruct (length _); simpl; f_equal; lia.
  - by rewrite lookup_insert_ne.
Qed.

Lemma countVotes_lookup log t :
  countVotes log !! t = bump None (voteCount t log).
Proof. unfold countVotes. rewrite countVotes_acc. by rewrite lookup_empty. Qed.

Lemma countVotes_Some log t c :
  countVotes log !! t = Some c ↔ c = voteCount t log ∧ (0 < c)%nat.
Proof.
  rewrite countVotes_lookup. destruct (voteCount t log) eqn:E; simpl.
  - split; [done|]. intros [-> ?]. lia.
  - split; [intros [= <-]; split; [done|lia] | intros [-> _]; done].
Qed.

Lemma foldl_pickMax_spec (l : list (string * nat)) : ∀ m e,
  let r := foldl pickMax (m, e) l in
  (∀ k c, (k, c) ∈ l → (c ≤ r.1)%nat) ∧ (m ≤ r.1)%nat ∧
  (r = (m, e) ∨ ((r.2, r.1) ∈ l ∧ (m < r.1)%nat)).
Proof.
  induction l as [|[k c] l IH]; intros m e; simpl.
  - split; [|split; [lia|by left]]. intros k c H. by apply elem_of_nil in H.
  - destruct (Nat.ltb_spec m c) as [Hlt|Hge].
    + destruct (IH c k) as (Hmax & Hle & Hr). split; [|split; [lia|]].
      * intros k' c' [[= -> ->]|Hin]%elem_of_cons; eauto.
      * right. destruct Hr as [->|[Hin Hlt']]; simpl.
        -- split; [apply elem_of_cons; by left|done].
        -- split; [apply elem_of_cons; by right|lia].
    + destruct (IH m e) as (Hmax & Hle & Hr). split; [|split; [lia|]].
      * intros k' c' [[= -> ->]|Hin]%elem_of_cons; [lia|eauto].
      * destruct Hr as [->|[Hin Hlt']]; [by left|right].
        split; [apply elem_of_cons; by right|lia].
Qed.

Lemma processVoteResults_frame f g :
  Actions (processVoteResults f g) = [] ∧
  Phase (processVoteResults f g) = Phase g ∧
  Round (processVoteResults f g) = Round g.
Proof.
  unfold processVoteResults.
  destruct (foldl pickMax _ _) as [mx e]. destruct (negb (e =? "")); done.
Qed.

Section vote_resolution.

(** The order in which [range votes] visits the tally: any legal one. *)
Variable range_order : gmap string nat → list (string * nat).
Hypothesis range_order_legal : legal_range_order range_order.

(** The loop over the tally ends on an entry of maximal count, whatever
    the order of the visit. *)
Lemma pickMax_range (votes : gmap string nat) :
  let r := foldl pickMax (0, "") (range_order votes) in
  (∀ k c, votes !! k = Some c → (c ≤ r.1)%nat) ∧
  (r = (0, "") ∨ (votes !! r.2 = Some r.1 ∧ (0 < r.1)%nat)).
Proof.
  intros r.
  destruct (foldl_pickMax_spec (range_order votes) 0 "") as (Hmax & _ & Hr).
  fold r in Hmax, Hr. split.
  - intros k c Hk. apply (Hmax k). rewrite (range_order_legal votes).
    by apply elem_of_map_to_list.
  - destruct Hr as [?|[Hin ?]]; [by left|right]. split; [|done].
    rewrite (range_order_legal votes) in Hin. by apply elem_of_map_to_list in Hin.
Qed.

(** The participant marked dead by the vote resolution is a target of
    maximal count (nobody when the log has no vote or that target is the
    empty identifier). *)
Lemma processVoteResults_eliminates g :
  ∃ t, (∀ t', (voteCount t' (Actions g) ≤ voteCount t (Actions g))%nat) ∧
       Players (processVoteResults range_order g) =
       if (t =? "") || (voteCount t (Actions g) =? 0)%nat then Players g
       else setAlive t false (Players g).
Proof.
  unfold processVoteResults.
  destruct (pickMax_range (countVotes (Actions g))) as [Hmax Hr].
  destruct (foldl pickMax (0, "") (range_order (countVotes (Actions g))))
    as [mx e] eqn:E.
  simpl in Hmax, Hr.
  assert (Hbound : ∀ t', (voteCount t' (Actions g) ≤ mx)%nat).
  { intros t'. destruct (voteCount t' (Actions g)) as [|n] eqn:Ht'; [lia|].
    rewrite <- Ht'. apply (Hmax t'). apply countVotes_Some. split; [done|lia]. }
  destruct Hr as [[= -> ->]|[Hk Hpos]].
  - exists "". split; [intros t'; specialize (Hbound t'); lia|]. done.
  - apply countVotes_Some in Hk as [-> _]. exists e. split; [exact Hbound|].
    destruct (e =? "") eqn:He; simpl; [done|].
    destruct (Nat.eqb_spec (voteCount e (Actions g)) 0); [lia|done].
Qed.

Lemma processVoteResults_unique_max g t :
  t ≠ "" →
  (∀ t', t' ≠ t → (voteCount t' (Actions g) < voteCount t (Actions g))%nat) →
  Players (processVoteResults range_order g) = setAlive t false (Players g).
Proof.
  intros Ht Huniq.
  destruct (processVoteResults_eliminates g) as (e & Hmax & ->).
  assert (e = t) as ->.
  { destruct (String.eqb_spec e t) as [|Hne]; [done|].
    specialize (Huniq e Hne). specialize (Hmax t). lia. }
  assert (Hne : "" ≠ t) by congruence. specialize (Huniq "" Hne).
  apply String.eqb_neq in Ht as ->. simpl.
  destruct (Nat.eqb_spec (voteCount t (Actions g)) 0); [lia|done].
Qed.

(** C1 (amended): vote resolution tallies the votes by target identifier and
    empties the log; when one target has the strictly highest count, that
    target is marked dead; in every case the participant marked dead is a
    target of maximal count, so on a tie one of the tied targets is
    eliminated, the one the traversal of the tally meets first. *)
Theorem vote_resolution_plurality g :
  Actions (processVoteResults range_order g) = [] ∧
  (∀ t, t ≠ "" →
     (∀ t', t' ≠ t → (voteCount t' (Actions g) < voteCount t (Actions g))%nat) →
     Players (processVoteResults range_order g) = setAlive t false (Players g)) ∧
  (∃ t, (∀ t', (voteCount t' (Actions g) ≤ voteCount t (Actions g))%nat) ∧
        Players (processVoteResults range_order g) =
        if (t =? "") || (voteCount t (Actions g) =? 0)%nat then Players g
        else setAlive t false (Players g)).
Proof.
  split; [apply processVoteResults_frame|]. split.
  - intros t Ht Huniq. by apply processVoteResults_unique_max.
  - apply processVoteResults_eliminates.
Qed.

End vote_resolution.

Lemma legal_map_to_list : legal_range_order map_to_list.
Proof. intros m. reflexivity. Qed.

Lemma plurality_counts t :
  t ≠ "A" →
  (voteCount t (Actions plurality_game) < voteCount "A" (Actions plurality_game))%nat.
Proof.
  intros Ht. unfold voteCount, plurality_game, session, act.
  cbn [Actions List.filter Type_ TargetID].
  destruct (String.eqb_spec "A" t); [congruence|].
  destruct (String.eqb_spec "B" t); destruct (String.eqb_spec "C" t);
    subst; simpl; try lia; congruence.
Qed.

Lemma tie_counts t :
  (voteCount t (Actions tie_game) ≤ 2)%nat ∧
  (voteCount t (Actions tie_game) = 2 → t = "A" ∨ t = "B").
Proof.
  unfold voteCount, tie_game, session, act.
  cbn [Actions List.filter Type_ TargetID].
  destruct (String.eqb_spec "A" t); destruct (String.eqb_spec "B" t);
    subst; simpl; split; try lia; try congruence; auto.
Qed.

(** The theorem at [plurality_game], visited in the order of [map_to_list]. *)
Lemma vote_resolution_plurality_witness :
  Players (processVoteResults map_to_list plurality_game)
  = setAlive "A" false (Players plurality_game).
Proof.
  apply (proj1 (proj2 (vote_resolution_plurality map_to_list legal_map_to_list
                         plurality_game)) "A").
  - discriminate.
  - intros t' Ht'. apply plurality_counts. exact Ht'.
Defined.

(** With votes A:3, B:2, C:2 among seven living participants, A is
    eliminated and nobody else, whatever the order of the visit. *)
Example plurality_A_eliminated f :
  legal_range_order f →
  aliveOf (Players (processVoteResults f plurality_game)) "A" = Some false ∧
  ∀ t, t ≠ "A" →
    aliveOf (Players (processVoteResults f plurality_game)) t
    = aliveOf (Players plurality_game) t.
Proof.
  intros Hf.
  rewrite (processVoteResults_unique_max f Hf plurality_game "A");
    [|discriminate|intros t' Ht'; by apply plurality_counts].
  split; [reflexivity|]. intros t Ht. rewrite aliveOf_setAlive.
  destruct (String.eqb_spec "A" t); [congruence|done].
Qed.

(** C1 (counterexample): with votes A:2, B:2 and no other vote, every legal
    order of the visit leaves one of A and B dead. *)
Lemma vote_tie_eliminates :
  voteCount "A" (Actions tie_game) = 2 ∧
  voteCount "B" (Actions tie_game) = 2 ∧
  (∀ t, (voteCount t (Actions tie_game) ≤ 2)%nat) ∧
  aliveOf (Players (processVoteResults map_to_list tie_game)) "A" = Some false ∧
  (∀ f, legal_range_order f →
     ∃ t, (t = "A" ∨ t = "B") ∧
          aliveOf (Players tie_game) t = Some true ∧
          aliveOf (Players (processVoteResults f tie_game)) t = Some false).
Proof.
  split; [reflexivity|]. split; [reflexivity|].
  split; [intros t; apply tie_counts|]. split; [vm_compute; reflexivity|].
  intros f Hf.
  destruct (processVoteResults_eliminates f Hf tie_game) as (t & Hmax & ->).
  assert (Ht : voteCount t (Actions tie_game) = 2).
  { pose proof (proj1 (tie_counts t)). specialize (Hmax "A").
    change (voteCount "A" (Actions tie_game)) with 2 in Hmax. lia. }
  rewrite Ht. exists t.
  destruct (proj2 (tie_counts t) Ht) as [->| ->]; (split; [auto|]);
    split; reflexivity.
Qed.

(** * Night resolution *)

Lemma processActionResult_effect g a :
  isKill a || isPotion a = true →
  processActionResult g a = set_Players (applyEffect (Players g) a) g.
Proof.
  unfold processActionResult, applyEffect, isKill, isPotion.
  destruct (String.eqb_spec (Type_ a) "kill") as [->|_]; simpl; [done|].
  by intros ->.
Qed.

Lemma foldl_pass (sel : GameAction → bool) log : ∀ g,
  (∀ a, sel a = true → isKill a || isPotion a = true) →
  foldl (fun acc a => if sel a then processActionResult acc a else acc) g log
  = set_Players (foldl applyEffect (Players g) (List.filter sel log)) g.
Proof.
  induction log as [|a log IH]; intros g Hsel; simpl.
  - by destruct g.
  - destruct (sel a) eqn:Ha; simpl; [|by apply IH].
    rewrite IH by done. rewrite processActionResult_effect by auto. done.
Qed.

Lemma processNightResults_passes g :
  processNightResults g
  = set_Actions []
      (set_Players
         (foldl applyEffect (Players g)
            (List.filter isKill (Actions g) ++ List.filter isPotion (Actions g)))
         g).
Proof.
  unfold processNightResults.
  rewrite (foldl_pass isKill) by (intros a ->; done).
  rewrite (foldl_pass isPotion) by (intros a ->; apply orb_true_r).
  rewrite foldl_app. done.
Qed.

Lemma aliveOf_kills log p : ∀ players,
  aliveOf (foldl applyEffect players (List.filter isKill log)) p
  = (fun b => if existsb (fun a => isKill a && (TargetID a =? p)) log
              then false else b) <$> aliveOf players p.
Proof.
  induction log as [|a log IH]; intros players; simpl.
  - by destruct (aliveOf players p).
  - destruct (isKill a) eqn:Ha; simpl; [|apply IH].
    rewrite IH. unfold applyEffect. rewrite aliveOf_setAlive.
    unfold isKill in Ha. apply String.eqb_eq in Ha. rewrite Ha. simpl.
    destruct (TargetID a =? p); simpl; [|done].
    destruct (aliveOf players p); simpl; [|done].
    by destruct (existsb _ log).
Qed.

Lemma aliveOf_potions log p : ∀ players,
  aliveOf (foldl applyEffect players (List.filter isPotion log)) p
  = (fun b =>
       match last (List.filter (fun a => isPotion a && (TargetID a =? p)) log) with
       | Some a => Type_ a =? "save"
       | None => b
       end) <$> aliveOf players p.
Proof.
  induction log as [|a log IH]; intros players; simpl.
  - by destruct (aliveOf players p).
  - destruct (isPotion a) eqn:Ha; simpl; [|apply IH].
    rewrite IH. unfold applyEffect. rewrite aliveOf_setAlive.
    destruct (TargetID a =? p); simpl; [|done].
    destruct (aliveOf players p); simpl; [|done].
    rewrite last_cons. by destruct (last (List.filter _ log)).
Qed.

Lemma aliveOf_night g p :
  aliveOf (Players (processNightResults g)) p
  = nightOutcome (Actions g) p <$> aliveOf (Players g) p.
Proof.
  rewrite processNightResults_passes. simpl. rewrite foldl_app.
  rewrite aliveOf_potions, aliveOf_kills. unfold nightOutcome.
  destruct (aliveOf (Players g) p); simpl; [|done].
  by destruct (last _).
Qed.

(** C3 (amended): night resolution applies every kill of the log in
    submission order, then every save and poison in submission order, and
    leaves an empty log.  A kill or a poison marks its target dead and a save
    marks its target alive, each unconditionally: a participant targeted by a
    potion ends as the last such potion says (alive after a save, also when
    no kill of this pass had hit them), and otherwise dead if some kill of the
    log targets them and unchanged if none does. *)
Theorem night_resolution g :
  Actions (processNightResults g) = [] ∧
  Phase (processNightResults g) = Phase g ∧
  Round (processNightResults g) = Round g ∧
  Players (processNightResults g)
  = foldl applyEffect (Players g)
      (List.filter isKill (Actions g) ++ List.filter isPotion (Actions g)) ∧
  (∀ p, aliveOf (Players (processNightResults g)) p
        = nightOutcome (Actions g) p <$> aliveOf (Players g) p).
Proof.
  split; [by rewrite processNightResults_passes|].
  split; [by rewrite processNightResults_passes|].
  split; [by rewrite processNightResults_passes|].
  split; [by rewrite processNightResults_passes|].
  apply aliveOf_night.
Qed.

(** C3 (counterexample): X died in an earlier round and no kill of this
    night targets X; the witch's save, recorded by the skill manager, is in
    the log, and night resolution sets X alive. *)
Lemma night_save_revives :
  UseWitchSkill (session graveyard PhaseNight []) "W" "X" "save"
  = (revive_game, None) ∧
  existsb (fun a => isKill a && (TargetID a =? "X")) (Actions revive_game) = false ∧
  aliveOf (Players revive_game) "X" = Some false ∧
  aliveOf (Players (processNightResults revive_game)) "X" = Some true.
Proof. by_running. Qed.

(** * Game-end evaluation *)

Lemma countPlayer_add c p :
  countPlayer c p = addCounts c (livingCounts [p]).
Proof.
  unfold countPlayer, livingCounts, livingWolves, livingVillage,
    livingWhiteWolves, livingLovers, living, isWolf, addCounts.
  destruct c as [w v ww l lw lv]. simpl.
  destruct (Alive p); simpl; [|f_equal; lia].
  destruct (String.eqb_spec (Role p) WhiteWolf) as [Hw|Hw];
    destruct (String.eqb_spec (Role p) Werewolf) as [Hv|Hv];
    [rewrite Hw in Hv; discriminate| | |];
    destruct (IsLover p); simpl; f_equal; lia.
Qed.

Lemma livingCounts_cons p ps :
  livingCounts (p :: ps) = addCounts (livingCounts [p]) (livingCounts ps).
Proof.
  unfold livingCounts, livingWolves, livingVillage, livingWhiteWolves,
    livingLovers, living, addCounts. simpl.
  destruct (Alive p); simpl; [|done].
  destruct (IsLover p), (isWolf p), (Role p =? WhiteWolf); simpl; done.
Qed.

Lemma addCounts_assoc c d e :
  addCounts (addCounts c d) e = addCounts c (addCounts d e).
Proof. unfold addCounts. simpl. f_equal; lia. Qed.

Lemma foldl_countPlayer ps : ∀ c,
  foldl countPlayer c ps = addCounts c (livingCounts ps).
Proof.
  induction ps as [|p ps IH]; intros c; simpl.
  - destruct c. change (livingCounts []) with (mkEndCounts 0 0 0 0 0 0).
    unfold addCounts. simpl. f_equal; lia.
  - rewrite IH, countPlayer_add, addCounts_assoc, <- livingCounts_cons. done.
Qed.

Lemma countLiving_spec ps : countLiving ps = livingCounts ps.
Proof. unfold countLiving. rewrite foldl_countPlayer. by destruct (livingCounts ps). Qed.

Lemma livingAll_split ps : livingAll ps = (livingWolves ps + livingVillage ps)%nat.
Proof.
  unfold livingAll, livingWolves, livingVillage, living.
  induction ps as [|p ps IH]; simpl; [done|].
  destruct (Alive p), (isWolf p); simpl; lia.
Qed.

Lemma living_cons sel p ps :
  living sel (p :: ps)
  = ((if Alive p && sel p then 1 else 0) + living sel ps)%nat.
Proof. unfold living. simpl. by destruct (Alive p && sel p). Qed.

Lemma livingLovers_all ps :
  forallb (fun p => implb (Alive p) (IsLover p)) ps = true →
  livingLovers ps = livingAll ps.
Proof.
  unfold livingLovers, livingAll.
  induction ps as [|p ps IH]; simpl; intros H; [done|].
  apply andb_prop in H as [Hp H].
  rewrite !living_cons, IH by done.
  destruct (Alive p); simpl; [|done]. simpl in Hp. by rewrite Hp.
Qed.

Lemma checkGameEnd_game sm : game (checkGameEnd sm).1 = game sm.
Proof.
  unfold checkGameEnd.
  repeat match goal with |- context [if ?b then _ else _] => destruct b end; done.
Qed.

(** The status [checkGameEnd] declares, condition by condition, in the
    order of the checks. *)
Lemma checkGameEnd_status sm :
  let ps := Players (game sm) in
  status (checkGameEnd sm).1 =
  if decide (livingLovers ps = 2 ∧ livingAll ps = 2) then LoversWin
  else if decide (livingWhiteWolves ps = 1 ∧ livingWolves ps = 1
                  ∧ livingVillage ps = 0) then WhiteWolfWin
  else if decide (livingWolves ps = 0) then VillagerWin
  else if decide (livingVillage ps ≤ livingWolves ps)%nat then WerewolfWin
  else GameOngoing.
Proof.
  intros ps. unfold checkGameEnd. rewrite countLiving_spec. fold ps.
  rewrite (livingAll_split ps). unfold livingCounts. simpl.
  destruct (Nat.eqb_spec (livingLovers ps) 2);
    destruct (Nat.eqb_spec (livingLovers ps) (livingVillage ps + livingWolves ps));
    destruct (Nat.eqb_spec (livingWhiteWolves ps) 1);
    destruct (Nat.eqb_spec (livingWolves ps) 1);
    destruct (Nat.eqb_spec (livingVillage ps) 0);
    destruct (Nat.eqb_spec (livingWolves ps) 0);
    destruct (Nat.leb_spec (livingVillage ps) (livingWolves ps));
    simpl; repeat case_decide; try reflexivity; exfalso; lia.
Qed.

Lemma checkGameEnd_error sm :
  (checkGameEnd sm).2 =
  if status (checkGameEnd sm).1 =? LoversWin then Some errLoversWinMsg
  else if status (checkGameEnd sm).1 =? WhiteWolfWin then Some errWhiteWolfWinMsg
  else if status (checkGameEnd sm).1 =? VillagerWin then Some errVillagerWinMsg
  else if status (checkGameEnd sm).1 =? WerewolfWin then Some errWerewolfWinMsg
  else None.
Proof.
  unfold checkGameEnd.
  repeat match goal with
         | |- context [if ?b then (_, _) else _] => destruct b
         end; reflexivity.
Qed.

(** C4: game-end evaluation checks the win conditions in precedence order,
    lover win first: when exactly two participants are alive and both are
    flagged lovers the outcome is lover win, whatever the faction counts;
    village win is declared only with no living wolf-aligned participant;
    and, no higher-precedence outcome applying (lover win, awakened-wolf solo
    win, village win), wolf win is declared exactly when the living
    wolf-aligned count is at least the living village-aligned count. *)
Theorem game_end_precedence sm :
  let ps := Players (game sm) in
  (livingAll ps = 2 →
   forallb (fun p => implb (Alive p) (IsLover p)) ps = true →
   status (checkGameEnd sm).1 = LoversWin ∧
   (checkGameEnd sm).2 = Some errLoversWinMsg) ∧
  (status (checkGameEnd sm).1 = VillagerWin → livingWolves ps = 0) ∧
  (status (checkGameEnd sm).1 = WerewolfWin ↔
   ¬ (livingLovers ps = 2 ∧ livingAll ps = 2) ∧
   ¬ (livingWhiteWolves ps = 1 ∧ livingWolves ps = 1 ∧ livingVillage ps = 0) ∧
   livingWolves ps ≠ 0 ∧
   (livingVillage ps ≤ livingWolves ps)%nat).
Proof.
  intros ps. pose proof (checkGameEnd_status sm) as Hs. fold ps in Hs. simpl in Hs.
  split; [|split].
  - intros Hall Hlov. apply livingLovers_all in Hlov.
    assert (Hst : status (checkGameEnd sm).1 = LoversWin).
    { rewrite Hs. fold ps in Hlov. case_decide as Hc; [done|]. exfalso. lia. }
    split; [done|]. rewrite checkGameEnd_error, Hst. reflexivity.
  - rewrite Hs. repeat case_decide; try discriminate. done.
  - rewrite Hs. repeat case_decide; split; try discriminate; try done;
      intros (? & ? & ? & ?); try done.
Qed.

(** The theorem at [lovers_game]. *)
Lemma game_end_precedence_witness :
  status (checkGameEnd (NewStateMachine lovers_game)).1 = LoversWin ∧
  (checkGameEnd (NewStateMachine lovers_game)).2 = Some errLoversWinMsg.
Proof.
  apply (proj1 (game_end_precedence (NewStateMachine lovers_game))).
  - reflexivity.
  - reflexivity.
Defined.

(** The two surviving lovers are a wolf and a villager: the wolf-parity
    condition holds as well, and the outcome is lover win. *)
Example lovers_beat_parity :
  livingWolves (Players lovers_game) = 1 ∧
  livingVillage (Players lovers_game) = 1 ∧
  status (checkGameEnd (NewStateMachine lovers_game)).1 = LoversWin.
Proof. repeat split; reflexivity. Qed.

(** * The phase cycle and the round counter *)

Lemma wrap_int_succ r : (MinInt ≤ r < MaxInt)%Z → wrap_int (r + 1) = (r + 1)%Z.
Proof.
  unfold MinInt, MaxInt, wrap_int. intros H.
  rewrite Z.mod_small; lia.
Qed.

Lemma processNightResults_frame g :
  Phase (processNightResults g) = Phase g ∧ Round (processNightResults g) = Round g.
Proof. by rewrite processNightResults_passes. Qed.

Lemma checkAndUpdatePhase_move g : cycle_move g (checkAndUpdatePhase g).
Proof.
  unfold cycle_move, checkAndUpdatePhase.
  destruct (String.eqb_spec (Phase g) PhaseNight) as [Hn|Hn]; [right; left; done|].
  destruct (String.eqb_spec (Phase g) PhaseDay) as [Hd|Hd]; [right; right; left; done|].
  destruct (String.eqb_spec (Phase g) PhaseVote) as [Hv|Hv]; [|left; done].
  right; right; right. done.
Qed.

Lemma TransitionPhase_move f sm : cycle_move (game sm) (game (TransitionPhase f sm).1).
Proof.
  unfold TransitionPhase.
  destruct (IsStarted (game sm)); simpl; [|left; done].
  destruct (isPhaseComplete sm); simpl; [|left; done].
  rewrite checkGameEnd_game. simpl. unfold cycle_move.
  destruct (processNightResults_frame (game sm)) as [Hnp Hnr].
  destruct (processVoteResults_frame f (game sm)) as (_ & Hvp & Hvr).
  destruct (String.eqb_spec (Phase (game sm)) PhaseNight) as [Hn|Hn];
    [right; left; simpl; auto|].
  destruct (String.eqb_spec (Phase (game sm)) PhaseDay) as [Hd|Hd];
    [right; right; left; done|].
  destruct (String.eqb_spec (Phase (game sm)) PhaseVote) as [Hv|Hv]; [|left; done].
  right; right; right. simpl. rewrite Hvr. done.
Qed.

Lemma phase_step_move g g' : phase_step g g' → cycle_move g g'.
Proof.
  intros [f sm|g0]; [apply TransitionPhase_move|apply checkAndUpdatePhase_move].
Qed.

Lemma phase_step_round g g' :
  phase_step g g' → (MinInt ≤ Round g < MaxInt)%Z →
  (Round g ≤ Round g' ≤ Round g + 1)%Z.
Proof.
  intros Hs Hr. destruct (phase_step_move g g' Hs) as [H|[H|[H|H]]];
    destruct H as (? & Hx); try destruct Hx as (? & Hx);
    rewrite ?wrap_int_succ in Hx by done; lia.
Qed.

Lemma phase_steps_round n g g' :
  phase_steps n g g' → (MinInt ≤ Round g)%Z → (Round g + Z.of_nat n ≤ MaxInt)%Z →
  (Round g ≤ Round g' ≤ Round g + Z.of_nat n)%Z.
Proof.
  induction 1 as [g|n g1 g2 g3 Hs Hss IH]; intros Hlo Hhi; [lia|].
  pose proof (phase_step_round g1 g2 Hs ltac:(lia)) as H12.
  specialize (IH ltac:(lia) ltac:(lia)). lia.
Qed.

Lemma TransitionPhase_progress f sm :
  IsStarted (game sm) = true → isPhaseComplete sm = true →
  (Phase (game sm), Phase (game (TransitionPhase f sm).1)) ∈ phaseCycle.
Proof.
  intros Hs Hc. unfold TransitionPhase. rewrite Hs, Hc. simpl.
  rewrite checkGameEnd_game.
  destruct (processNightResults_frame (game sm)) as [Hnp _].
  destruct (processVoteResults_frame f (game sm)) as (_ & Hvp & _).
  unfold isPhaseComplete in Hc. unfold phaseCycle. rewrite !elem_of_cons.
  destruct (String.eqb_spec (Phase (game sm)) PhaseNight) as [Hn|Hn];
    [left; by rewrite Hn|].
  destruct (String.eqb_spec (Phase (game sm)) PhaseDay) as [Hd|Hd];
    [right; left; by rewrite Hd|].
  destruct (String.eqb_spec (Phase (game sm)) PhaseVote) as [Hv|Hv];
    [right; right; left; by rewrite Hv|discriminate].
Qed.

(** C6: along every sequence of phase transitions the round counter never
    decreases (as long as it stays below the largest Go [int]); one
    transition changes it only by going from vote to night, and then by
    exactly one; every change of phase is a move to the next phase of the
    cycle night, day, vote, night, and a started session whose phase is
    complete makes that move. *)
Theorem round_monotone_phase_cycle :
  (∀ g g', phase_step g g' → (MinInt ≤ Round g < MaxInt)%Z →
     (Round g ≤ Round g')%Z ∧
     (Round g' ≠ Round g →
      Phase g = PhaseVote ∧ Phase g' = PhaseNight ∧ Round g' = (Round g + 1)%Z) ∧
     (Phase g = PhaseVote → Phase g' = PhaseNight → Round g' = (Round g + 1)%Z) ∧
     (Phase g' ≠ Phase g → (Phase g, Phase g') ∈ phaseCycle)) ∧
  (∀ n g g', phase_steps n g g' →
     (MinInt ≤ Round g)%Z → (Round g + Z.of_nat n ≤ MaxInt)%Z →
     (Round g ≤ Round g' ≤ Round g + Z.of_nat n)%Z) ∧
  (∀ f sm, IsStarted (game sm) = true → isPhaseComplete sm = true →
     (Phase (game sm), Phase (game (TransitionPhase f sm).1)) ∈ phaseCycle).
Proof.
  split; [|split; [apply phase_steps_round|apply TransitionPhase_progress]].
  intros g g' Hs Hr. pose proof (phase_step_round g g' Hs Hr) as Hmono.
  split; [lia|].
  destruct (phase_step_move g g' Hs) as [[Hp Hx]|[(Hp & Hp' & Hx)|[(Hp & Hp' & Hx)|(Hp & Hp' & Hx)]]];
    rewrite ?wrap_int_succ in Hx by done.
  - split; [congruence|]. split; [|congruence].
    intros Hv Hn. rewrite Hp, Hv in Hn. discriminate.
  - split; [congruence|]. split; [|intros _; rewrite Hp, Hp'; unfold phaseCycle; rewrite !elem_of_cons; auto].
    intros Hv. rewrite Hp in Hv. discriminate.
  - split; [congruence|]. split; [|intros _; rewrite Hp, Hp'; unfold phaseCycle; rewrite !elem_of_cons; auto].
    intros Hv. rewrite Hp in Hv. discriminate.
  - split; [done|]. split; [done|]. intros _. rewrite Hp, Hp'. unfold phaseCycle. rewrite !elem_of_cons. auto.
Qed.

(** The theorem at the transition out of the vote of [plurality_game]. *)
Lemma round_monotone_phase_cycle_witness :
  let g := plurality_game in
  let g' := game (TransitionPhase map_to_list (NewStateMachine g)).1 in
  (Round g ≤ Round g')%Z ∧
  (Round g' ≠ Round g →
   Phase g = PhaseVote ∧ Phase g' = PhaseNight ∧ Round g' = (Round g + 1)%Z) ∧
  (Phase g = PhaseVote → Phase g' = PhaseNight → Round g' = (Round g + 1)%Z) ∧
  (Phase g' ≠ Phase g → (Phase g, Phase g') ∈ phaseCycle).
Proof.
  intros g g'.
  apply (proj1 round_monotone_phase_cycle g g'
           (step_TransitionPhase map_to_list (NewStateMachine g))).
  unfold MinInt, MaxInt. simpl. lia.
Defined.

(** The vote of [plurality_game] is complete: the transition goes to night
    and the round goes from 1 to 2. *)
Example vote_to_night_increments :
  let g' := game (TransitionPhase map_to_list (NewStateMachine plurality_game)).1 in
  Phase g' = PhaseNight ∧ Round g' = 2%Z.
Proof. by_running. Qed.

(** * Action submission *)

Lemma AddAction_cases now gs a :
  (AddAction now gs a = (set_Actions (Actions gs ++ [set_Timestamp now a]) gs, None) ∧
   IsStarted gs = true ∧ isValidAction gs a = true ∧
   (TargetID a = "" ∨ targetValid gs a = true)) ∨
  (∃ e, AddAction now gs a = (gs, Some e)).
Proof.
  unfold AddAction.
  destruct (IsStarted gs); simpl; [|right; eauto].
  destruct (isValidAction gs a); simpl; [|right; eauto].
  destruct (String.eqb_spec (TargetID a) "") as [He|He]; simpl; [left; auto|].
  destruct (targetValid gs a); simpl; [left; auto|right; eauto].
Qed.

Lemma AddAction_frame now gs a :
  Players (AddAction now gs a).1 = Players gs ∧
  Phase (AddAction now gs a).1 = Phase gs ∧
  Round (AddAction now gs a).1 = Round gs ∧
  TimeLeft (AddAction now gs a).1 = TimeLeft gs ∧
  IsStarted (AddAction now gs a).1 = IsStarted gs ∧
  Skills (AddAction now gs a).1 = Skills gs.
Proof.
  destruct (AddAction_cases now gs a) as [(-> & _)|(e & ->)]; done.
Qed.




(** A wolf's kill on the other wolf is refused, its kill on a villager is
    stamped and appended. *)
Example kill_wolf_refused_villager_logged :
  AddAction 7 night_game (act "kill" "V" "U") = (night_game, Some errInvalidTargetMsg) ∧
  AddAction 7 night_game (act "kill" "V" "Y")
  = (session pack PhaseNight [mkAction "kill" "V" "Y" 7 "" ""], None).
Proof. by_running. Qed.

(** * The controller's entry point *)

Lemma known_target players t :
  existsb (fun p => ID p =? t) players = true ↔ t ∈ map ID players.
Proof.
  rewrite existsb_exists, list_elem_of_In, in_map_iff. split.
  - intros (p & Hin & He). apply String.eqb_eq in He. eauto.
  - intros (p & He & Hin). exists p. split; [done|]. by apply String.eqb_eq.
Qed.

Lemma ProcessAction_unknown f now sm a :
  TargetID a ∉ map ID (Players (game sm)) →
  GameController.ProcessAction f now sm a = (sm, Returned (Some errInvalidTargetMsg)).
Proof.
  intros Hn. unfold GameController.ProcessAction.
  destruct (existsb _ _) eqn:E; simpl; [|done].
  apply known_target in E. done.
Qed.

Lemma ProcessAction_refused f now sm a e :
  (AddAction now (game sm) a).2 = Some e →
  ∃ e', GameController.ProcessAction f now sm a = (sm, Returned (Some e')).
Proof.
  intros He. unfold GameController.ProcessAction.
  destruct (existsb _ _); simpl; [|eauto].
  destruct (AddAction_cases now (game sm) a) as [(Hok & _)|(e' & Hr)].
  - rewrite Hok in He. discriminate.
  - rewrite Hr. destruct sm. eauto.
Qed.

(** C8 (amended): [AddAction] has no state effect beyond stamping the
    action and appending it to the log: roster, phase and round are as
    before, and when it returns an error the whole state is as before.  An
    action refused by the controller's entry point, for its target or by
    [AddAction], leaves the controller's session state unchanged.  An action
    the controller accepts is applied to the roster at once, and the phase
    is ended if it is then complete. *)
Theorem submission_frame f now sm a :
  ((AddAction now (game sm) a).2 = None →
   (AddAction now (game sm) a).1
   = set_Actions (Actions (game sm) ++ [set_Timestamp now a]) (game sm)) ∧
  ((AddAction now (game sm) a).2 ≠ None → (AddAction now (game sm) a).1 = game sm) ∧
  (Players (AddAction now (game sm) a).1 = Players (game sm) ∧
   Phase (AddAction now (game sm) a).1 = Phase (game sm) ∧
   Round (AddAction now (game sm) a).1 = Round (game sm)) ∧
  (TargetID a ∉ map ID (Players (game sm)) ∨ (AddAction now (game sm) a).2 ≠ None →
   ∃ e, GameController.ProcessAction f now sm a = (sm, Returned (Some e))) ∧
  (TargetID a ∈ map ID (Players (game sm)) → (AddAction now (game sm) a).2 = None →
   GameController.ProcessAction f now sm a
   = let sm2 := mkStateMachine
                  (processActionResult (AddAction now (game sm) a).1 a) (status sm) in
     if isPhaseComplete sm2 then GameController.endCurrentPhase f sm2
     else (sm2, Returned None)).
Proof.
  split; [|split; [|split; [|split]]].
  - destruct (AddAction_cases now (game sm) a) as [(-> & _)|(e & ->)]; done.
  - destruct (AddAction_cases now (game sm) a) as [(-> & _)|(e & ->)]; done.
  - destruct (AddAction_frame now (game sm) a) as (? & ? & ? & _). done.
  - intros [Hn|Hr].
    + rewrite ProcessAction_unknown by done. eauto.
    + destruct (AddAction now (game sm) a).2 as [e|] eqn:E; [|done].
      by apply (ProcessAction_refused f now sm a e).
  - intros Hin Hok. apply known_target in Hin.
    unfold GameController.ProcessAction. rewrite Hin. simpl.
    destruct (AddAction now (game sm) a) as [g1 [e|]]; [discriminate|done].
Qed.

(** The theorem at the same kill, sent to the controller. *)
Lemma submission_frame_witness :
  ∃ e, GameController.ProcessAction map_to_list 7 (NewStateMachine night_game)
         (act "kill" "V" "U")
       = (NewStateMachine night_game, Returned (Some e)).
Proof.
  apply (proj1 (proj2 (proj2 (proj2
           (submission_frame map_to_list 7 (NewStateMachine night_game)
              (act "kill" "V" "U")))))).
  right. vm_compute. discriminate.
Defined.

(** C8 (counterexample): the wolf's kill is accepted while the night is
    still incomplete (the seer has not checked, the phase stays night), and
    its target is already dead when the submission returns. *)
Lemma submission_kills_at_once :
  kill_submission.2 = Returned None ∧
  isPhaseComplete kill_submission.1 = false ∧
  Phase (game kill_submission.1) = PhaseNight ∧
  aliveOf (Players night_game) "Y" = Some true ∧
  aliveOf (Players (game kill_submission.1)) "Y" = Some false.
Proof. by_running. Qed.

Lemma TransitionPhase_not_target_error f sm :
  (TransitionPhase f sm).2 ≠ Some errInvalidTargetMsg.
Proof.
  unfold TransitionPhase.
  destruct (IsStarted (game sm)); simpl; [|done].
  destruct (isPhaseComplete sm); simpl; [|done].
  rewrite checkGameEnd_error.
  repeat match goal with
         | |- context [if ?b then Some _ else _] => destruct b
         end; done.
Qed.

Lemma ProcessAction_empty_target f now sm a :
  TargetID a = "" → "" ∈ map ID (Players (game sm)) →
  (GameController.ProcessAction f now sm a).2 ≠ Returned (Some errInvalidTargetMsg).
Proof.
  intros He Hin. unfold GameController.ProcessAction.
  rewrite He. apply known_target in Hin. rewrite Hin. simpl.
  unfold AddAction. rewrite He. simpl.
  destruct (IsStarted (game sm)); simpl; [|done].
  destruct (isValidAction (game sm) a); simpl; [|done].
  destruct (isPhaseComplete _); simpl; [|done].
  unfold GameController.endCurrentPhase.
  match goal with |- context [TransitionPhase f ?m] =>
    pose proof (TransitionPhase_not_target_error f m) as Hn;
    destruct (TransitionPhase f m) as [sm' [err|]] end; simpl in *; [|done].
  destruct ((err =? VillagerWin) || (err =? WerewolfWin)); simpl; congruence.
Qed.

Lemma ProcessAction_discuss f now sm a me :
  IsStarted (game sm) = true → Phase (game sm) = PhaseDay →
  (0 < TimeLeft (game sm))%Z → Type_ a = "discuss" → TargetID a = "" →
  "" ∈ map ID (Players (game sm)) →
  findPlayer (Players (game sm)) (PlayerID a) = Some me → Alive me = true →
  GameController.ProcessAction f now sm a
  = (mkStateMachine
       (set_Actions (Actions (game sm) ++ [set_Timestamp now a]) (game sm))
       (status sm), Returned None).
Proof.
  intros Hs Hd Ht Hk He Hin Hme Ha. unfold GameController.ProcessAction.
  rewrite He. apply known_target in Hin. rewrite Hin. simpl.
  unfold AddAction, isValidAction. rewrite Hs, Hme, Hd, Hk, He. simpl.
  rewrite Ha. simpl.
  unfold processActionResult, isPhaseComplete. rewrite Hk. simpl. rewrite Hd. simpl.
  destruct (Z.leb_spec (TimeLeft (game sm)) 0); [lia|done].
Qed.

(** C10: the controller's entry point returns the invalid-target error,
    with the session state untouched, for every action whose target
    identifier is not the identifier of a roster participant, whatever the
    started flag, the phase, the actor and the action kind; so, in a roster
    without an empty identifier, every action submitted with an empty target
    identifier is refused and never appended.  In a roster with a
    participant whose identifier is empty, an action with an empty target
    identifier never gets the invalid-target error, and a discussion line
    of a living participant, by day with time left in a started game, is
    accepted and appended. *)
Theorem unknown_target_rejected f now sm a :
  (TargetID a ∉ map ID (Players (game sm)) →
   GameController.ProcessAction f now sm a
   = (sm, Returned (Some errInvalidTargetMsg))) ∧
  (TargetID a = "" → "" ∉ map ID (Players (game sm)) →
   GameController.ProcessAction f now sm a
   = (sm, Returned (Some errInvalidTargetMsg))) ∧
  (TargetID a = "" → "" ∈ map ID (Players (game sm)) →
   (GameController.ProcessAction f now sm a).2
   ≠ Returned (Some errInvalidTargetMsg) ∧
   (IsStarted (game sm) = true → Phase (game sm) = PhaseDay →
    (0 < TimeLeft (game sm))%Z → Type_ a = "discuss" →
    (∃ me, findPlayer (Players (game sm)) (PlayerID a) = Some me ∧
           Alive me = true) →
    GameController.ProcessAction f now sm a
    = (mkStateMachine
         (set_Actions (Actions (game sm) ++ [set_Timestamp now a]) (game sm))
         (status sm), Returned None))).
Proof.
  split; [|split].
  - apply ProcessAction_unknown.
  - intros He Hn. apply ProcessAction_unknown. by rewrite He.
  - intros He Hin. split.
    + by apply ProcessAction_empty_target.
    + intros Hs Hd Ht Hk (me & Hme & Ha).
      by apply (ProcessAction_discuss f now sm a me).
Qed.

(** The theorem at a discussion line without target. *)
Lemma unknown_target_rejected_witness :
  discuss_submission
  = (NewStateMachine (session seven PhaseDay []), Returned (Some errInvalidTargetMsg)).
Proof.
  apply (proj1 (proj2 (unknown_target_rejected map_to_list 7
                         (NewStateMachine (session seven PhaseDay []))
                         (act "discuss" "A" "")))).
  - reflexivity.
  - vm_compute. intros H. apply list_elem_of_In in H. simpl in H.
    repeat destruct H as [H|H]; try discriminate H. exact H.
Defined.

(** C10 (counterexample): with a participant whose identifier is empty in
    the roster, the discussion line submitted with an empty target
    identifier is not rejected: the controller returns no error and the
    line is appended to the log. *)
Lemma empty_target_accepted :
  TargetID (act "discuss" "A" "") = "" ∧
  blank_submission.2 = Returned None ∧
  Actions (game blank_submission.1) = [mkAction "discuss" "A" "" 7 "" ""].
Proof. by_running. Qed.

(** Such a roster is within reach: [RoomManager.JoinRoom] admits a
    participant whose identifier is empty. *)
Example blank_identifier_joins :
  (RoomManager.JoinRoom one_room "den" (player "" Villager true false)).2 = None ∧
  RoomManager.GetPlayer
    (RoomManager.JoinRoom one_room "den" (player "" Villager true false)).1 "den" ""
  = (Some (player "" Villager true false), None).
Proof. by_running. Qed.

(** The discussion line without target passes [AddAction] itself; it is the
    controller's roster lookup that refuses it. *)
Example discuss_without_target :
  (AddAction 7 (session seven PhaseDay []) (act "discuss" "A" "")).2 = None ∧
  discuss_submission.2 = Returned (Some errInvalidTargetMsg).
Proof. by_running. Qed.

(** * The witch's potions *)

(** The used-potion errors are out of reach: the flags tested are those of
    the instance [getWitchSkills] has just made.  The ledger of the game
    state is neither read nor written. *)
Lemma UseWitchSkill_ledger_blind gs w t k :
  (UseWitchSkill gs w t k).2 ≠ Some errSaveUsedMsg ∧
  (UseWitchSkill gs w t k).2 ≠ Some errPoisonUsedMsg ∧
  Skills (UseWitchSkill gs w t k).1 = Skills gs ∧
  Players (UseWitchSkill gs w t k).1 = Players gs.
Proof.
  unfold UseWitchSkill, UseWitchSkill_local, getWitchSkills. simpl.
  destruct (findPlayer (Players gs) w) as [witch|]; simpl; [|done].
  destruct (Role witch =? Witch); simpl; [|done].
  destruct (findPlayer (Players gs) t); simpl; [|done].
  destruct (k =? "save"); simpl; [done|].
  destruct (k =? "poison"); simpl; done.
Qed.

Lemma UseWitchSkill_again gs w t k :
  (UseWitchSkill gs w t k).2 = None →
  UseWitchSkill (UseWitchSkill gs w t k).1 w t k
  = (set_Actions (Actions gs ++ [mkAction k w t 0 "" ""; mkAction k w t 0 "" ""]) gs,
     None).
Proof.
  unfold UseWitchSkill, UseWitchSkill_local, getWitchSkills. simpl.
  destruct (findPlayer (Players gs) w) as [witch|] eqn:Hw; simpl; [|done].
  destruct (Role witch =? Witch) eqn:Hr; simpl; [|done].
  destruct (findPlayer (Players gs) t) eqn:Ht; simpl; [|done].
  destruct (k =? "save") eqn:Hs; simpl.
  - intros _. rewrite Hw. simpl. rewrite Hr, Ht. simpl.
    by rewrite <- app_assoc.
  - destruct (k =? "poison") eqn:Hp; simpl; [|done].
    intros _. rewrite Hw. simpl. rewrite Hr, Ht. simpl.
    by rewrite <- app_assoc.
Qed.

(** C2 (the code at the failing inputs): the witch uses the save potion
    twice in a row; both calls of [UseWitchSkill] return no error, the log
    holds two saves and the ledger still says the potion is unused.  With a
    ledger that says the potion is used, the call returns no error either
    and logs the save. *)
Theorem witch_save_twice :
  first_save.2 = None ∧
  second_save.2 = None ∧
  Actions second_save.1 = [act "save" "W" "Y"; act "save" "W" "Y"] ∧
  (Used ∘ SavePotion <$> Skills second_save.1 !! "W") = Some false ∧
  (Used ∘ SavePotion <$> Skills spent_ledger !! "W") = Some true ∧
  spent_save.2 = None ∧
  Actions spent_save.1 = [act "save" "W" "Y"] ∧
  Skills spent_save.1 = Skills spent_ledger.
Proof. by_running. Qed.

(** * Duplicate records *)


(** * After a win *)

(** The errors [TransitionPhase] can return are messages, none of them the
    status constants its callers compare them with. *)
Lemma TransitionPhase_errors f sm e :
  (TransitionPhase f sm).2 = Some e →
  (e =? VillagerWin) || (e =? WerewolfWin) = false.
Proof.
  unfold TransitionPhase.
  destruct (IsStarted (game sm)); simpl; [|by intros [= <-]].
  destruct (isPhaseComplete sm); simpl; [|by intros [= <-]].
  rewrite checkGameEnd_error.
  repeat match goal with
         | |- context [if ?b then Some _ else _] => destruct b
         end; by intros [= <-].
Qed.

Lemma resolution_keeps_started f g :
  IsStarted (processNightResults g) = IsStarted g ∧
  IsStarted (processVoteResults f g) = IsStarted g.
Proof.
  split; [by rewrite processNightResults_passes|].
  unfold processVoteResults.
  destruct (foldl pickMax _ _) as [mx el]. by destruct (negb (el =? "")).
Qed.

Lemma TransitionPhase_keeps_started f sm :
  IsStarted (game (TransitionPhase f sm).1) = IsStarted (game sm).
Proof.
  unfold TransitionPhase.
  destruct (IsStarted (game sm)) eqn:Hs; simpl; [|done].
  destruct (isPhaseComplete sm); simpl; [|done].
  rewrite checkGameEnd_game.
  destruct (resolution_keeps_started f (game sm)) as [Hn Hv].
  remember (processNightResults (game sm)) as gn.
  remember (processVoteResults f (game sm)) as gv.
  simpl.
  destruct (Phase (game sm) =? PhaseNight); simpl; [congruence|].
  destruct (Phase (game sm) =? PhaseDay); simpl; [done|].
  destruct (Phase (game sm) =? PhaseVote); simpl; congruence.
Qed.

(** [TransitionPhase] does not read the status. *)
Lemma TransitionPhase_status_blind f g s1 s2 :
  game (TransitionPhase f (mkStateMachine g s1)).1
  = game (TransitionPhase f (mkStateMachine g s2)).1.
Proof.
  unfold TransitionPhase. simpl.
  destruct (IsStarted g); simpl; [|done].
  replace (isPhaseComplete (mkStateMachine g s2))
    with (isPhaseComplete (mkStateMachine g s1)) by reflexivity.
  destruct (isPhaseComplete (mkStateMachine g s1)); simpl; [|done].
  by rewrite !checkGameEnd_game.
Qed.

(** C9 (the code at the failing inputs): after the village win is declared
    the next [TransitionPhase] is accepted and moves the phase from night
    to day; after the wolf win is declared the controller accepts the
    wolf's kill, which marks a living villager dead and moves the phase. *)
Theorem transitions_after_win :
  status village_won.1 = VillagerWin ∧
  Phase (game village_won.1) = PhaseNight ∧
  IsStarted (game village_won.1) = true ∧
  Phase (game village_after.1) = PhaseDay ∧
  status wolf_won.1 = WerewolfWin ∧
  Phase (game wolf_won.1) = PhaseNight ∧
  aliveOf (Players (game wolf_won.1)) "B" = Some true ∧
  wolf_after.2 = Returned (Some errWerewolfWinMsg) ∧
  aliveOf (Players (game wolf_after.1)) "B" = Some false ∧
  Phase (game wolf_after.1) = PhaseDay.
Proof. by_running. Qed.

(** * Role assignment and game start *)

Lemma filter_replicate_none {A} (sel : A → bool) (x : A) n :
  sel x = false → List.filter sel (replicate n x) = [].
Proof. intros Hx. induction n as [|n IH]; simpl; [done|]. by rewrite Hx. Qed.

Lemma countRoles_villagers (sel : string → bool) l n :
  sel Villager = false →
  countRoles sel (l ++ replicate n Villager) = countRoles sel l.
Proof.
  intros Hv. unfold countRoles.
  rewrite List.filter_app, filter_replicate_none by done.
  by rewrite app_nil_r.
Qed.

Lemma modeRoles_unknown mode : knownMode mode = false → modeRoles mode = [].
Proof.
  unfold knownMode, modeRoles.
  destruct (mode =? ClassicMode), (mode =? StandardMode), (mode =? ExtendedMode);
    simpl; done.
Qed.

Lemma generateRoles_length n mode :
  Z.of_nat (length (generateRoles n mode))
  = Z.max n (Z.of_nat (length (modeRoles mode))).
Proof. unfold generateRoles. rewrite length_app, length_replicate. lia. Qed.

Lemma generateRoles_counts n mode :
  knownMode mode = true →
  countRoles AI.isWolfRole (generateRoles n mode) = 2 ∧
  countRoles (String.eqb Seer) (generateRoles n mode) = 1 ∧
  countRoles (String.eqb Witch) (generateRoles n mode) = 1.
Proof.
  intros Hk. unfold generateRoles.
  rewrite !countRoles_villagers by reflexivity.
  unfold knownMode in Hk. unfold modeRoles.
  destruct (mode =? ClassicMode); [by_running|].
  destruct (mode =? StandardMode); [by_running|].
  destruct (mode =? ExtendedMode); [by_running|done].
Qed.

(** X1: the role list has one role per participant, and never fewer roles
    than the mode's special roles; in the three known modes it holds two
    wolf-aligned roles, one seer and one witch whatever the head count, and
    for any other mode it is all villagers. *)
Theorem generateRoles_shape n mode :
  Z.of_nat (length (generateRoles n mode))
  = Z.max n (Z.of_nat (length (modeRoles mode))) ∧
  (knownMode mode = true →
   countRoles AI.isWolfRole (generateRoles n mode) = 2 ∧
   countRoles (String.eqb Seer) (generateRoles n mode) = 1 ∧
   countRoles (String.eqb Witch) (generateRoles n mode) = 1) ∧
  (knownMode mode = false →
   generateRoles n mode = replicate (Z.to_nat n) Villager).
Proof.
  split; [apply generateRoles_length|]. split; [apply generateRoles_counts|].
  intros Hk. unfold generateRoles. rewrite modeRoles_unknown by done.
  simpl. f_equal. lia.
Qed.

(** The theorem at the extended mode with three participants. *)
Lemma generateRoles_shape_witness :
  countRoles AI.isWolfRole (generateRoles 3 ExtendedMode) = 2 ∧
  countRoles (String.eqb Seer) (generateRoles 3 ExtendedMode) = 1 ∧
  countRoles (String.eqb Witch) (generateRoles 3 ExtendedMode) = 1.
Proof.
  apply (proj1 (proj2 (generateRoles_shape 3 ExtendedMode))). reflexivity.
Defined.

Lemma assignFrom_spec players : ∀ roles,
  (length players ≤ length roles)%nat →
  ∃ players',
    assignFrom roles players = Some players' ∧
    map Role players' = take (length players) roles ∧
    map seat players' = map seat players ∧
    Forall (fun p => Alive p = true) players'.
Proof.
  induction players as [|p ps IH]; intros roles Hlen; simpl.
  - exists []. repeat split. constructor.
  - destruct roles as [|r roles]; simpl in Hlen; [lia|].
    destruct (IH roles ltac:(lia)) as (ps' & -> & Hr & Hs & Ha).
    eexists. split; [done|]. simpl. rewrite Hr, Hs. repeat split.
    by constructor.
Qed.

Lemma legal_reverse : legal_shuffle reverse.
Proof. intros l. apply reverse_Permutation. Qed.

Lemma assignRoles_spec shuffle mode g :
  legal_shuffle shuffle →
  ∃ g', assignRoles shuffle mode g = Some g' ∧
    set_Players (Players g) g' = g ∧
    map seat (Players g') = map seat (Players g) ∧
    Forall (fun p => Alive p = true) (Players g') ∧
    map Role (Players g')
    = take (length (Players g))
        (shuffle (generateRoles (Z.of_nat (length (Players g))) mode)).
Proof.
  intros Hs. unfold assignRoles.
  set (roles := generateRoles (Z.of_nat (length (Players g))) mode).
  assert (Hlen : Z.of_nat (length (shuffle roles))
                 = Z.max (Z.of_nat (length (Players g)))
                     (Z.of_nat (length (modeRoles mode)))).
  { rewrite (Permutation_length (Hs roles)). apply generateRoles_length. }
  destruct (assignFrom_spec (Players g) (shuffle roles) ltac:(lia))
    as (ps' & -> & Hr & Hseat & Ha).
  eexists. split; [done|]. simpl. split; [by destruct g|]. done.
Qed.

Lemma dealt_roles_Permutation shuffle mode n :
  legal_shuffle shuffle → (length (modeRoles mode) ≤ n)%nat →
  take n (shuffle (generateRoles (Z.of_nat n) mode))
  ≡ₚ generateRoles (Z.of_nat n) mode.
Proof.
  intros Hs Hbase. rewrite take_ge; [apply Hs|].
  pose proof (generateRoles_length (Z.of_nat n) mode) as Hlen.
  rewrite (Permutation_length (Hs _)). lia.
Qed.

(** X2: with any legal shuffle, role assignment is never out of range of
    the role list; it leaves every participant alive, keeps identifiers,
    names, kinds and lover flags in seat order, and deals the first roles of
    the shuffled list; when the roster is at least as long as the mode's
    special roles, the roles dealt are those of [generateRoles], each
    once. *)
Theorem assignRoles_deals shuffle mode g :
  legal_shuffle shuffle →
  ∃ g', assignRoles shuffle mode g = Some g' ∧
    set_Players (Players g) g' = g ∧
    map seat (Players g') = map seat (Players g) ∧
    Forall (fun p => Alive p = true) (Players g') ∧
    map Role (Players g')
    = take (length (Players g))
        (shuffle (generateRoles (Z.of_nat (length (Players g))) mode)) ∧
    ((length (modeRoles mode) ≤ length (Players g))%nat →
     map Role (Players g') ≡ₚ generateRoles (Z.of_nat (length (Players g))) mode).
Proof.
  intros Hs.
  destruct (assignRoles_spec shuffle mode g Hs)
    as (g' & Hg' & Hframe & Hseat & Halive & Hroles).
  exists g'. repeat (split; [done|]).
  intros Hbase. rewrite Hroles. by apply dealt_roles_Permutation.
Qed.

(** The theorem at five participants, the classic mode and the reversal
    of the role list. *)
Lemma assignRoles_deals_witness :
  ∃ g', assignRoles reverse ClassicMode lobby = Some g' ∧
    set_Players (Players lobby) g' = lobby ∧
    map seat (Players g') = map seat (Players lobby) ∧
    Forall (fun p => Alive p = true) (Players g') ∧
    map Role (Players g')
    = take (length (Players lobby))
        (reverse (generateRoles (Z.of_nat (length (Players lobby))) ClassicMode)) ∧
    ((length (modeRoles ClassicMode) ≤ length (Players lobby))%nat →
     map Role (Players g')
     ≡ₚ generateRoles (Z.of_nat (length (Players lobby))) ClassicMode).
Proof. apply (assignRoles_deals reverse ClassicMode lobby legal_reverse). Defined.

Example classic_five_dealt :
  (map Role ∘ Players <$> assignRoles reverse ClassicMode lobby)
  = Some [Villager; Witch; Seer; Werewolf; Werewolf].
Proof. by_running. Qed.

Lemma initializeSkills_lookup players : ∀ (m : gmap string WitchSkills) k,
  foldl (fun skills p =>
           if Role p =? Witch then <[ID p := zeroWitchSkills]> skills else skills)
    m players !! k
  = if existsb (fun p => (Role p =? Witch) && (ID p =? k)) players
    then Some zeroWitchSkills else m !! k.
Proof.
  induction players as [|p ps IH]; intros m k; simpl; [done|].
  rewrite IH. destruct (existsb _ ps); [by rewrite orb_true_r|].
  rewrite orb_false_r. destruct (Role p =? Witch); simpl; [|done].
  destruct (String.eqb_spec (ID p) k) as [->|Hne].
  - by rewrite lookup_insert_eq.
  - by rewrite lookup_insert_ne.
Qed.

(** X3: [StartGame] refuses a roster shorter than the room's minimum and
    leaves the state as it is; otherwise, started before or not, it deals the
    roles (the first of the shuffled role list of the room's mode, in seat
    order; each role of [generateRoles] once when the roster is at least as
    long as the mode's special roles) and yields night, round 1, 120
    seconds, an empty log, the same room identifier, everyone alive in the
    same seats, a ledger entry with both potions unused for every witch, and
    the old ledger entries of every other key. *)
Theorem StartGame_resets shuffle room gs :
  legal_shuffle shuffle →
  ((Z.of_nat (length (Players gs)) < MinPlayers room)%Z →
   StartGame shuffle room gs = Some (gs, Some errTooFewPlayersMsg)) ∧
  ((MinPlayers room ≤ Z.of_nat (length (Players gs)))%Z →
   ∃ gs', StartGame shuffle room gs = Some (gs', None) ∧
     Phase gs' = PhaseNight ∧ Round gs' = 1%Z ∧ TimeLeft gs' = 120%Z ∧
     IsStarted gs' = true ∧ Actions gs' = [] ∧
     StateRoomID gs' = StateRoomID gs ∧
     map seat (Players gs') = map seat (Players gs) ∧
     Forall (fun p => Alive p = true) (Players gs') ∧
     map Role (Players gs')
     = take (length (Players gs))
         (shuffle (generateRoles (Z.of_nat (length (Players gs))) (Mode room))) ∧
     ((length (modeRoles (Mode room)) ≤ length (Players gs))%nat →
      map Role (Players gs')
      ≡ₚ generateRoles (Z.of_nat (length (Players gs))) (Mode room)) ∧
     (∀ p, p ∈ Players gs' → Role p = Witch →
           Skills gs' !! ID p = Some zeroWitchSkills) ∧
     (∀ k, (∀ p, p ∈ Players gs' → Role p = Witch → ID p ≠ k) →
           Skills gs' !! k = Skills gs !! k)).
Proof.
  intros Hs. unfold StartGame. split; intros Hn.
  - destruct (Z.ltb_spec (Z.of_nat (length (Players gs))) (MinPlayers room)); [done|lia].
  - destruct (Z.ltb_spec (Z.of_nat (length (Players gs))) (MinPlayers room)); [lia|].
    destruct (assignRoles_spec shuffle (Mode room) gs Hs)
      as (g1 & -> & Hframe & Hseat & Halive & Hroles).
    eexists. split; [done|]. simpl.
    do 5 (split; [done|]).
    split; [by rewrite <- Hframe|].
    do 3 (split; [done|]).
    split; [intros Hbase; rewrite Hroles; by apply dealt_roles_Permutation|].
    split.
    + intros p Hp Hw. rewrite initializeSkills_lookup.
      replace (existsb _ (Players g1)) with true; [done|].
      symmetry. apply existsb_exists. exists p.
      split; [by apply list_elem_of_In|].
      rewrite Hw. simpl. apply String.eqb_refl.
    + intros k Hk. rewrite initializeSkills_lookup.
      destruct (existsb _ (Players g1)) eqn:E.
      * apply existsb_exists in E as (p & Hp & Hpk).
        apply andb_prop in Hpk as [Hw Hid].
        apply String.eqb_eq in Hw, Hid. apply list_elem_of_In in Hp.
        by destruct (Hk p Hp Hw).
      * by rewrite <- Hframe.
Qed.

(** The theorem at five participants and a minimum of five. *)
Lemma StartGame_resets_witness :
  ∃ gs', StartGame reverse classic_room lobby = Some (gs', None) ∧
    Phase gs' = PhaseNight ∧ Round gs' = 1%Z ∧ TimeLeft gs' = 120%Z ∧
    IsStarted gs' = true ∧ Actions gs' = [] ∧
    StateRoomID gs' = StateRoomID lobby ∧
    map seat (Players gs') = map seat (Players lobby) ∧
    Forall (fun p => Alive p = true) (Players gs') ∧
    map Role (Players gs')
    = take (length (Players lobby))
        (reverse (generateRoles (Z.of_nat (length (Players lobby)))
                    (Mode classic_room))) ∧
    ((length (modeRoles (Mode classic_room)) ≤ length (Players lobby))%nat →
     map Role (Players gs')
     ≡ₚ generateRoles (Z.of_nat (length (Players lobby))) (Mode classic_room)) ∧
    (∀ p, p ∈ Players gs' → Role p = Witch →
          Skills gs' !! ID p = Some zeroWitchSkills) ∧
    (∀ k, (∀ p, p ∈ Players gs' → Role p = Witch → ID p ≠ k) →
          Skills gs' !! k = Skills lobby !! k).
Proof.
  apply (proj2 (StartGame_resets reverse classic_room lobby legal_reverse)).
  vm_compute. discriminate.
Defined.

(** The deal of the five under [StartGame] with the reversing shuffle. *)
Example classic_five_started :
  (map Role ∘ Players ∘ fst <$> StartGame reverse classic_room lobby)
  = Some [Villager; Witch; Seer; Werewolf; Werewolf].
Proof. by_running. Qed.

Lemma countRoles_Permutation (sel : string → bool) l1 l2 :
  l1 ≡ₚ l2 → countRoles sel l1 = countRoles sel l2.
Proof.
  unfold countRoles. induction 1 as [|x l l' _ IH|x y l|l l' l'' _ IH1 _ IH2]; simpl.
  - done.
  - destruct (sel x); simpl; congruence.
  - destruct (sel x), (sel y); done.
  - congruence.
Qed.

Lemma living_all_alive (sel : string → bool) players :
  Forall (fun p => Alive p = true) players →
  living (fun p => sel (Role p)) players = countRoles sel (map Role players).
Proof.
  unfold countRoles. induction 1 as [|p ps Hp _ IH]; [done|].
  rewrite living_cons, Hp. simpl. destruct (sel (Role p)); simpl; lia.
Qed.

Lemma countRoles_split (sel : string → bool) l :
  (countRoles sel l + countRoles (fun r => negb (sel r)) l)%nat = length l.
Proof.
  unfold countRoles. induction l as [|x l IH]; simpl; [done|].
  destruct (sel x); simpl; lia.
Qed.

Lemma livingWolves_count players :
  Forall (fun p => Alive p = true) players →
  livingWolves players = countRoles AI.isWolfRole (map Role players).
Proof. exact (living_all_alive AI.isWolfRole players). Qed.

Lemma livingVillage_count players :
  Forall (fun p => Alive p = true) players →
  livingVillage players
  = countRoles (fun r => negb (AI.isWolfRole r)) (map Role players).
Proof. exact (living_all_alive (fun r => negb (AI.isWolfRole r)) players). Qed.

(** X4: a game just started in one of the three known modes, with at least
    five participants and at least as many as the mode's special roles, has
    two living wolf-aligned participants, the others village-aligned, and is
    ongoing: game-end evaluation returns no error. *)
Theorem fresh_game_ongoing shuffle room gs gs' :
  legal_shuffle shuffle → knownMode (Mode room) = true →
  (5 ≤ length (Players gs))%nat →
  (length (modeRoles (Mode room)) ≤ length (Players gs))%nat →
  StartGame shuffle room gs = Some (gs', None) →
  livingWolves (Players gs') = 2 ∧
  livingVillage (Players gs') = (length (Players gs) - 2)%nat ∧
  checkGameEnd (NewStateMachine gs') = (mkStateMachine gs' GameOngoing, None).
Proof.
  intros Hs Hk H5 Hbase Hstart. unfold StartGame in Hstart.
  destruct (Z.of_nat (length (Players gs)) <? MinPlayers room)%Z; [done|].
  destruct (assignRoles_spec shuffle (Mode room) gs Hs)
    as (g1 & Hg1 & _ & Hseat & Halive & Hroles).
  rewrite Hg1 in Hstart. injection Hstart as <-. simpl.
  pose proof (dealt_roles_Permutation shuffle (Mode room) _ Hs Hbase) as Hperm.
  rewrite <- Hroles in Hperm.
  destruct (generateRoles_counts (Z.of_nat (length (Players gs))) (Mode room) Hk)
    as (Hw & _).
  assert (Hlen : length (Players g1) = length (Players gs)).
  { rewrite <- (length_map seat (Players g1)), Hseat. apply length_map. }
  assert (Hwolves : livingWolves (Players g1) = 2).
  { rewrite (livingWolves_count _ Halive).
    by rewrite (countRoles_Permutation _ _ _ Hperm). }
  assert (Hvillage : livingVillage (Players g1) = (length (Players gs) - 2)%nat).
  { rewrite (livingVillage_count _ Halive).
    pose proof (countRoles_split AI.isWolfRole (map Role (Players g1))) as Hsplit.
    rewrite length_map, Hlen in Hsplit.
    rewrite (livingWolves_count _ Halive) in Hwolves. lia. }
  split; [done|]. split; [done|].
  set (sm := NewStateMachine _).
  pose proof (checkGameEnd_status sm) as Hst.
  pose proof (checkGameEnd_error sm) as Herr.
  pose proof (checkGameEnd_game sm) as Hgame.
  simpl in Hst. change (Players (game sm)) with (Players g1) in Hst.
  rewrite (livingAll_split (Players g1)), Hwolves, Hvillage in Hst.
  assert (Hon : status (checkGameEnd sm).1 = GameOngoing).
  { rewrite Hst. clear Hst Herr. repeat case_decide;
      first [reflexivity | exfalso; intuition lia]. }
  rewrite Hon in Herr. simpl in Herr.
  destruct (checkGameEnd sm) as [[g s] e]. simpl in Hon, Herr, Hgame.
  rewrite Hon, Herr, Hgame. reflexivity.
Qed.

(** The theorem at five participants in the classic mode. *)
Lemma fresh_game_ongoing_witness :
  ∃ gs', StartGame reverse classic_room lobby = Some (gs', None) ∧
    livingWolves (Players gs') = 2 ∧
    livingVillage (Players gs') = (length (Players lobby) - 2)%nat ∧
    checkGameEnd (NewStateMachine gs') = (mkStateMachine gs' GameOngoing, None).
Proof.
  destruct (StartGame reverse classic_room lobby) as [[gs' [e|]]|] eqn:E;
    try (vm_compute in E; discriminate E).
  exists gs'. split; [reflexivity|].
  apply (fresh_game_ongoing reverse classic_room lobby gs' legal_reverse).
  - reflexivity.
  - vm_compute. lia.
  - vm_compute. lia.
  - exact E.
Defined.

(** * The game manager's own start *)

Lemma isValidAction_villagers g a :
  Phase g = PhaseNight →
  Forall (fun p => Role p = Villager) (Players g) →
  isValidAction g a = false.
Proof.
  intros Hp Hall. unfold isValidAction. rewrite Hp. simpl.
  destruct (findPlayer (Players g) (PlayerID a)) as [p|] eqn:Hf; simpl; [|done].
  apply find_some in Hf as [Hin _].
  rewrite Forall_forall in Hall. apply list_elem_of_In in Hin.
  rewrite (Hall p Hin). destruct (Alive p); simpl; [|done].
  destruct (Type_ a =? "kill"); [done|].
  destruct (Type_ a =? "check"); [done|].
  destruct ((Type_ a =? "save") || (Type_ a =? "poison")); [done|].
  by destruct (Type_ a =? "protect").
Qed.

Lemma take_all_villagers n l k :
  l ≡ₚ replicate k Villager → Forall (fun r => r = Villager) (take n l).
Proof.
  intros Hperm. apply Forall_take. rewrite Hperm.
  apply Forall_replicate. done.
Qed.

(** X5: the game manager's [StartGame] refuses a room that already has a
    game and changes nothing; for a new room it registers a started game in
    night phase in which every participant is a living villager (its state
    has no mode), and from there every action sent through the manager's
    [ProcessAction] is refused as invalid and changes nothing. *)
Theorem GameManager_night_locked shuffle games roomID players :
  legal_shuffle shuffle →
  (is_Some (games !! roomID) →
   GameManager_StartGame shuffle games roomID players
   = Some (games, Some ErrGameInProgress)) ∧
  (games !! roomID = None →
   ∃ g, GameManager_StartGame shuffle games roomID players
        = Some (<[roomID := g]> games, None) ∧
     Phase g = PhaseNight ∧ Round g = 1%Z ∧ IsStarted g = true ∧
     map seat (Players g) = map seat players ∧
     Forall (fun p => Role p = Villager ∧ Alive p = true) (Players g) ∧
     ∀ f a, GameManager.ProcessAction f (<[roomID := g]> games) roomID a
            = (<[roomID := g]> games, Some ErrInvalidAction)).
Proof.
  intros Hs. unfold GameManager_StartGame. split.
  - intros [g ->]. done.
  - intros ->.
    destruct (assignRoles_spec shuffle ""
                (mkGameState roomID players PhaseNight 1 [] 120 true ∅) Hs)
      as (g & -> & Hframe & Hseat & Halive & Hroles).
    simpl in Hframe, Hseat, Hroles.
    assert (Hvill : Forall (fun p => Role p = Villager) (Players g)).
    { apply Forall_map with (f := Role) (P := fun r => r = Villager).
      rewrite Hroles. eapply take_all_villagers.
      rewrite (Hs _). unfold generateRoles. simpl. reflexivity. }
    exists g. split; [done|].
    pose proof (f_equal Phase Hframe) as Hphase.
    pose proof (f_equal IsStarted Hframe) as Hstarted.
    pose proof (f_equal Round Hframe) as Hround.
    simpl in Hphase, Hstarted, Hround.
    split; [done|]. split; [done|]. split; [done|].
    split; [done|]. split.
    + rewrite Forall_forall in Hvill, Halive. apply Forall_forall.
      intros p Hp. split; [by apply Hvill|by apply Halive].
    + intros f a. unfold GameManager.ProcessAction.
      rewrite lookup_insert_eq, Hstarted. simpl.
      by rewrite (isValidAction_villagers g a Hphase Hvill).
Qed.

(** The theorem at an empty manager and the five participants. *)
Lemma GameManager_night_locked_witness :
  ∃ g, GameManager_StartGame reverse ∅ "room" five
       = Some (<["room" := g]> ∅, None) ∧
    Phase g = PhaseNight ∧ Round g = 1%Z ∧ IsStarted g = true ∧
    map seat (Players g) = map seat five ∧
    Forall (fun p => Role p = Villager ∧ Alive p = true) (Players g) ∧
    ∀ f a, GameManager.ProcessAction f (<["room" := g]> ∅) "room" a
           = (<["room" := g]> ∅, Some ErrInvalidAction).
Proof.
  apply (proj2 (GameManager_night_locked reverse ∅ "room" five legal_reverse)).
  reflexivity.
Defined.

(** * Available and accepted actions *)

Lemma getAvailableActions_night_acc players : ∀ acc,
  foldl
    (fun (actions : list string) player =>
       if negb (Alive player) then actions
       else if (Role player =? Werewolf) || (Role player =? WhiteWolf) then
         (actions ++ ["kill"])%list
       else if Role player =? Seer then (actions ++ ["check"])%list
       else if Role player =? Witch then (actions ++ ["save"; "poison"])%list
       else if Role player =? Guard then (actions ++ ["protect"])%list
       else actions)
    acc players
  = (acc ++ flat_map nightActionsOf players)%list.
Proof.
  induction players as [|p ps IH]; intros acc; simpl.
  - by rewrite app_nil_r.
  - rewrite IH. unfold nightActionsOf.
    destruct (negb (Alive p)); simpl; [done|].
    destruct ((Role p =? Werewolf) || (Role p =? WhiteWolf));
      [by rewrite <- app_assoc|].
    destruct (Role p =? Seer); [by rewrite <- app_assoc|].
    destruct (Role p =? Witch); [by rewrite <- app_assoc|].
    destruct (Role p =? Guard); [by rewrite <- app_assoc|done].
Qed.

Lemma getAvailableActions_night g :
  Phase g = PhaseNight →
  getAvailableActions g = flat_map nightActionsOf (Players g).
Proof.
  intros Hp. unfold getAvailableActions. rewrite Hp. simpl.
  apply getAvailableActions_night_acc.
Qed.

Lemma findPlayer_In players id p :
  findPlayer players id = Some p → In p players ∧ ID p = id.
Proof.
  intros Hf. apply find_some in Hf as [Hin He]. split; [done|].
  by apply String.eqb_eq.
Qed.

(** X6: every action [isValidAction] lets through is on offer: its actor
    is a living roster participant, for whom [GetAvailableActions] returns a
    list, and the action's kind is in that list. *)
Theorem valid_action_is_available gs a :
  isValidAction gs a = true →
  ∃ l, GetAvailableActions gs (PlayerID a) = Some l ∧ Type_ a ∈ l.
Proof.
  unfold isValidAction, GetAvailableActions.
  destruct (findPlayer (Players gs) (PlayerID a)) as [p|] eqn:Hf; simpl; [|done].
  destruct (Alive p) eqn:Ha; simpl; [|done].
  apply findPlayer_In in Hf as [Hin _].
  destruct (String.eqb_spec (Phase gs) PhaseNight) as [Hn|Hn].
  - rewrite (getAvailableActions_night gs Hn). intros Hv. eexists. split; [done|].
    apply list_elem_of_In, in_flat_map. exists p. split; [done|].
    unfold nightActionsOf. rewrite Ha. simpl.
    destruct (String.eqb_spec (Type_ a) "kill") as [->|_].
    { rewrite Hv. by left. }
    destruct (String.eqb_spec (Type_ a) "check") as [->|_].
    { apply String.eqb_eq in Hv. rewrite Hv. by left. }
    destruct (String.eqb_spec (Type_ a) "save") as [->|_].
    { apply String.eqb_eq in Hv. rewrite Hv. by left. }
    destruct (String.eqb_spec (Type_ a) "poison") as [->|_].
    { apply String.eqb_eq in Hv. rewrite Hv. right. by left. }
    destruct (String.eqb_spec (Type_ a) "protect") as [->|_]; [|done].
    apply String.eqb_eq in Hv. rewrite Hv. by left.
  - unfold getAvailableActions. apply String.eqb_neq in Hn. rewrite Hn.
    destruct (Phase gs =? PhaseDay).
    { intros ->%String.eqb_eq. eexists. split; [done|]. by left. }
    destruct (Phase gs =? PhaseVote); [|done].
    intros ->%String.eqb_eq. eexists. split; [done|]. by left.
Qed.

(** The theorem at a wolf's kill in [night_game]. *)
Lemma valid_action_is_available_witness :
  ∃ l, GetAvailableActions night_game "V" = Some l ∧ "kill" ∈ l.
Proof.
  apply (valid_action_is_available night_game (act "kill" "V" "Y")). reflexivity.
Defined.

(** X7: what [AddAction] accepts: the game is started, the actor is a
    living roster participant, the kind fits the phase (one of kill, check,
    save, poison, protect at night; discuss, and then without target, by
    day; vote in the vote phase), and a target that is given is the
    identifier of a living participant. *)
Theorem AddAction_accepts_only now gs a :
  (AddAction now gs a).2 = None →
  IsStarted gs = true ∧
  (∃ p, findPlayer (Players gs) (PlayerID a) = Some p ∧ Alive p = true) ∧
  ((Phase gs = PhaseNight ∧
    Type_ a ∈ ["kill"; "check"; "save"; "poison"; "protect"]) ∨
   (Phase gs = PhaseDay ∧ Type_ a = "discuss" ∧ TargetID a = "") ∨
   (Phase gs = PhaseVote ∧ Type_ a = "vote")) ∧
  (TargetID a ≠ "" →
   ∃ t, livingTarget (Players gs) (TargetID a) = Some t ∧ Alive t = true).
Proof.
  intros Hok.
  destruct (AddAction_cases now gs a) as [(_ & Hs & Hv & Ht)|(e & He)];
    [|rewrite He in Hok; discriminate].
  split; [done|].
  assert (Htarget : TargetID a ≠ "" →
            ∃ t, livingTarget (Players gs) (TargetID a) = Some t ∧ Alive t = true).
  { intros Hne. destruct Ht as [|Ht]; [done|]. unfold targetValid in Ht.
    destruct (livingTarget (Players gs) (TargetID a)) as [t|] eqn:Hl; [|done].
    exists t. split; [done|]. apply find_some in Hl as [_ Hl].
    by apply andb_prop in Hl as [_ Hl]. }
  unfold isValidAction in Hv.
  destruct (findPlayer (Players gs) (PlayerID a)) as [p|] eqn:Hf; simpl in Hv; [|done].
  destruct (Alive p) eqn:Ha; simpl in Hv; [|done].
  split; [eauto|]. split; [|done].
  destruct (String.eqb_spec (Phase gs) PhaseNight) as [Hn|Hn].
  { left. split; [done|]. rewrite !elem_of_cons.
    destruct (String.eqb_spec (Type_ a) "kill"); [auto|].
    destruct (String.eqb_spec (Type_ a) "check"); [auto|].
    destruct (String.eqb_spec (Type_ a) "save"); [auto|].
    destruct (String.eqb_spec (Type_ a) "poison"); [auto 6|].
    destruct (String.eqb_spec (Type_ a) "protect"); [auto 6|done]. }
  destruct (String.eqb_spec (Phase gs) PhaseDay) as [Hd|Hd].
  { right; left. apply String.eqb_eq in Hv. split; [done|]. split; [done|].
    destruct Ht as [|Ht]; [done|]. unfold targetValid in Ht.
    destruct (livingTarget _ _); [|done]. rewrite Hd in Ht. done. }
  destruct (String.eqb_spec (Phase gs) PhaseVote) as [Hvo|Hvo]; [|done].
  right; right. by apply String.eqb_eq in Hv.
Qed.

(** The theorem at the wolf's kill on a villager in [night_game]. *)
Lemma AddAction_accepts_only_witness :
  IsStarted night_game = true ∧
  (∃ p, findPlayer (Players night_game) "V" = Some p ∧ Alive p = true) ∧
  ((Phase night_game = PhaseNight ∧
    "kill" ∈ ["kill"; "check"; "save"; "poison"; "protect"]) ∨
   (Phase night_game = PhaseDay ∧ "kill" = "discuss" ∧ "Y" = "") ∨
   (Phase night_game = PhaseVote ∧ "kill" = "vote")) ∧
  ("Y" ≠ "" →
   ∃ t, livingTarget (Players night_game) "Y" = Some t ∧ Alive t = true).
Proof.
  apply (AddAction_accepts_only 7 night_game (act "kill" "V" "Y")). reflexivity.
Defined.

(** * Phase completeness *)

Lemma checkVoteComplete_counts sm players : ∀ v a,
  foldl
    (fun '(v, a) player =>
       if Alive player then
         (if hasActionOfType sm (ID player) "vote" then S v else v, S a)
       else (v, a))
    (v, a) players
  = ((v + length (List.filter
                    (fun p => Alive p && hasActionOfType sm (ID p) "vote") players))%nat,
     (a + length (List.filter Alive players))%nat).
Proof.
  induction players as [|p ps IH]; intros v a; simpl.
  - f_equal; lia.
  - destruct (Alive p); simpl; [|apply IH].
    destruct (hasActionOfType sm (ID p) "vote"); simpl; rewrite IH; f_equal; lia.
Qed.

Lemma filter_length_all {A} (sel keep : A → bool) (l : list A) :
  (length (List.filter (fun x => keep x && sel x) l) ≤ length (List.filter keep l))%nat ∧
  (length (List.filter (fun x => keep x && sel x) l) = length (List.filter keep l)
   ↔ ∀ x, In x l → keep x = true → sel x = true).
Proof.
  induction l as [|x l [IHle IHeq]]; simpl.
  - split; [lia|]. split; [intros _ x []|done].
  - destruct (keep x) eqn:Hk; simpl.
    + destruct (sel x) eqn:Hs; simpl.
      * split; [lia|]. split.
        -- intros He x' [<-|Hin] Hk'; [done|]. apply IHeq; [lia|done..].
        -- intros Hall. f_equal. apply IHeq. intros x' Hin. apply Hall. by right.
      * split; [lia|]. split; [lia|].
        intros Hall. specialize (Hall x (or_introl eq_refl) Hk). congruence.
    + split; [done|]. split.
      * intros He x' [<-|Hin] Hk'; [congruence|]. by apply IHeq.
      * intros Hall. apply IHeq. intros x' Hin. apply Hall. by right.
Qed.

Lemma checkVoteComplete_living sm :
  checkVoteComplete sm = true ↔
  ∀ p, In p (Players (game sm)) → Alive p = true →
       hasActionOfType sm (ID p) "vote" = true.
Proof.
  unfold checkVoteComplete. rewrite checkVoteComplete_counts. simpl.
  rewrite Nat.eqb_eq.
  apply (proj2 (filter_length_all
                  (fun p => hasActionOfType sm (ID p) "vote") Alive
                  (Players (game sm)))).
Qed.

(** X8: the vote is complete exactly when every living roster participant
    has a "vote" action in the log; with nobody alive it is complete. *)
Theorem checkVoteComplete_iff sm :
  checkVoteComplete sm = true ↔
  ∀ p, p ∈ Players (game sm) → Alive p = true →
       hasActionOfType sm (ID p) "vote" = true.
Proof.
  rewrite checkVoteComplete_living.
  split; intros H p Hp; apply H; by apply list_elem_of_In.
Qed.

(** The theorem at [plurality_game], where the vote is complete, and its
    third seat. *)
Lemma checkVoteComplete_iff_witness :
  hasActionOfType (NewStateMachine plurality_game) "C" "vote" = true.
Proof.
  apply (proj1 (checkVoteComplete_iff (NewStateMachine plurality_game)) eq_refl
           (player "C" Seer true false)).
  - apply list_elem_of_In. vm_compute. right; right; left. reflexivity.
  - reflexivity.
Defined.

Lemma hasActionOfType_grows g s log' id kind :
  hasActionOfType (mkStateMachine g s) id kind = true →
  hasActionOfType (mkStateMachine (set_Actions (Actions g ++ log') g) s) id kind = true.
Proof.
  unfold hasActionOfType. simpl. rewrite existsb_app. by intros ->.
Qed.

Lemma isPhaseComplete_grows g s log' :
  isPhaseComplete (mkStateMachine g s) = true →
  isPhaseComplete (mkStateMachine (set_Actions (Actions g ++ log') g) s) = true.
Proof.
  unfold isPhaseComplete. simpl.
  destruct (Phase g =? PhaseNight).
  { unfold checkNightActionsComplete. simpl. rewrite !forallb_forall.
    intros H p Hp. specialize (H p Hp).
    destruct (negb (Alive p)); [done|].
    destruct ((Role p =? Werewolf) || (Role p =? WhiteWolf));
      [by apply hasActionOfType_grows|].
    destruct (Role p =? Seer); [by apply hasActionOfType_grows|].
    destruct (Role p =? Witch); [done|].
    destruct (Role p =? Guard); [by apply hasActionOfType_grows|done]. }
  destruct (Phase g =? PhaseDay); [done|].
  destruct (Phase g =? PhaseVote); [|done].
  rewrite !checkVoteComplete_living. simpl. intros H p Hp Ha.
  apply hasActionOfType_grows. by apply H.
Qed.

(** X9: an action [AddAction] accepts counts for its actor and kind in
    the completeness checks, and nothing that counted before is lost: a
    phase that was complete stays complete after any call of [AddAction]. *)
Theorem AddAction_counts now sm a :
  ((AddAction now (game sm) a).2 = None →
   hasActionOfType (mkStateMachine (AddAction now (game sm) a).1 (status sm))
     (PlayerID a) (Type_ a) = true) ∧
  (isPhaseComplete sm = true →
   isPhaseComplete (mkStateMachine (AddAction now (game sm) a).1 (status sm)) = true).
Proof.
  destruct sm as [g s]. simpl.
  destruct (AddAction_cases now g a) as [(-> & _)|(e & ->)]; simpl.
  - split.
    + intros _. unfold hasActionOfType. simpl. rewrite existsb_app. simpl.
      rewrite !String.eqb_refl. simpl. by rewrite orb_true_r.
    + apply isPhaseComplete_grows.
  - split; [done|]. done.
Qed.

(** The theorem at the wolf's kill on a villager in [night_game]. *)
Lemma AddAction_counts_witness :
  hasActionOfType
    (mkStateMachine (AddAction 7 night_game (act "kill" "V" "Y")).1 "")
    "V" "kill" = true.
Proof.
  apply (proj1 (AddAction_counts 7 (NewStateMachine night_game) (act "kill" "V" "Y"))).
  reflexivity.
Defined.

(** * What resolution keeps *)

Lemma sameRoster_setAlive id b players : sameRoster players (setAlive id b players).
Proof.
  unfold sameRoster. induction players as [|p ps IH]; simpl; [done|].
  destruct (ID p =? id); simpl; [done|]. by rewrite IH.
Qed.

Lemma sameRoster_trans ps1 ps2 ps3 :
  sameRoster ps1 ps2 → sameRoster ps2 ps3 → sameRoster ps1 ps3.
Proof. unfold sameRoster. congruence. Qed.

Lemma sameRoster_applyEffect log : ∀ players,
  sameRoster players (foldl applyEffect players log).
Proof.
  induction log as [|a log IH]; intros players; simpl; [done|].
  eapply sameRoster_trans; [|apply IH]. apply sameRoster_setAlive.
Qed.

Lemma sameRoster_processActionResult g a :
  sameRoster (Players g) (Players (processActionResult g a)).
Proof.
  unfold processActionResult.
  destruct (Type_ a =? "kill"); [apply sameRoster_setAlive|].
  destruct ((Type_ a =? "save") || (Type_ a =? "poison")); [apply sameRoster_setAlive|].
  destruct (Type_ a =? "vote"); [apply sameRoster_setAlive|done].
Qed.

Lemma sameRoster_processVoteResults f g :
  sameRoster (Players g) (Players (processVoteResults f g)).
Proof.
  unfold processVoteResults. destruct (foldl pickMax _ _) as [mx e].
  destruct (negb (e =? "")); simpl; [apply sameRoster_setAlive|done].
Qed.

Lemma sameRoster_TransitionPhase f sm :
  sameRoster (Players (game sm)) (Players (game (TransitionPhase f sm).1)).
Proof.
  unfold TransitionPhase.
  destruct (IsStarted (game sm)); simpl; [|done].
  destruct (isPhaseComplete sm); simpl; [|done].
  rewrite checkGameEnd_game.
  pose proof (sameRoster_processVoteResults f (game sm)) as Hv.
  pose proof (sameRoster_applyEffect
                (List.filter isKill (Actions (game sm))
                 ++ List.filter isPotion (Actions (game sm))) (Players (game sm))) as Hn.
  rewrite processNightResults_passes.
  remember (processVoteResults f (game sm)) as gv.
  simpl.
  destruct (Phase (game sm) =? PhaseNight); [exact Hn|].
  destruct (Phase (game sm) =? PhaseDay); [done|].
  destruct (Phase (game sm) =? PhaseVote); [exact Hv|done].
Qed.

(** X10: a phase transition and an action sent to the controller change
    nothing of the roster but alive flags: the same participants sit in the
    same seats with the same names, kinds, roles and lover flags. *)
Theorem roster_is_kept f now sm a :
  sameRoster (Players (game sm)) (Players (game (TransitionPhase f sm).1)) ∧
  sameRoster (Players (game sm))
    (Players (game (GameController.ProcessAction f now sm a).1)).
Proof.
  split; [apply sameRoster_TransitionPhase|].
  unfold GameController.ProcessAction.
  destruct (negb (existsb _ _)); simpl; [done|].
  destruct (AddAction_frame now (game sm) a) as (Hp & _).
  destruct (AddAction now (game sm) a) as [g1 [e|]]; simpl in *; [by rewrite Hp|].
  set (sm2 := mkStateMachine (processActionResult g1 a) (status sm)).
  assert (H2 : sameRoster (Players (game sm)) (Players (game sm2))).
  { rewrite <- Hp. apply sameRoster_processActionResult. }
  destruct (isPhaseComplete sm2); [|done].
  unfold GameController.endCurrentPhase.
  pose proof (sameRoster_TransitionPhase f sm2) as H3.
  destruct (TransitionPhase f sm2) as [sm' [e|]]; simpl in *.
  - destruct ((e =? VillagerWin) || (e =? WerewolfWin)); simpl;
      eapply sameRoster_trans; eauto.
  - eapply sameRoster_trans; eauto.
Qed.

(** The theorem at a kill sent on the first night of [night_game]. *)
Lemma roster_is_kept_witness :
  sameRoster (Players night_game)
    (Players (game (GameController.ProcessAction map_to_list 7
                      (NewStateMachine night_game) (act "kill" "V" "Y")).1)).
Proof.
  apply (proj2 (roster_is_kept map_to_list 7 (NewStateMachine night_game)
                  (act "kill" "V" "Y"))).
Defined.

Lemma countAlivePlayers_acc players : ∀ n,
  foldl (fun count player => if Alive player then S count else count) n players
  = (n + length (List.filter Alive players))%nat.
Proof.
  induction players as [|p ps IH]; intros n; simpl; [lia|].
  rewrite IH. destruct (Alive p); simpl; lia.
Qed.

Lemma countAlivePlayers_length players :
  countAlivePlayers players = length (List.filter Alive players).
Proof. unfold countAlivePlayers. by rewrite countAlivePlayers_acc. Qed.

Lemma countAlivePlayers_dead id players :
  (countAlivePlayers players - 1 ≤ countAlivePlayers (setAlive id false players)
   ≤ countAlivePlayers players)%nat.
Proof.
  rewrite !countAlivePlayers_length.
  induction players as [|p ps IH]; simpl; [lia|].
  destruct (ID p =? id); simpl.
  - destruct (Alive p); simpl; lia.
  - destruct (Alive p); simpl; lia.
Qed.

(** X11: whatever the order in which the tally is visited, vote resolution
    lowers the number of living participants by one at most and brings
    nobody back to life. *)
Theorem vote_resolution_one_death f g :
  (countAlivePlayers (Players g) - 1
   ≤ countAlivePlayers (Players (processVoteResults f g))
   ≤ countAlivePlayers (Players g))%nat ∧
  (∀ id, aliveOf (Players (processVoteResults f g)) id = Some true →
         aliveOf (Players g) id = Some true).
Proof.
  unfold processVoteResults. destruct (foldl pickMax _ _) as [mx e].
  destruct (negb (e =? "")); simpl.
  - split; [apply countAlivePlayers_dead|].
    intros id. rewrite aliveOf_setAlive.
    destruct (e =? id); [|done]. by destruct (aliveOf (Players g) id).
  - split; [lia|done].
Qed.

(** The theorem at the vote of [plurality_game]. *)
Lemma vote_resolution_one_death_witness :
  (countAlivePlayers (Players plurality_game) - 1
   ≤ countAlivePlayers (Players (processVoteResults map_to_list plurality_game))
   ≤ countAlivePlayers (Players plurality_game))%nat.
Proof.
  apply (proj1 (vote_resolution_one_death map_to_list plurality_game)).
Defined.

(** * Gates and verdicts of the state machine *)

Lemma TransitionPhase_game f sm :
  IsStarted (game sm) = true → isPhaseComplete sm = true →
  game (TransitionPhase f sm).1
  = set_TimeLeft 120
      (if Phase (game sm) =? PhaseNight then
         set_Phase PhaseDay (processNightResults (game sm))
       else if Phase (game sm) =? PhaseDay then set_Phase PhaseVote (game sm)
       else if Phase (game sm) =? PhaseVote then
         set_Round (wrap_int (Round (processVoteResults f (game sm)) + 1))
           (set_Phase PhaseNight (processVoteResults f (game sm)))
       else game sm).
Proof.
  intros Hs Hc. unfold TransitionPhase. rewrite Hs, Hc. simpl.
  by rewrite checkGameEnd_game.
Qed.

(** X12: [TransitionPhase] changes nothing and returns the not-started
    error for a game that is not started, and the incomplete-phase error for
    a phase that is not complete.  Past both gates the time budget is 120
    and the game stays started; leaving night or vote the log is empty,
    while leaving day the log and the roster are as they were, so the day's
    discussion lines are still in the log of the vote phase. *)
Theorem TransitionPhase_gates f sm :
  (IsStarted (game sm) = false →
   TransitionPhase f sm = (sm, Some ErrGameNotStarted)) ∧
  (IsStarted (game sm) = true → isPhaseComplete sm = false →
   TransitionPhase f sm = (sm, Some errPhaseIncompleteMsg)) ∧
  (IsStarted (game sm) = true → isPhaseComplete sm = true →
   TimeLeft (game (TransitionPhase f sm).1) = 120%Z ∧
   IsStarted (game (TransitionPhase f sm).1) = true ∧
   (Phase (game sm) = PhaseDay →
    Actions (game (TransitionPhase f sm).1) = Actions (game sm) ∧
    Players (game (TransitionPhase f sm).1) = Players (game sm)) ∧
   (Phase (game sm) ≠ PhaseDay → Actions (game (TransitionPhase f sm).1) = [])).
Proof.
  split; [|split].
  - intros Hs. unfold TransitionPhase. by rewrite Hs.
  - intros Hs Hc. unfold TransitionPhase. by rewrite Hs, Hc.
  - intros Hs Hc. split; [by rewrite TransitionPhase_game|].
    split; [by rewrite TransitionPhase_keeps_started|].
    rewrite (TransitionPhase_game f sm Hs Hc).
    destruct (processVoteResults_frame f (game sm)) as (Hv & _).
    pose proof (processNightResults_passes (game sm)) as Hn.
    remember (processVoteResults f (game sm)) as gv.
    remember (processNightResults (game sm)) as gn.
    unfold isPhaseComplete in Hc.
    destruct (String.eqb_spec (Phase (game sm)) PhaseNight) as [Hpn|Hpn].
    { split; [intros Hd; rewrite Hd in Hpn; discriminate|].
      intros _. simpl. by rewrite Hn. }
    destruct (String.eqb_spec (Phase (game sm)) PhaseDay) as [Hpd|Hpd]; [done|].
    destruct (String.eqb_spec (Phase (game sm)) PhaseVote) as [Hpv|Hpv]; [|done].
    split; [done|]. intros _. simpl. exact Hv.
Qed.

(** The theorem at the complete vote of [plurality_game]. *)
Lemma TransitionPhase_gates_witness :
  TimeLeft (game (TransitionPhase map_to_list (NewStateMachine plurality_game)).1)
  = 120%Z ∧
  IsStarted (game (TransitionPhase map_to_list (NewStateMachine plurality_game)).1)
  = true ∧
  (Phase (game (NewStateMachine plurality_game)) = PhaseDay →
   Actions (game (TransitionPhase map_to_list (NewStateMachine plurality_game)).1)
   = Actions (game (NewStateMachine plurality_game)) ∧
   Players (game (TransitionPhase map_to_list (NewStateMachine plurality_game)).1)
   = Players (game (NewStateMachine plurality_game))) ∧
  (Phase (game (NewStateMachine plurality_game)) ≠ PhaseDay →
   Actions (game (TransitionPhase map_to_list (NewStateMachine plurality_game)).1)
   = []).
Proof.
  apply (proj2 (proj2 (TransitionPhase_gates map_to_list
                         (NewStateMachine plurality_game)))).
  - reflexivity.
  - vm_compute. reflexivity.
Defined.

(** X13: game-end evaluation leaves the game untouched and returns no error
    exactly when it sets the status to ongoing, which it does exactly when
    some wolf-aligned participant is alive and the living village-aligned
    ones are strictly more; with nobody alive it declares the village win,
    and with a white wolf as the only survivor the white-wolf win. *)
Theorem checkGameEnd_verdict sm :
  game (checkGameEnd sm).1 = game sm ∧
  ((checkGameEnd sm).2 = None ↔ status (checkGameEnd sm).1 = GameOngoing) ∧
  (status (checkGameEnd sm).1 = GameOngoing ↔
   (0 < livingWolves (Players (game sm)) < livingVillage (Players (game sm)))%nat) ∧
  (livingAll (Players (game sm)) = 0 → status (checkGameEnd sm).1 = VillagerWin) ∧
  (livingAll (Players (game sm)) = 1 → livingWhiteWolves (Players (game sm)) = 1 →
   livingWolves (Players (game sm)) = 1 →
   status (checkGameEnd sm).1 = WhiteWolfWin).
Proof.
  pose proof (checkGameEnd_status sm) as Hs. simpl in Hs.
  pose proof (livingAll_split (Players (game sm))) as Hall.
  split; [apply checkGameEnd_game|]. split; [|split; [|split]].
  - rewrite checkGameEnd_error, Hs. clear Hs.
    repeat case_decide; simpl; split; intros; done.
  - rewrite Hs. clear Hs.
    repeat case_decide; split; intros;
      first [discriminate | reflexivity | lia | exfalso; intuition lia].
  - intros H0. rewrite Hs. clear Hs.
    repeat case_decide; first [reflexivity | exfalso; intuition lia].
  - intros H1 Hw Hv. rewrite Hs. clear Hs.
    repeat case_decide; first [reflexivity | exfalso; intuition lia].
Qed.

(** The theorem at a roster whose only survivor is a white wolf. *)
Lemma checkGameEnd_verdict_witness :
  status (checkGameEnd
            (NewStateMachine
               (session [player "U" WhiteWolf true false; player "Y" Villager false false]
                  PhaseDay []))).1 = WhiteWolfWin.
Proof.
  apply (proj2 (proj2 (proj2 (proj2
           (checkGameEnd_verdict
              (NewStateMachine
                 (session [player "U" WhiteWolf true false;
                           player "Y" Villager false false] PhaseDay []))))))).
  - reflexivity.
  - reflexivity.
  - reflexivity.
Defined.

Lemma checkAndUpdatePhase_at g :
  (Phase g = PhaseNight →
   checkAndUpdatePhase g = set_TimeLeft 120 (set_Phase PhaseDay g)) ∧
  (Phase g = PhaseDay →
   checkAndUpdatePhase g = set_TimeLeft 120 (set_Phase PhaseVote g)) ∧
  (Phase g = PhaseVote →
   checkAndUpdatePhase g
   = set_TimeLeft 120 (set_Round (wrap_int (Round g + 1)) (set_Phase PhaseNight g))).
Proof.
  unfold checkAndUpdatePhase. repeat split; intros ->; reflexivity.
Qed.

(** X14: from any of the three phases, three calls of [checkAndUpdatePhase]
    come back to the same phase with the round one higher (below the
    largest Go [int]), the time budget at 120, and log and roster
    untouched; a state in no known phase only gets its time budget reset. *)
Theorem checkAndUpdatePhase_thrice g :
  (Phase g ∈ [PhaseNight; PhaseDay; PhaseVote] → (MinInt ≤ Round g < MaxInt)%Z →
   checkAndUpdatePhase (checkAndUpdatePhase (checkAndUpdatePhase g))
   = set_TimeLeft 120 (set_Round (Round g + 1) g)) ∧
  (Phase g ∉ [PhaseNight; PhaseDay; PhaseVote] →
   checkAndUpdatePhase g = set_TimeLeft 120 g).
Proof.
  split.
  - intros Hp Hr. rewrite !elem_of_cons in Hp.
    destruct Hp as [Hp|[Hp|[Hp|Hp]]]; [| | |by apply elem_of_nil in Hp].
    + rewrite (proj1 (checkAndUpdatePhase_at g) Hp).
      set (g1 := set_TimeLeft 120 (set_Phase PhaseDay g)).
      rewrite (proj1 (proj2 (checkAndUpdatePhase_at g1)) eq_refl).
      set (g2 := set_TimeLeft 120 (set_Phase PhaseVote g1)).
      rewrite (proj2 (proj2 (checkAndUpdatePhase_at g2)) eq_refl).
      subst g2 g1. cbn [Round set_TimeLeft set_Phase].
      rewrite wrap_int_succ by done.
      destruct g; cbn in Hp; subst; reflexivity.
    + rewrite (proj1 (proj2 (checkAndUpdatePhase_at g)) Hp).
      set (g1 := set_TimeLeft 120 (set_Phase PhaseVote g)).
      rewrite (proj2 (proj2 (checkAndUpdatePhase_at g1)) eq_refl).
      set (g2 := set_TimeLeft 120 (set_Round _ _)).
      rewrite (proj1 (checkAndUpdatePhase_at g2) eq_refl).
      subst g2 g1. cbn [Round set_TimeLeft set_Phase].
      rewrite wrap_int_succ by done.
      destruct g; cbn in Hp; subst; reflexivity.
    + rewrite (proj2 (proj2 (checkAndUpdatePhase_at g)) Hp).
      set (g1 := set_TimeLeft 120 (set_Round _ _)).
      rewrite (proj1 (checkAndUpdatePhase_at g1) eq_refl).
      set (g2 := set_TimeLeft 120 (set_Phase PhaseDay g1)).
      rewrite (proj1 (proj2 (checkAndUpdatePhase_at g2)) eq_refl).
      subst g2 g1. cbn [Round set_TimeLeft set_Phase].
      rewrite wrap_int_succ by done.
      destruct g; cbn in Hp; subst; reflexivity.
  - intros Hp. unfold checkAndUpdatePhase.
    rewrite !elem_of_cons in Hp.
    destruct (String.eqb_spec (Phase g) PhaseNight); [tauto|].
    destruct (String.eqb_spec (Phase g) PhaseDay); [tauto|].
    destruct (String.eqb_spec (Phase g) PhaseVote); [tauto|done].
Qed.

(** The theorem at [night_game]. *)
Lemma checkAndUpdatePhase_thrice_witness :
  checkAndUpdatePhase (checkAndUpdatePhase (checkAndUpdatePhase night_game))
  = set_TimeLeft 120 (set_Round (Round night_game + 1) night_game).
Proof.
  apply (proj1 (checkAndUpdatePhase_thrice night_game)).
  - rewrite !elem_of_cons. left. reflexivity.
  - unfold MinInt, MaxInt. simpl. lia.
Defined.

(** * The seer, the hunter and the guard *)

Lemma findPlayer_sameRoster players players' id :
  sameRoster players players' →
  set_Alive true <$> findPlayer players' id = set_Alive true <$> findPlayer players id.
Proof.
  unfold sameRoster, findPlayer. revert players'.
  induction players as [|p ps IH]; intros [|p' ps']; simpl; try done.
  intros H.
  assert (Hp : set_Alive true p' = set_Alive true p) by congruence.
  assert (Hps : map (set_Alive true) ps' = map (set_Alive true) ps) by congruence.
  assert (Hid : ID p' = ID p) by exact (f_equal ID Hp).
  rewrite Hid. destruct (ID p =? id); simpl; [by rewrite Hp|]. by apply IH.
Qed.

Lemma holdsRole_sameRoster gs gs' id role :
  sameRoster (Players gs) (Players gs') →
  holdsRole gs' id role = holdsRole gs id role.
Proof.
  intros Hs. unfold holdsRole.
  pose proof (findPlayer_sameRoster _ _ id Hs) as Hf.
  destruct (findPlayer (Players gs') id) as [p'|],
           (findPlayer (Players gs) id) as [p|]; simpl in Hf; try done.
  assert (E : set_Alive true p' = set_Alive true p) by congruence.
  pose proof (f_equal Role E) as Hr. simpl in Hr. by rewrite Hr.
Qed.

(** X15: [UseSeerSkill] succeeds exactly when the first roster entry of the
    seer's identifier holds the seer role and the target is in the roster,
    whether the seer is alive or not and whatever the phase; it then returns
    the target's role, leaves the roster as it is and logs a check that
    counts for the seer in the completeness test of the night. *)
Theorem UseSeerSkill_reveals gs seerID targetID :
  ((UseSeerSkill gs seerID targetID).2 = None ↔
   holdsRole gs seerID Seer = true ∧ is_Some (findPlayer (Players gs) targetID)) ∧
  ((UseSeerSkill gs seerID targetID).2 = None →
   Some (UseSeerSkill gs seerID targetID).1.2
   = Role <$> findPlayer (Players gs) targetID ∧
   (UseSeerSkill gs seerID targetID).1.1
   = set_Actions (Actions gs ++ [mkAction "check" seerID targetID 0 "" ""]) gs ∧
   ∀ s, hasActionOfType (mkStateMachine (UseSeerSkill gs seerID targetID).1.1 s)
          seerID "check" = true).
Proof.
  unfold UseSeerSkill, holdsRole.
  destruct (findPlayer (Players gs) seerID) as [seer|]; simpl;
    [|split; [split; [done|by intros [? _]]|done]].
  destruct (Role seer =? Seer); simpl;
    [|split; [split; [done|by intros [? _]]|done]].
  destruct (findPlayer (Players gs) targetID) as [target|]; simpl.
  - split; [split; eauto|]. intros _. split; [done|]. split; [done|].
    intros s. unfold hasActionOfType. simpl. rewrite existsb_app. simpl.
    rewrite String.eqb_refl. simpl. by rewrite orb_true_r.
  - split; [split; [done|]|done]. intros [_ [? ?]]. done.
Qed.

(** The theorem at the dead seer of [specialists], by day. *)
Lemma UseSeerSkill_reveals_witness :
  Some (UseSeerSkill (session specialists PhaseDay []) "S" "V").1.2
  = Role <$> findPlayer specialists "V" ∧
  (UseSeerSkill (session specialists PhaseDay []) "S" "V").1.1
  = set_Actions [mkAction "check" "S" "V" 0 "" ""] (session specialists PhaseDay []) ∧
  ∀ s, hasActionOfType
         (mkStateMachine (UseSeerSkill (session specialists PhaseDay []) "S" "V").1.1 s)
         "S" "check" = true.
Proof.
  apply (proj2 (UseSeerSkill_reveals (session specialists PhaseDay []) "S" "V")).
  reflexivity.
Defined.

Lemma UseHunterSkill_cases gs hunterID targetID :
  (holdsRole gs hunterID Hunter = true ∧
   is_Some (findPlayer (Players gs) targetID) ∧
   UseHunterSkill gs hunterID targetID
   = (set_Players (setAlive targetID false (Players gs))
        (set_Actions (Actions gs ++ [mkAction "shoot" hunterID targetID 0 "" ""]) gs),
      None)) ∨
  (¬ (holdsRole gs hunterID Hunter = true ∧
      is_Some (findPlayer (Players gs) targetID)) ∧
   ∃ e, UseHunterSkill gs hunterID targetID = (gs, Some e)).
Proof.
  unfold UseHunterSkill, holdsRole.
  destruct (findPlayer (Players gs) hunterID) as [hunter|]; simpl;
    [|right; split; [by intros [? _]|eauto]].
  destruct (Role hunter =? Hunter); simpl;
    [|right; split; [by intros [? _]|eauto]].
  destruct (findPlayer (Players gs) targetID) as [target|]; simpl.
  - left. eauto.
  - right. split; [|eauto]. intros [_ [? ?]]. done.
Qed.

(** X16: [UseHunterSkill] succeeds exactly when the first roster entry of
    the hunter's identifier holds the hunter role and the target is in the
    roster; it then marks the target dead at once, leaves every other
    participant's alive flag alone and logs the shot.  It is not single-use
    and does not ask whether the hunter is alive: after a shot, a shot of
    the same hunter at any roster participant succeeds again. *)
Theorem UseHunterSkill_shoots gs hunterID targetID :
  ((UseHunterSkill gs hunterID targetID).2 = None ↔
   holdsRole gs hunterID Hunter = true ∧
   is_Some (findPlayer (Players gs) targetID)) ∧
  ((UseHunterSkill gs hunterID targetID).2 = None →
   aliveOf (Players (UseHunterSkill gs hunterID targetID).1) targetID = Some false ∧
   (∀ id, id ≠ targetID →
      aliveOf (Players (UseHunterSkill gs hunterID targetID).1) id
      = aliveOf (Players gs) id) ∧
   Actions (UseHunterSkill gs hunterID targetID).1
   = (Actions gs ++ [mkAction "shoot" hunterID targetID 0 "" ""])%list ∧
   (∀ t, is_Some (findPlayer (Players gs) t) →
      (UseHunterSkill (UseHunterSkill gs hunterID targetID).1 hunterID t).2 = None)).
Proof.
  destruct (UseHunterSkill_cases gs hunterID targetID)
    as [(Hh & Ht & Heq)|(Hn & e & Heq)]; rewrite Heq; simpl.
  - split; [done|]. intros _.
    split.
    { rewrite aliveOf_setAlive, String.eqb_refl. unfold aliveOf.
      destruct Ht as [t ->]. done. }
    split.
    { intros id Hne. rewrite aliveOf_setAlive.
      apply not_eq_sym, String.eqb_neq in Hne. by rewrite Hne. }
    split; [done|]. intros t Ht'.
    set (gs' := set_Players _ _).
    assert (Hsame : sameRoster (Players gs) (Players gs'))
      by apply sameRoster_setAlive.
    destruct (UseHunterSkill_cases gs' hunterID t)
      as [(_ & _ & ->)|(Hn & _)]; [done|].
    destruct Hn. split; [by rewrite (holdsRole_sameRoster gs gs')|].
    pose proof (findPlayer_sameRoster _ _ t Hsame) as Hf.
    destruct Ht' as [p Hp]. rewrite Hp in Hf.
    destruct (findPlayer (Players gs') t); [done|discriminate].
  - split; [|done]. split; [done|]. intros H. by destruct Hn.
Qed.

(** The theorem at the hunter of [specialists] shooting the wolf. *)
Lemma UseHunterSkill_shoots_witness :
  aliveOf (Players (UseHunterSkill (session specialists PhaseDay []) "H" "V").1) "V"
  = Some false ∧
  (∀ id, id ≠ "V" →
     aliveOf (Players (UseHunterSkill (session specialists PhaseDay []) "H" "V").1) id
     = aliveOf (Players (session specialists PhaseDay [])) id) ∧
  Actions (UseHunterSkill (session specialists PhaseDay []) "H" "V").1
  = (Actions (session specialists PhaseDay []) ++ [mkAction "shoot" "H" "V" 0 "" ""])%list ∧
  (∀ t, is_Some (findPlayer (Players (session specialists PhaseDay [])) t) →
     (UseHunterSkill (UseHunterSkill (session specialists PhaseDay []) "H" "V").1
        "H" t).2 = None).
Proof.
  apply (proj2 (UseHunterSkill_shoots (session specialists PhaseDay []) "H" "V")).
  reflexivity.
Defined.

(** X17: each of the four skill operations tests the actor's role first
    and the target second: it returns its role error when the first roster
    entry of the actor's identifier is missing or holds another role, the
    unknown-target error when the actor passes and the target is not in the
    roster, and whenever it returns an error the state is as before. *)
Theorem skills_refuse gs actor target kind :
  (holdsRole gs actor Seer = false →
   UseSeerSkill gs actor target = (gs, "", Some errNotSeerMsg)) ∧
  (holdsRole gs actor Witch = false →
   UseWitchSkill gs actor target kind = (gs, Some errNotWitchMsg)) ∧
  (holdsRole gs actor Hunter = false →
   UseHunterSkill gs actor target = (gs, Some errNotHunterMsg)) ∧
  (holdsRole gs actor Guard = false →
   UseGuardSkill gs actor target = (gs, Some errNotGuardMsg)) ∧
  (findPlayer (Players gs) target = None →
   (holdsRole gs actor Seer = true →
    UseSeerSkill gs actor target = (gs, "", Some errNoTargetMsg)) ∧
   (holdsRole gs actor Witch = true →
    UseWitchSkill gs actor target kind = (gs, Some errNoTargetMsg)) ∧
   (holdsRole gs actor Hunter = true →
    UseHunterSkill gs actor target = (gs, Some errNoTargetMsg)) ∧
   (holdsRole gs actor Guard = true →
    UseGuardSkill gs actor target = (gs, Some errNoTargetMsg))) ∧
  ((UseSeerSkill gs actor target).2 ≠ None → (UseSeerSkill gs actor target).1.1 = gs) ∧
  ((UseWitchSkill gs actor target kind).2 ≠ None →
   (UseWitchSkill gs actor target kind).1 = gs) ∧
  ((UseHunterSkill gs actor target).2 ≠ None → (UseHunterSkill gs actor target).1 = gs) ∧
  ((UseGuardSkill gs actor target).2 ≠ None → (UseGuardSkill gs actor target).1 = gs).
Proof.
  unfold holdsRole, UseSeerSkill, UseWitchSkill, UseWitchSkill_local, UseHunterSkill,
    UseGuardSkill, getWitchSkills.
  destruct (findPlayer (Players gs) actor) as [p|]; simpl.
  - destruct (findPlayer (Players gs) target) as [t|]; simpl;
      destruct (Role p =? Seer), (Role p =? Witch), (Role p =? Hunter),
        (Role p =? Guard); simpl;
      destruct (kind =? "save"), (kind =? "poison"); simpl;
      repeat split; intros; done.
  - repeat split; intros; done.
Qed.

(** The theorem at a villager of [specialists] posing as each of the
    four. *)
Lemma skills_refuse_witness :
  UseSeerSkill (session specialists PhaseNight []) "Y" "V"
  = (session specialists PhaseNight [], "", Some errNotSeerMsg).
Proof.
  apply (proj1 (skills_refuse (session specialists PhaseNight []) "Y" "V" "save")).
  reflexivity.
Defined.

(** * Rooms *)

(** X18: a room just created is the one [GetRoom] returns, with no
    participant and a minimum of one; its controller holds a new game in
    night phase, round 1, not started; a room that had the same identifier
    is replaced; every other room and controller is as before. *)
Theorem CreateRoom_registers id now rm name mode maxPlayers :
  RoomManager.GetRoom (RoomManager.CreateRoom id now rm name mode maxPlayers).1 id
  = (Some (mkRoom id name mode [] maxPlayers 1 false now), None) ∧
  (RoomManager.CreateRoom id now rm name mode maxPlayers).2
  = mkRoom id name mode [] maxPlayers 1 false now ∧
  RoomManager.GetGameController
    (RoomManager.CreateRoom id now rm name mode maxPlayers).1 id
  = Some (mkStateMachine (mkGameState "" [] PhaseNight 1 [] 120 false ∅) "") ∧
  (∀ other, other ≠ id →
     RoomManager.GetRoom (RoomManager.CreateRoom id now rm name mode maxPlayers).1 other
     = RoomManager.GetRoom rm other ∧
     RoomManager.GetGameController
       (RoomManager.CreateRoom id now rm name mode maxPlayers).1 other
     = RoomManager.GetGameController rm other).
Proof.
  unfold RoomManager.CreateRoom, RoomManager.GetRoom, RoomManager.GetGameController.
  simpl. rewrite !lookup_insert_eq. repeat split.
  - by rewrite lookup_insert_ne.
  - by rewrite lookup_insert_ne.
Qed.

(** The theorem at a second room beside the one of [one_room]. *)
Lemma CreateRoom_registers_witness :
  RoomManager.GetRoom
    (RoomManager.CreateRoom "lair" 9 one_room "lair" ExtendedMode 7).1 "den"
  = RoomManager.GetRoom one_room "den" ∧
  RoomManager.GetGameController
    (RoomManager.CreateRoom "lair" 9 one_room "lair" ExtendedMode 7).1 "den"
  = RoomManager.GetGameController one_room "den".
Proof.
  apply (proj2 (proj2 (proj2
           (CreateRoom_registers "lair" 9 one_room "lair" ExtendedMode 7)))).
  discriminate.
Defined.

Lemma member_known players id :
  existsb (fun p => ID p =? id) players = false ↔ id ∉ map ID players.
Proof.
  pose proof (known_target players id) as H.
  destruct (existsb _ players); split.
  - done.
  - intros Hn. destruct Hn. by apply H.
  - intros _ Hin. apply H in Hin. done.
  - done.
Qed.

(** X19: [JoinRoom] returns the not-found error for an unknown room and
    the room-full error for a room at its maximum, also when the participant
    is already in it; for a participant already in a room with free seats it
    returns no error and updates nothing, the name included.  In all three
    cases the manager is as before. *)
Theorem JoinRoom_refuses rm roomID player :
  (rooms rm !! roomID = None →
   RoomManager.JoinRoom rm roomID player = (rm, Some ErrRoomNotFound)) ∧
  (∀ room, rooms rm !! roomID = Some room →
     (MaxPlayers room ≤ Z.of_nat (length (Members room)))%Z →
     RoomManager.JoinRoom rm roomID player = (rm, Some ErrRoomFull)) ∧
  (∀ room, rooms rm !! roomID = Some room →
     (Z.of_nat (length (Members room)) < MaxPlayers room)%Z →
     ID player ∈ map ID (Members room) →
     RoomManager.JoinRoom rm roomID player = (rm, None)).
Proof.
  unfold RoomManager.JoinRoom. split; [by intros ->|]. split.
  - intros room -> Hfull.
    destruct (Z.leb_spec (MaxPlayers room) (Z.of_nat (length (Members room))));
      [done|lia].
  - intros room -> Hfree Hin.
    destruct (Z.leb_spec (MaxPlayers room) (Z.of_nat (length (Members room))));
      [lia|].
    apply known_target in Hin. by rewrite Hin.
Qed.

(** The theorem at the member of [den] coming back under another name. *)
Lemma JoinRoom_refuses_witness :
  RoomManager.JoinRoom one_room "den" (mkPlayer "A" "Alias" HumanPlayer "" "" true false)
  = (one_room, None).
Proof.
  apply (proj2 (proj2 (JoinRoom_refuses one_room "den"
                         (mkPlayer "A" "Alias" HumanPlayer "" "" true false))) den).
  - reflexivity.
  - reflexivity.
  - apply list_elem_of_In. left. reflexivity.
Defined.

Lemma findPlayer_app_new players player id :
  ID player ∉ map ID players →
  findPlayer (players ++ [player]) id
  = if ID player =? id then Some player else findPlayer players id.
Proof.
  unfold findPlayer. induction players as [|p ps IH]; simpl; intros Hn.
  - by destruct (ID player =? id).
  - rewrite not_elem_of_cons in Hn. destruct Hn as [Hne Hn].
    destruct (String.eqb_spec (ID p) id) as [Hp|Hp].
    + destruct (String.eqb_spec (ID player) id); [congruence|done].
    + by apply IH.
Qed.

(** X20: a participant whose identifier is new to a room with a free seat
    joins it: the call returns no error, the participant is appended to the
    room's roster as sent and is the one [GetPlayer] returns, every other
    lookup is as before, and the room's controller gets the same roster,
    whether its game is started or not. *)
Theorem JoinRoom_adds rm roomID player room :
  rooms rm !! roomID = Some room →
  (Z.of_nat (length (Members room)) < MaxPlayers room)%Z →
  ID player ∉ map ID (Members room) →
  (RoomManager.JoinRoom rm roomID player).2 = None ∧
  rooms (RoomManager.JoinRoom rm roomID player).1 !! roomID
  = Some (set_Members (Members room ++ [player]) room) ∧
  RoomManager.GetPlayer (RoomManager.JoinRoom rm roomID player).1 roomID (ID player)
  = (Some player, None) ∧
  (∀ id, id ≠ ID player →
     RoomManager.GetPlayer (RoomManager.JoinRoom rm roomID player).1 roomID id
     = RoomManager.GetPlayer rm roomID id) ∧
  (∀ other, other ≠ roomID →
     rooms (RoomManager.JoinRoom rm roomID player).1 !! other = rooms rm !! other ∧
     games (RoomManager.JoinRoom rm roomID player).1 !! other = games rm !! other) ∧
  (∀ gc, games rm !! roomID = Some gc →
     games (RoomManager.JoinRoom rm roomID player).1 !! roomID
     = Some (mkStateMachine (set_Players (Members room ++ [player]) (game gc))
               (status gc))).
Proof.
  intros Hroom Hfree Hnew. unfold RoomManager.JoinRoom, RoomManager.GetPlayer.
  rewrite Hroom.
  destruct (Z.leb_spec (MaxPlayers room) (Z.of_nat (length (Members room))));
    [lia|].
  rewrite (proj2 (member_known _ _) Hnew). simpl.
  rewrite !lookup_insert_eq. simpl.
  split; [done|]. split; [done|]. split.
  { by rewrite findPlayer_app_new, String.eqb_refl. }
  split.
  { intros id Hne. rewrite findPlayer_app_new by done.
    apply not_eq_sym, String.eqb_neq in Hne. by rewrite Hne. }
  split.
  { intros other Hne. rewrite lookup_insert_ne by done. split; [done|].
    destruct (games rm !! roomID); [by rewrite lookup_insert_ne|done]. }
  intros gc ->. by rewrite lookup_insert_eq.
Qed.

(** The theorem at a second participant entering [den]. *)
Lemma JoinRoom_adds_witness :
  (RoomManager.JoinRoom one_room "den" (player "B" "" false false)).2 = None ∧
  RoomManager.GetPlayer
    (RoomManager.JoinRoom one_room "den" (player "B" "" false false)).1 "den" "B"
  = (Some (player "B" "" false false), None).
Proof.
  destruct (JoinRoom_adds one_room "den" (player "B" "" false false) den)
    as (H1 & _ & H2 & _).
  - reflexivity.
  - reflexivity.
  - intros H. apply list_elem_of_In in H. simpl in H.
    destruct H as [H|H]; [discriminate H|exact H].
  - split; [exact H1|exact H2].
Defined.

(** X21: rooms stay in order: if every room has pairwise distinct
    participant identifiers and at most its maximum of participants, the
    same holds after [JoinRoom], and after [CreateRoom] with a maximum that
    is not negative. *)
Theorem rooms_stay_in_order rm :
  rooms_in_order rm →
  (∀ roomID player, rooms_in_order (RoomManager.JoinRoom rm roomID player).1) ∧
  (∀ id now name mode maxPlayers, (0 ≤ maxPlayers)%Z →
     rooms_in_order (RoomManager.CreateRoom id now rm name mode maxPlayers).1).
Proof.
  intros Hinv. split.
  - intros roomID player. unfold RoomManager.JoinRoom.
    destruct (rooms rm !! roomID) as [room|] eqn:Hroom; [|done].
    destruct (Z.leb_spec (MaxPlayers room) (Z.of_nat (length (Members room))));
      [done|].
    destruct (existsb _ (Members room)) eqn:Hex; [done|].
    apply member_known in Hex. destruct (Hinv roomID room Hroom) as [Hnd Hlen].
    intros id room'. simpl. destruct (decide (id = roomID)) as [->|Hne].
    + rewrite lookup_insert_eq. intros [= <-]. simpl. split.
      * rewrite map_app. simpl. apply NoDup_app. split; [done|].
        split; [|apply NoDup_singleton].
        intros x Hx Hx'. apply list_elem_of_singleton in Hx'. by subst.
      * rewrite length_app. simpl. lia.
    + rewrite lookup_insert_ne by done. apply Hinv.
  - intros id now name mode maxPlayers Hmax id' room'. simpl.
    destruct (decide (id' = id)) as [->|Hne].
    + rewrite lookup_insert_eq. intros [= <-]. simpl. split; [constructor|lia].
    + rewrite lookup_insert_ne by done. apply Hinv.
Qed.

Lemma one_room_in_order : rooms_in_order one_room.
Proof.
  intros id room. unfold one_room. simpl.
  destruct (decide (id = "den")) as [->|Hne].
  - rewrite lookup_singleton_eq. intros [= <-]. simpl. split; [|lia].
    apply NoDup_singleton.
  - by rewrite lookup_singleton_ne.
Qed.

(** The theorem at [one_room]. *)
Lemma rooms_stay_in_order_witness :
  rooms_in_order (RoomManager.JoinRoom one_room "den" (player "B" "" false false)).1.
Proof.
  apply (proj1 (rooms_stay_in_order one_room one_room_in_order)).
Defined.

(** * Broadcast groups *)

Lemma group_member l pid :
  existsb (fun x => x =? pid) l = true ↔ pid ∈ l.
Proof.
  rewrite existsb_exists, list_elem_of_In. split.
  - intros (x & Hin & ->%String.eqb_eq). done.
  - intros Hin. exists pid. split; [done|apply String.eqb_refl].
Qed.

Lemma group_JoinRoom_lookup groups roomID playerID :
  WebSocketManager.JoinRoom groups roomID playerID !! roomID
  = Some (if existsb (fun pid => pid =? playerID) (default [] (groups !! roomID))
          then default [] (groups !! roomID)
          else default [] (groups !! roomID) ++ [playerID])%list ∧
  (∀ r, r ≠ roomID →
     WebSocketManager.JoinRoom groups roomID playerID !! r = groups !! r).
Proof.
  unfold WebSocketManager.JoinRoom.
  destruct (groups !! roomID) as [l|] eqn:Hl; simpl.
  - rewrite Hl. simpl. destruct (existsb _ l); simpl.
    + split; [done|]. done.
    + rewrite lookup_insert_eq. split; [done|].
      intros r Hr. by rewrite lookup_insert_ne.
  - rewrite lookup_insert_eq. simpl. rewrite lookup_insert_eq. split; [done|].
    intros r Hr. by rewrite !lookup_insert_ne.
Qed.

(** X22: after [JoinRoom] of the WebSocket manager the participant is in
    the room's broadcast group; no other membership changes; joining again
    changes nothing; and a group without repetition stays without
    repetition. *)
Theorem group_JoinRoom groups roomID playerID :
  WebSocketManager.isPlayerInRoom
    (WebSocketManager.JoinRoom groups roomID playerID) roomID playerID = true ∧
  (∀ r p, r ≠ roomID ∨ p ≠ playerID →
     WebSocketManager.isPlayerInRoom
       (WebSocketManager.JoinRoom groups roomID playerID) r p
     = WebSocketManager.isPlayerInRoom groups r p) ∧
  WebSocketManager.JoinRoom
    (WebSocketManager.JoinRoom groups roomID playerID) roomID playerID
  = WebSocketManager.JoinRoom groups roomID playerID ∧
  (NoDup (default [] (groups !! roomID)) →
   NoDup (default []
            (WebSocketManager.JoinRoom groups roomID playerID !! roomID))).
Proof.
  destruct (group_JoinRoom_lookup groups roomID playerID) as [Hat Hoff].
  set (l := default [] (groups !! roomID)) in *.
  assert (Hin : existsb (fun pid => pid =? playerID)
                  (if existsb (fun pid => pid =? playerID) l then l
                   else l ++ [playerID])%list = true).
  { destruct (existsb _ l) eqn:E; [done|]. rewrite existsb_app. simpl.
    by rewrite String.eqb_refl, orb_true_r. }
  split; [|split; [|split]].
  - unfold WebSocketManager.isPlayerInRoom. by rewrite Hat.
  - intros r p Hrp. unfold WebSocketManager.isPlayerInRoom.
    destruct (decide (r = roomID)) as [->|Hr]; [|by rewrite Hoff].
    destruct Hrp as [|Hp]; [done|]. rewrite Hat. subst l.
    destruct (groups !! roomID) as [l|] eqn:Hl; simpl.
    + destruct (existsb _ l); [done|]. rewrite existsb_app. simpl.
      apply String.eqb_neq in Hp. rewrite String.eqb_sym in Hp.
      by rewrite Hp, !orb_false_r.
    + apply String.eqb_neq in Hp. rewrite String.eqb_sym in Hp. by rewrite Hp.
  - apply map_eq. intros r.
    destruct (group_JoinRoom_lookup
                (WebSocketManager.JoinRoom groups roomID playerID) roomID playerID)
      as [Hat' Hoff'].
    destruct (decide (r = roomID)) as [->|Hr]; [|by rewrite Hoff'].
    rewrite Hat', Hat. simpl. by rewrite Hin.
  - intros Hnd. rewrite Hat. simpl.
    destruct (existsb _ l) eqn:E; [done|].
    apply NoDup_app. split; [done|]. split; [|apply NoDup_singleton].
    intros x Hx Hx'. apply list_elem_of_singleton in Hx'. subst x.
    apply group_member in Hx. congruence.
Qed.

(** The theorem at a group of two joined by a third. *)
Lemma group_JoinRoom_witness :
  NoDup (default []
           (WebSocketManager.JoinRoom {[ "den" := ["A"; "B"] ]} "den" "C" !! "den")).
Proof.
  apply (proj2 (proj2 (proj2
           (group_JoinRoom {[ "den" := ["A"; "B"] ]} "den" "C")))).
  vm_compute. repeat constructor.
  - intros H. apply list_elem_of_In in H. simpl in H.
    destruct H as [H|H]; [discriminate H|exact H].
  - intros H. apply list_elem_of_In in H. exact H.
Defined.

(** * Synthetic participants *)

Lemma legal_pick_last : legal_pick Nat.pred.
Proof. intros n Hn. lia. Qed.

Lemma choose_elem pick l : legal_pick pick → l ≠ [] → AI.choose pick l ∈ l.
Proof.
  intros Hp Hl. unfold AI.choose.
  assert (Hlen : (0 < length l)%nat) by (destruct l; [done|simpl; lia]).
  destruct (lookup_lt_is_Some_2 l (pick (length l)) (Hp _ Hlen)) as [x Hx].
  rewrite Hx. simpl. by apply list_elem_of_lookup_2 in Hx.
Qed.

Lemma scan_spec judge players : ∀ acc,
  match AI.scan judge players acc with
  | inl id => ∃ p, In p players ∧ ID p = id ∧ judge p = AI.TakeNow
  | inr l =>
      (∀ p, In p players → judge p ≠ AI.TakeNow) ∧
      ∃ l', l = (acc ++ l')%list ∧
        (∀ id, id ∈ l' → ∃ p, In p players ∧ ID p = id ∧ judge p = AI.Candidate) ∧
        (∀ p, In p players → judge p = AI.Candidate → ID p ∈ l')
  end.
Proof.
  induction players as [|p ps IH]; intros acc; simpl.
  - split; [by intros p []|]. exists []. rewrite app_nil_r. split; [done|].
    split; [|by intros p []]. intros id Hid. by apply elem_of_nil in Hid.
  - destruct (judge p) eqn:Hj.
    + exists p. auto.
    + specialize (IH (acc ++ [ID p])%list).
      destruct (AI.scan judge ps (acc ++ [ID p])) as [id|l].
      * destruct IH as (q & Hq & Hid & Hjq). exists q. auto.
      * destruct IH as (Hnone & l' & -> & Hl' & Hall). split.
        { intros q [<-|Hq]; [congruence|by apply Hnone]. }
        exists (ID p :: l'). split; [by rewrite <- app_assoc|]. split.
        -- intros id [->|Hid]%elem_of_cons; [exists p; auto|].
           destruct (Hl' id Hid) as (q & Hq & ? & ?). exists q. auto.
        -- intros q [<-|Hq] Hjq; [by left|]. right. by apply Hall.
    + specialize (IH acc). destruct (AI.scan judge ps acc) as [id|l].
      * destruct IH as (q & Hq & Hid & Hjq). exists q. auto.
      * destruct IH as (Hnone & l' & -> & Hl' & Hall). split.
        { intros q [<-|Hq]; [congruence|by apply Hnone]. }
        exists l'. split; [done|]. split.
        -- intros id Hid. destruct (Hl' id Hid) as (q & Hq & ? & ?). exists q. auto.
        -- intros q [<-|Hq] Hjq; [congruence|]. by apply Hall.
Qed.

(** What a selection returns: the empty string, or the identifier of a
    roster entry the loop body did not pass over. *)
Lemma selected_spec pick judge players :
  legal_pick pick →
  AI.selected pick (AI.scan judge players []) = "" ∨
  ∃ p, In p players ∧ ID p = AI.selected pick (AI.scan judge players [])
       ∧ judge p ≠ AI.Pass.
Proof.
  intros Hp. pose proof (scan_spec judge players []) as Hs.
  destruct (AI.scan judge players []) as [id|l]; simpl.
  - destruct Hs as (p & Hin & Hid & Hj). right. exists p. rewrite Hj. auto.
  - destruct Hs as (_ & l' & -> & Hl' & _). simpl.
    destruct l' as [|x l']; simpl; [by left|]. right.
    destruct (Hl' (AI.choose pick (x :: l'))) as (p & Hin & Hid & Hj).
    { by apply choose_elem. }
    exists p. rewrite Hj. auto.
Qed.

Lemma find_exists {A} (sel : A → bool) (l : list A) x :
  In x l → sel x = true → ∃ y, find sel l = Some y.
Proof.
  intros Hin Hx. destruct (find sel l) as [y|] eqn:Hf; [eauto|].
  by rewrite (find_none sel l Hf x Hin) in Hx.
Qed.

Lemma selectKillTarget_cases pick ai gs :
  legal_pick pick →
  (existsb (fun p => Alive p && negb (isWolf p)) (Players gs) = false ∧
   AI.selectKillTarget pick ai gs = "") ∨
  (∃ p, In p (Players gs) ∧ ID p = AI.selectKillTarget pick ai gs ∧
        Alive p = true ∧ isWolf p = false).
Proof.
  intros Hp.
  assert ((existsb (fun p => Alive p && negb (isWolf p)) (Players gs) = true →
           ∃ p, In p (Players gs) ∧ ID p = AI.selectKillTarget pick ai gs ∧
                Alive p = true ∧ isWolf p = false) ∧
          (existsb (fun p => Alive p && negb (isWolf p)) (Players gs) = false →
           AI.selectKillTarget pick ai gs = "")) as [Hsome Hnone'].
  { unfold AI.selectKillTarget.
    match goal with |- context [AI.scan ?j _ _] => set (judge := j) end.
    assert (Hjudge : ∀ p, judge p ≠ AI.Pass → Alive p = true ∧ isWolf p = false).
    { intros p. unfold judge, isWolf. destruct (Alive p); simpl; [|done].
      destruct (Role p =? Werewolf); simpl; [done|].
      destruct (Role p =? WhiteWolf); simpl; done. }
    pose proof (scan_spec judge (Players gs) []) as Hs.
    match goal with |- context [find ?sel (Players gs)] =>
      set (fallback := find sel (Players gs)) end.
    assert (Hfall : ∀ p, fallback = Some p →
              In p (Players gs) ∧ Alive p = true ∧ isWolf p = false).
    { intros p Hf. apply find_some in Hf as [Hin Hf]. split; [done|].
      unfold isWolf. destruct (Alive p); simpl in *; [|done].
      destruct (Role p =? Werewolf); simpl in *; [done|].
      destruct (Role p =? WhiteWolf); simpl in *; done. }
    split.
    - intros Hex. apply existsb_exists in Hex as (q & Hq & Hsel).
      destruct (AI.scan judge (Players gs) []) as [id|l].
      + destruct Hs as (p & Hin & Hid & Hj). exists p.
        destruct (Hjudge p ltac:(congruence)). auto.
      + destruct Hs as (_ & l' & -> & Hl' & _). simpl.
        destruct l' as [|x l']; simpl.
        * destruct (find_exists (fun player =>
                      Alive player && negb (Role player =? Werewolf)
                      && negb (Role player =? WhiteWolf)) (Players gs) q Hq)
            as [y Hy].
          { unfold isWolf in Hsel. destruct (Alive q); simpl in *; [|done].
            by destruct (Role q =? Werewolf), (Role q =? WhiteWolf). }
          fold fallback in Hy. rewrite Hy. exists y.
          destruct (Hfall y Hy) as (? & ? & ?). auto.
        * destruct (Hl' (AI.choose pick (x :: l'))) as (p & Hin & Hid & Hj).
          { by apply choose_elem. }
          exists p. destruct (Hjudge p ltac:(congruence)). auto.
    - intros Hex.
      assert (Hnone : ∀ p, In p (Players gs) → ¬ (Alive p = true ∧ isWolf p = false)).
      { intros p Hin [Ha Hw].
        assert (existsb (fun p => Alive p && negb (isWolf p)) (Players gs) = true);
          [|congruence].
        apply existsb_exists. exists p. split; [done|]. by rewrite Ha, Hw. }
      destruct (AI.scan judge (Players gs) []) as [id|l].
      + destruct Hs as (p & Hin & Hid & Hj).
        destruct (Hnone p Hin). apply Hjudge. congruence.
      + destruct Hs as (_ & l' & -> & Hl' & _). simpl.
        destruct l' as [|x l']; simpl.
        * destruct fallback as [y|] eqn:Hy; [|done].
          destruct (Hfall y eq_refl) as (Hin & ? & ?). by destruct (Hnone y Hin).
        * destruct (Hl' x ltac:(by left)) as (p & Hin & Hid & Hj).
          destruct (Hnone p Hin). apply Hjudge. congruence. }
  destruct (existsb (fun p => Alive p && negb (isWolf p)) (Players gs));
    [right|left]; auto.
Qed.

(** X23: with random numbers in range, the kill target a synthetic wolf
    selects is the identifier of a living roster entry that is not
    wolf-aligned whenever there is one, whatever its personality and
    knowledge, and the empty string when there is none. *)
Theorem selectKillTarget_legal pick ai gs :
  legal_pick pick →
  (existsb (fun p => Alive p && negb (isWolf p)) (Players gs) = true →
   ∃ p, In p (Players gs) ∧ ID p = AI.selectKillTarget pick ai gs ∧
        Alive p = true ∧ isWolf p = false) ∧
  (existsb (fun p => Alive p && negb (isWolf p)) (Players gs) = false →
   AI.selectKillTarget pick ai gs = "").
Proof.
  intros Hp.
  destruct (selectKillTarget_cases pick ai gs Hp)
    as [[Hex Ht]|(p & Hin & Hid & Ha & Hw)].
  - split; [congruence|done].
  - split; [by exists p|]. intros Hex.
    assert (existsb (fun p => Alive p && negb (isWolf p)) (Players gs) = true);
      [|congruence].
    apply existsb_exists. exists p. split; [done|]. by rewrite Ha, Hw.
Qed.

(** The theorem at a cautious wolf of [night_game]. *)
Lemma selectKillTarget_legal_witness :
  ∃ p, In p (Players night_game) ∧
       ID p = AI.selectKillTarget Nat.pred (robot "V" Werewolf PersonalityCautious)
                night_game ∧
       Alive p = true ∧ isWolf p = false.
Proof.
  apply (proj1 (selectKillTarget_legal Nat.pred
                  (robot "V" Werewolf PersonalityCautious) night_game
                  legal_pick_last)).
  reflexivity.
Defined.

Lemma selected_legal pick ai gs judge :
  legal_pick pick →
  (∀ p, judge p ≠ AI.Pass → Alive p = true ∧ ID p ≠ AI.aiID ai) →
  AI.selected pick (AI.scan judge (Players gs) []) = "" ∨
  ∃ p, In p (Players gs) ∧
       ID p = AI.selected pick (AI.scan judge (Players gs) []) ∧
       Alive p = true ∧ ID p ≠ AI.aiID ai.
Proof.
  intros Hp Hj.
  destruct (selected_spec pick judge (Players gs) Hp) as [|(p & Hin & Hid & Hjp)];
    [by left|].
  right. exists p. destruct (Hj p Hjp). auto.
Qed.

Ltac judge_cases p :=
  destruct (Alive p); simpl; try done;
  match goal with
  | |- context [ID p =? ?me] => destruct (String.eqb_spec (ID p) me); simpl; done
  end.

(** X24: with random numbers in range, the targets a synthetic participant
    selects for a check, a poison, a protection and a vote are each the
    empty string or the identifier of a living roster entry other than its
    own: never itself, never a dead participant. *)
Theorem selections_spare_self_and_dead pick ai gs :
  legal_pick pick →
  let legal t :=
    t = "" ∨ ∃ p, In p (Players gs) ∧ ID p = t ∧ Alive p = true ∧ ID p ≠ AI.aiID ai in
  legal (AI.selectCheckTarget pick ai gs) ∧
  legal (AI.selectPoisonTarget pick ai gs) ∧
  legal (AI.selectProtectTarget pick ai gs) ∧
  legal (AI.selectVoteTarget pick ai gs).
Proof.
  intros Hp legal.
  repeat split; apply selected_legal; try done; intros p; judge_cases p.
Qed.

(** The theorem at a synthetic villager voting in [plurality_game]. *)
Lemma selections_spare_self_and_dead_witness :
  AI.selectVoteTarget Nat.pred (robot "A" Villager PersonalityRandom) plurality_game = "" ∨
  ∃ p, In p (Players plurality_game) ∧
       ID p = AI.selectVoteTarget Nat.pred (robot "A" Villager PersonalityRandom)
                plurality_game ∧
       Alive p = true ∧ ID p ≠ "A".
Proof.
  apply (selections_spare_self_and_dead Nat.pred
           (robot "A" Villager PersonalityRandom) plurality_game legal_pick_last).
Defined.

Lemma livingTarget_exists players p :
  In p players → Alive p = true →
  ∃ t, livingTarget players (ID p) = Some t ∧ Alive t = true.
Proof.
  intros Hin Ha. unfold livingTarget.
  destruct (find_exists (fun q => (ID q =? ID p) && Alive q) players p Hin)
    as [t Ht].
  { by rewrite String.eqb_refl, Ha. }
  exists t. split; [done|]. apply find_some in Ht as [_ Ht].
  by apply andb_prop in Ht as [_ Ht].
Qed.

Lemma livingTarget_NoDup players p :
  NoDup (map ID players) → In p players → Alive p = true →
  livingTarget players (ID p) = Some p.
Proof.
  unfold livingTarget. induction players as [|q qs IH]; simpl; intros Hnd Hin Ha;
    [done|].
  apply NoDup_cons in Hnd as [Hq Hnd].
  destruct Hin as [->|Hin].
  - by rewrite String.eqb_refl, Ha.
  - destruct (String.eqb_spec (ID q) (ID p)) as [He|_]; simpl; [|by apply IH].
    destruct Hq. rewrite He. apply list_elem_of_In, in_map. done.
Qed.

Lemma generateDiscussion_nonempty ai : AI.generateDiscussion ai ≠ "".
Proof.
  unfold AI.generateDiscussion, AI.generateWerewolfDiscussion,
    AI.generateSeerDiscussion, AI.generateWitchDiscussion,
    AI.generateGuardDiscussion, AI.generateVillagerDiscussion, AI.byPersonality.
  destruct ((AI.aiRole ai =? Werewolf) || (AI.aiRole ai =? WhiteWolf)),
    (AI.aiRole ai =? Seer), (AI.aiRole ai =? Witch), (AI.aiRole ai =? Guard),
    (AI.aiPersonality ai =? PersonalityAggressive),
    (AI.aiPersonality ai =? PersonalityCautious),
    (AI.aiPersonality ai =? PersonalityStrategic); discriminate.
Qed.

Lemma AddAction_accepts now gs a me :
  IsStarted gs = true →
  findPlayer (Players gs) (PlayerID a) = Some me → Alive me = true →
  (Phase gs = PhaseNight ∧
   ((Type_ a = "kill" ∧ isWolf me = true) ∨ (Type_ a = "check" ∧ Role me = Seer)
    ∨ (Type_ a = "protect" ∧ Role me = Guard))
   ∨ Phase gs = PhaseDay ∧ Type_ a = "discuss"
   ∨ Phase gs = PhaseVote ∧ Type_ a = "vote") →
  TargetID a = "" ∨ targetValid gs a = true →
  AddAction now gs a
  = (set_Actions (Actions gs ++ [set_Timestamp now a]) gs, None).
Proof.
  intros Hs Hme Ha Hkind Ht. unfold AddAction. rewrite Hs. simpl.
  assert (Hv : isValidAction gs a = true).
  { unfold isValidAction. rewrite Hme. simpl. rewrite Ha. simpl.
    destruct Hkind as [(-> & Hk)|[(-> & ->)|(-> & ->)]]; [|done..]. simpl.
    destruct Hk as [(-> & Hw)|[(-> & ->)|(-> & ->)]]; done. }
  rewrite Hv. simpl.
  destruct Ht as [->| ->]; simpl; [done|]. by rewrite andb_false_r.
Qed.

(** X25: by day and in the vote phase, the action a living synthetic
    participant decides on is always accepted by [AddAction] of a started
    game: by day a discussion line with a non-empty content and no target,
    in the vote phase a vote whose target is empty or a living participant
    other than itself. *)
Theorem synthetic_day_and_vote_accepted pick coin ai gs me now :
  legal_pick pick → IsStarted gs = true →
  findPlayer (Players gs) (AI.aiID ai) = Some me → Alive me = true →
  Phase gs = PhaseDay ∨ Phase gs = PhaseVote →
  AddAction now gs (AI.DecideAction pick coin ai gs)
  = (set_Actions
       (Actions gs ++ [set_Timestamp now (AI.DecideAction pick coin ai gs)]) gs,
     None) ∧
  PlayerID (AI.DecideAction pick coin ai gs) = AI.aiID ai ∧
  (Phase gs = PhaseDay →
   Type_ (AI.DecideAction pick coin ai gs) = "discuss" ∧
   TargetID (AI.DecideAction pick coin ai gs) = "" ∧
   Content (AI.DecideAction pick coin ai gs) ≠ "") ∧
  (Phase gs = PhaseVote →
   Type_ (AI.DecideAction pick coin ai gs) = "vote" ∧
   (TargetID (AI.DecideAction pick coin ai gs) = "" ∨
    ∃ p, In p (Players gs) ∧ ID p = TargetID (AI.DecideAction pick coin ai gs) ∧
         Alive p = true ∧ ID p ≠ AI.aiID ai)).
Proof.
  intros Hp Hs Hme Ha Hphase.
  assert (Hvote : AI.selectVoteTarget pick ai gs = "" ∨
            ∃ p, In p (Players gs) ∧ ID p = AI.selectVoteTarget pick ai gs ∧
                 Alive p = true ∧ ID p ≠ AI.aiID ai).
  { apply selected_legal; [done|]. intros p. judge_cases p. }
  unfold AI.DecideAction. destruct Hphase as [Hd|Hv].
  - rewrite Hd. simpl. split; [|split; [done|split; [|done]]].
    + apply (AddAction_accepts now gs _ me); simpl; auto.
    + intros _. split; [done|]. split; [done|]. apply generateDiscussion_nonempty.
  - rewrite Hv. simpl. split; [|split; [done|split; [done|]]].
    + apply (AddAction_accepts now gs _ me); simpl; auto.
      destruct Hvote as [Hempty|(p & Hin & Hid & Halive & _)]; [by left|right].
      unfold targetValid. simpl. rewrite <- Hid.
      destruct (livingTarget_exists (Players gs) p Hin Halive) as (t & -> & _).
      by rewrite Hv.
    + intros _. split; [done|]. exact Hvote.
Qed.

(** The theorem at a synthetic villager voting in [plurality_game]. *)
Lemma synthetic_day_and_vote_accepted_witness :
  AddAction 7 plurality_game
    (AI.DecideAction Nat.pred true (robot "A" Villager PersonalityRandom) plurality_game)
  = (set_Actions
       (Actions plurality_game
        ++ [set_Timestamp 7
              (AI.DecideAction Nat.pred true (robot "A" Villager PersonalityRandom)
                 plurality_game)]) plurality_game,
     None).
Proof.
  apply (synthetic_day_and_vote_accepted Nat.pred true
           (robot "A" Villager PersonalityRandom) plurality_game
           (player "A" Villager true false) 7 legal_pick_last).
  - reflexivity.
  - reflexivity.
  - reflexivity.
  - right. reflexivity.
Defined.

(** X26: at night, in a started game whose roster identifiers are pairwise
    distinct, the action decided on by a living synthetic wolf, seer or
    guard is accepted by [AddAction]. *)
Theorem synthetic_night_action_accepted pick coin ai gs me now :
  legal_pick pick → IsStarted gs = true → Phase gs = PhaseNight →
  NoDup (map ID (Players gs)) →
  findPlayer (Players gs) (AI.aiID ai) = Some me → Alive me = true →
  Role me = AI.aiRole ai →
  AI.aiRole ai ∈ [Werewolf; WhiteWolf; Seer; Guard] →
  AddAction now gs (AI.DecideAction pick coin ai gs)
  = (set_Actions
       (Actions gs ++ [set_Timestamp now (AI.DecideAction pick coin ai gs)]) gs,
     None).
Proof.
  intros Hp Hs Hn Hnd Hme Ha Hrole Hin.
  assert (Hcheck : AI.selectCheckTarget pick ai gs = "" ∨
            ∃ p, In p (Players gs) ∧ ID p = AI.selectCheckTarget pick ai gs ∧
                 Alive p = true ∧ ID p ≠ AI.aiID ai).
  { apply selected_legal; [done|]. intros p. judge_cases p. }
  assert (Hprot : AI.selectProtectTarget pick ai gs = "" ∨
            ∃ p, In p (Players gs) ∧ ID p = AI.selectProtectTarget pick ai gs ∧
                 Alive p = true ∧ ID p ≠ AI.aiID ai).
  { apply selected_legal; [done|]. intros p. judge_cases p. }
  assert (Hother : ∀ kind t,
            kind ≠ "kill" →
            (t = "" ∨ ∃ p, In p (Players gs) ∧ ID p = t ∧ Alive p = true
                           ∧ ID p ≠ AI.aiID ai) →
            TargetID (mkAction kind (AI.aiID ai) t 0 "" "") = ""
            ∨ targetValid gs (mkAction kind (AI.aiID ai) t 0 "" "") = true).
  { intros kind t Hk [->|(p & Hp' & <- & Hpa & _)]; [by left|right].
    unfold targetValid. simpl.
    destruct (livingTarget_exists (Players gs) p Hp' Hpa) as (t & -> & _).
    rewrite Hn. simpl. apply String.eqb_neq in Hk. by rewrite Hk. }
  unfold AI.DecideAction, AI.decideNightAction. rewrite Hn. simpl.
  rewrite !elem_of_cons in Hin.
  destruct ((AI.aiRole ai =? Werewolf) || (AI.aiRole ai =? WhiteWolf)) eqn:Hw.
  - apply (AddAction_accepts now gs _ me); simpl; auto.
    { left. split; [done|]. left. split; [done|]. unfold isWolf. by rewrite Hrole. }
    destruct (selectKillTarget_cases pick ai gs Hp)
      as [[_ Hnokill]|(p & Hp' & Hid & Hpa & Hpw)]; [by left|right].
    unfold targetValid. simpl. rewrite <- Hid.
    rewrite (livingTarget_NoDup (Players gs) p Hnd Hp' Hpa), Hn. simpl.
    unfold isWolf in Hpw. apply orb_false_elim in Hpw as [-> ->]. done.
  - apply orb_false_elim in Hw as [Hw1 Hw2].
    apply String.eqb_neq in Hw1, Hw2.
    destruct Hin as [?|[?|[Hr|[Hr|Hr]]]]; [done|done| | |by apply elem_of_nil in Hr];
      rewrite Hr; simpl.
    + apply (AddAction_accepts now gs _ me); simpl; auto.
      { left. split; [done|]. right; left. split; [done|congruence]. }
      apply Hother; [discriminate|done].
    + apply (AddAction_accepts now gs _ me); simpl; auto.
      { left. split; [done|]. right; right. split; [done|congruence]. }
      apply Hother; [discriminate|done].
Qed.

(** The theorem at a synthetic wolf of [night_game]. *)
Lemma synthetic_night_action_accepted_witness :
  AddAction 7 night_game
    (AI.DecideAction Nat.pred true (robot "V" Werewolf PersonalityCautious) night_game)
  = (set_Actions
       (Actions night_game
        ++ [set_Timestamp 7
              (AI.DecideAction Nat.pred true (robot "V" Werewolf PersonalityCautious)
                 night_game)]) night_game,
     None).
Proof.
  apply (synthetic_night_action_accepted Nat.pred true
           (robot "V" Werewolf PersonalityCautious) night_game
           (player "V" Werewolf true false) 7 legal_pick_last).
  - reflexivity.
  - reflexivity.
  - vm_compute. repeat constructor; intros H; apply list_elem_of_In in H; simpl in H;
      repeat (destruct H as [H|H]; [discriminate H|]); exact H.
  - reflexivity.
  - reflexivity.
  - reflexivity.
  - rewrite !elem_of_cons. left. reflexivity.
Defined.

(** X27: at night a synthetic participant whose role has no night action
    (villager, hunter, cupid, thief or any role but wolf, seer, witch and
    guard) decides on an action of empty kind, which [AddAction] of a
    started game refuses with the invalid-action error, changing nothing. *)
Theorem synthetic_idle_role_refused pick coin ai gs now :
  IsStarted gs = true → Phase gs = PhaseNight →
  AI.aiRole ai ∉ [Werewolf; WhiteWolf; Seer; Witch; Guard] →
  AI.DecideAction pick coin ai gs = mkAction "" (AI.aiID ai) "" 0 "" "" ∧
  AddAction now gs (AI.DecideAction pick coin ai gs) = (gs, Some errInvalidActionMsg).
Proof.
  intros Hs Hn Hrole. rewrite !not_elem_of_cons in Hrole.
  destruct Hrole as (H1 & H2 & H3 & H4 & H5 & _).
  apply String.eqb_neq in H1, H2, H3, H4, H5.
  unfold AI.DecideAction, AI.decideNightAction.
  rewrite Hn, H1, H2, H3, H4, H5. simpl. split; [done|].
  unfold AddAction. rewrite Hs. simpl.
  unfold isValidAction. rewrite Hn. simpl.
  by destruct (Alive (default zeroPlayer (findPlayer (Players gs) (AI.aiID ai)))).
Qed.

(** The theorem at a synthetic villager of [night_game]. *)
Lemma synthetic_idle_role_refused_witness :
  AI.DecideAction Nat.pred true (robot "Y" Villager PersonalityRandom) night_game
  = mkAction "" "Y" "" 0 "" "" ∧
  AddAction 7 night_game
    (AI.DecideAction Nat.pred true (robot "Y" Villager PersonalityRandom) night_game)
  = (night_game, Some errInvalidActionMsg).
Proof.
  apply (synthetic_idle_role_refused Nat.pred true
           (robot "Y" Villager PersonalityRandom) night_game 7).
  - reflexivity.
  - reflexivity.
  - rewrite !not_elem_of_cons. repeat split; try discriminate.
    apply not_elem_of_nil.
Defined.

Lemma foldl_unchanged {A B} (f : A → B → A) (l : list B) a :
  (∀ a b, f a b = a) → foldl f a l = a.
Proof.
  intros Hf. revert a. induction l as [|b l IH]; intros a; simpl; [done|].
  by rewrite Hf.
Qed.

Lemma newcomer_unsuspecting id personality role gs playerID :
  AI.isSuspicious (AI.mk id personality role ∅) gs playerID = false.
Proof.
  unfold AI.isSuspicious. simpl. rewrite lookup_empty, andb_false_r.
  rewrite foldl_unchanged.
  - by destruct (negb (AI.isActive gs playerID)).
  - intros n action.
    destruct ((Type_ action =? "vote") && (PlayerID action =? playerID)); [|done].
    by rewrite lookup_empty.
Qed.

Lemma newcomer_counts_no_suspect id personality role gs :
  AI.countSuspiciousPlayers (AI.mk id personality role ∅) gs = 0%nat.
Proof.
  unfold AI.countSuspiciousPlayers. apply foldl_unchanged. intros n player.
  by rewrite newcomer_unsuspecting, andb_false_r.
Qed.

(** X28: a synthetic witch as [NewAIPlayer] creates it knows no role, so
    it finds nobody suspicious or important: unless its personality is the
    random one it decides on no potion, whatever the potion ledger and the
    log, and [AddAction] of a started game refuses its night action with
    the invalid-action error; with the random personality it saves the
    target of the first logged kill when the coin, the ledger and the log
    allow it, and else poisons if the ledger has the poison. *)
Theorem newcomer_witch_decision pick coin r id gs now :
  IsStarted gs = true → Phase gs = PhaseNight →
  let ai := AI.NewAIPlayer r id Witch in
  ((r < 3)%nat →
   AI.DecideAction pick coin ai gs = mkAction "" id "" 0 "" "" ∧
   AddAction now gs (AI.DecideAction pick coin ai gs)
   = (gs, Some errInvalidActionMsg)) ∧
  (r = 3%nat →
   AI.DecideAction pick coin ai gs
   = if coin && AI.hasSavePotion ai gs && negb (AI.getLastKilledPlayer gs =? "")
     then mkAction "save" id (AI.getLastKilledPlayer gs) 0 "" ""
     else if AI.hasPoison ai gs
     then mkAction "poison" id (AI.selectPoisonTarget pick ai gs) 0 "" ""
     else mkAction "" id "" 0 "" "").
Proof.
  intros Hs Hn ai. split.
  - intros Hr.
    assert (Hidle : AI.DecideAction pick coin ai gs = mkAction "" id "" 0 "" "").
    { unfold AI.DecideAction, AI.decideNightAction, AI.decideWitchAction,
        AI.shouldSavePlayer, AI.shouldPoisonPlayer, AI.isImportantPlayer.
      rewrite Hn. subst ai. unfold AI.NewAIPlayer.
      rewrite newcomer_unsuspecting, newcomer_counts_no_suspect. simpl.
      rewrite lookup_empty, !andb_false_r. simpl.
      destruct r as [|[|[|r]]]; [| | |lia]; simpl; by rewrite ?andb_false_r. }
    split; [done|]. rewrite Hidle.
    unfold AddAction. rewrite Hs. simpl. unfold isValidAction. rewrite Hn. simpl.
    by destruct (Alive (default zeroPlayer (findPlayer (Players gs) id))).
  - intros ->. unfold AI.DecideAction, AI.decideNightAction. rewrite Hn. done.
Qed.

(** The theorem at a cautious newcomer in [night_game]. *)
Lemma newcomer_witch_decision_witness :
  AI.DecideAction Nat.pred true (AI.NewAIPlayer 1 "W" Witch) night_game
  = mkAction "" "W" "" 0 "" "" ∧
  AddAction 7 night_game
    (AI.DecideAction Nat.pred true (AI.NewAIPlayer 1 "W" Witch) night_game)
  = (night_game, Some errInvalidActionMsg).
Proof.
  apply (proj1 (newcomer_witch_decision Nat.pred true 1 "W" night_game 7
                  eq_refl eq_refl)).
  lia.
Defined.
